(** * atomate2: job bodies, drones and flow makers

    A shallow embedding of
      - [atomate2/common/jobs/utils.py]  (file clean-up, Bader analysis,
        Materials Project lookup),
      - [atomate2/qchem/drones.py]       (the QChem drone),
      - [atomate2/vasp/flows/mp.py]      (the Materials Project flow makers),
      - [atomate2/vasp/jobs/defect.py]   ([spawn_energy_curve_calcs]),
    together with the properties of these functions.

    Python objects are modelled by records and inductive types, [str] by
    [string], a dict by a [gmap], the file system by the entries of its
    directories, which a path reaches through the tree of directories,
    and exceptions by an explicit result type. *)

From Stdlib Require Import String Ascii List Bool Arith Lia DecimalString.
From Stdlib Require Import DecimalNat.
From stdpp Require Import base option list gmap strings fin_maps sorting.

Open Scope string_scope.
Open Scope list_scope.

Set Warnings "-register-all".

(** ** Python values shared by all modules *)

Module Py.

(** The exception classes that occur in the embedded code.  The three
    last ones derive from [BaseException] only. *)
Inductive exn : Type :=
| ImportError (msg : string)
| IndexError
| KeyError (key : string)
| AttributeError (type_name attr : string)
| FileNotFoundError (path : string)
| IsADirectoryError (path : string)
| TypeError (msg : string)
| ValueError (msg : string)
| RuntimeError (msg : string)
| KeyboardInterrupt
| SystemExit
| GeneratorExit.

(** [isinstance(e, Exception)]. *)
Definition is_Exception (e : exn) : bool :=
  match e with
  | KeyboardInterrupt | SystemExit | GeneratorExit => false
  | _ => true
  end.

(** The outcome of evaluating an expression: a value, or a raised
    exception. *)
Inductive res (A : Type) : Type :=
| Ok (a : A)
| Raise (e : exn).
Arguments Ok {A} a.
Arguments Raise {A} e.

(** Computations over a mutable world [S]; the world survives an
    exception, as it does in Python. *)
Definition M (S A : Type) : Type := S -> res A * S.

Definition ret {S A} (a : A) : M S A := fun s => (Ok a, s).

Definition bind {S A B} (m : M S A) (k : A -> M S B) : M S B :=
  fun s => match m s with
           | (Ok a, s') => k a s'
           | (Raise e, s') => (Raise e, s')
           end.

Definition raise {S A} (e : exn) : M S A := fun s => (Raise e, s).
Definition modify {S} (f : S -> S) : M S unit := fun s => (Ok tt, f s).

(** [for x in l: body(x)]. *)
Fixpoint for_in {S A} (l : list A) (body : A -> M S unit) : M S unit :=
  match l with
  | [] => ret tt
  | x :: l' => bind (body x) (fun _ => for_in l' body)
  end.

(** [s.split(sep)] for a one-character separator; the result is never
    empty. *)
Fixpoint split (sep : ascii) (s : string) : list string :=
  match s with
  | EmptyString => [EmptyString]
  | String c s' =>
      if Ascii.eqb c sep then EmptyString :: split sep s'
      else match split sep s' with
           | h :: t => String c h :: t
           | [] => [String c EmptyString]
           end
  end.

(** [l[-1]]. *)
Definition index_last {A} (l : list A) : res A :=
  match last l with
  | Some a => Ok a
  | None => Raise IndexError
  end.

(** [l[0]]. *)
Definition index_first {A} (l : list A) : res A :=
  match l with
  | a :: _ => Ok a
  | [] => Raise IndexError
  end.

(** [s.startswith(p)] and [s.endswith(p)]. *)
Fixpoint startswith (s p : string) : bool :=
  match p, s with
  | EmptyString, _ => true
  | String c p', String d s' => Ascii.eqb c d && startswith s' p'
  | String _ _, EmptyString => false
  end.

Definition endswith (s p : string) : bool :=
  startswith (String.rev s) (String.rev p).

(** [sep.join(l)] for a one-character separator. *)
Fixpoint join_with (sep : ascii) (l : list string) : string :=
  match l with
  | [] => EmptyString
  | h :: t =>
      match t with
      | [] => h
      | _ :: _ => h +:+ String sep (join_with sep t)
      end
  end.

(** [c in s] for a character. *)
Fixpoint contains_char (c : ascii) (s : string) : bool :=
  match s with
  | EmptyString => false
  | String d s' => Ascii.eqb d c || contains_char c s'
  end.

End Py.

Notation "'let*' x ':=' c1 'in' c2" := (Py.bind c1 (fun x => c2))
  (at level 10, x pattern, c1 at level 100, c2 at level 200).
Notation "c1 ';;' c2" := (Py.bind c1 (fun _ => c2))
  (at level 100, c2 at level 200, right associativity).

(** ** The operating-system interface used by the job bodies *)

Module Os.

(** A directory entry: a regular file with its contents, a directory, or
    a symbolic link with the place that its text leads to. *)
Inductive entry : Type :=
| File (content : string)
| Directory
| Link (target : string).

(** The entries of the file system, by place.  The place of an entry is
    the canonical path of the directory that holds it, joined with its
    name; a file with several hard links has an entry at each of them. *)
Abbreviation FS := (gmap string entry).

(** The tree of directories, through which the kernel leads a path to a
    place: [locate p] is the place that [p] names, for the working
    directory of the process, once [.], [..], repeated slashes and the
    links to directories on the way are resolved; the last component of
    [p] is not followed.  Two spellings of one name have the same place,
    and a path that leads nowhere has a place without entry.  The tree
    does not change when a regular file, or a link that leads to one, is
    unlinked, which is all that the jobs do.  [symloop_max] is the number
    of links that the kernel follows from an entry before it gives up. *)
Record Tree : Type := MkTree {
  locate : string -> string;
  symloop_max : nat
}.

(** What is found at a place when links are followed: nothing behind a
    link that dangles, or after more than [n] links. *)
Fixpoint follow (n : nat) (fs : FS) (place : string) : option entry :=
  match fs !! place with
  | Some (Link target) =>
      match n with
      | O => None
      | S n' => follow n' fs target
      end
  | found => found
  end.


(** [os.stat(p)], which follows links; [None] when it fails. *)
Definition stat (tree : Tree) (fs : FS) (p : string) : option entry :=
  follow (symloop_max tree) fs (locate tree p).


(** [os.path.isfile(p)]. *)
Definition isfile (tree : Tree) (fs : FS) (p : string) : bool :=
  match stat tree fs p with
  | Some (File _) => true
  | _ => false
  end.

(** [os.path.exists(p)]. *)
Definition exists_ (tree : Tree) (fs : FS) (p : string) : bool :=
  match stat tree fs p with
  | Some _ => true
  | None => false
  end.

(** [os.path.islink(p)]. *)
Definition islink (tree : Tree) (fs : FS) (p : string) : bool :=
  match fs !! locate tree p with
  | Some (Link _) => true
  | _ => false
  end.

(** [os.remove(p)]: unlinks the entry that [p] names, a link itself and
    not what it leads to; raises on a missing path and on a directory.
    The process is taken to have the right to unlink. *)
Definition remove (tree : Tree) (p : string) : Py.M FS unit :=
  fun fs => match fs !! locate tree p with
            | Some (File _) | Some (Link _) =>
                (Py.Ok tt, delete (locate tree p) fs)
            | Some Directory => (Py.Raise (Py.IsADirectoryError p), fs)
            | None => (Py.Raise (Py.FileNotFoundError p), fs)
            end.

(** [posixpath.join(a, b)]. *)
Definition join (a b : string) : string :=
  if Py.startswith b "/" then b
  else if String.eqb a "" || Py.endswith a "/" then a +:+ b
  else a +:+ "/" +:+ b.

(** The loop of [posixpath.normpath] over the components of a path. *)
Definition normpath_step (rooted : bool) (new_comps : list string)
    (comp : string) : list string :=
  if String.eqb comp "" || String.eqb comp "." then new_comps
  else if negb (String.eqb comp "..")
          || (negb rooted && bool_decide (new_comps = []))
          || bool_decide (last new_comps = Some "..")
  then new_comps ++ [comp]
  else removelast new_comps.

(** [posixpath.normpath(path)]. *)
Definition normpath (path : string) : string :=
  if String.eqb path "" then "."
  else
    let initial_slashes :=
      if Py.startswith path "/" then
        if Py.startswith path "//" && negb (Py.startswith path "///")
        then "//" else "/"
      else "" in
    let comps := Py.split "/" path in
    let new_comps :=
      foldl (normpath_step (Py.startswith path "/")) [] comps in
    let path := initial_slashes +:+ Py.join_with "/" new_comps in
    if String.eqb path "" then "." else path.

(** The file system after unlinking the entries that the paths of [ps]
    name, in order. *)
Definition unlink_all (tree : Tree) (ps : list string) (fs : FS) : FS :=
  foldl (fun m p => delete (locate tree p) m) fs ps.

End Os.


(** ** The part of jobflow that the makers build on

    Jobs, flows and output references are jobflow's; they are modelled as
    the data the makers of this repository put into them.  The graph checks
    of the [Flow] constructor are jobflow's own and are not part of this
    development. *)

Module Jobflow.

(** [OutputReference(uuid, attributes)]. *)
Record OutputReference : Type :=
  Ref { ref_uuid : string; ref_attributes : list string }.

(** [ref.attr] for a name that is not a field of the reference itself
    ([__getattr__]): a reference to an attribute of the referenced output.
    The field [ref.uuid] is [ref_uuid]. *)
Definition getattr (r : OutputReference) (attr : string) : OutputReference :=
  Ref (ref_uuid r) (ref_attributes r ++ [attr]).

(** A sequence of strings, as a tuple or as a list. *)
Inductive str_seq : Type :=
| StrTuple (items : list string)
| StrList (items : list string).

Definition seq_items (s : str_seq) : list string :=
  match s with StrTuple l | StrList l => l end.

(** [len(s)]. *)
Definition len (s : str_seq) : nat := length (seq_items s).

Section Graph.
(** pymatgen's [Structure]. *)
Variable Structure : Type.

(** Values given to makers and jobs. *)
Inductive Arg : Type :=
| ANone
| AStructure (s : Structure)
| AStr (s : string)
| ABool (b : bool)
| ARef (r : OutputReference)
| ARefs (rs : list OutputReference)
| AStrs (s : str_seq).

(** One [update_maker_kwargs({op: {key: value}}, dict_mod=...)]. *)
Record MakerUpdate : Type := MkUpdate {
  update_op : string;
  update_key : string;
  update_value : gmap string Arg;
  update_dict_mod : bool
}.

Record Job : Type := MkJob {
  job_uuid : string;
  job_name : string;
  job_function : string;
  job_kwargs : list (string * Arg);
  job_maker_updates : list MakerUpdate
}.

(** [job.output]. *)
Definition job_output (j : Job) : OutputReference := Ref (job_uuid j) [].

(** [job.append_name(s)]. *)
Definition append_name (j : Job) (s : string) : Job :=
  MkJob (job_uuid j) (job_name j +:+ s) (job_function j) (job_kwargs j)
        (job_maker_updates j).

(** [job.update_maker_kwargs(u, dict_mod=b)]. *)
Definition update_maker_kwargs (j : Job) (u : MakerUpdate) : Job :=
  MkJob (job_uuid j) (job_name j) (job_function j) (job_kwargs j)
        (job_maker_updates j ++ [u]).

(** What a maker returns: a job, or a flow of jobs and flows whose
    output is a reference to the output of one of its jobs. *)
Inductive Node : Type :=
| NJob (j : Job)
| NFlow (name : string) (jobs : list Node) (output : OutputReference).

(** [node.output]. *)
Definition node_output (n : Node) : OutputReference :=
  match n with
  | NJob j => job_output j
  | NFlow _ _ o => o
  end.

(** [Flow(jobs=..., output=..., name=...)]; the output is a reference
    for the flows of [mp.py] and a list of records for the flow of
    [defect.py]. *)
Record Flow (O : Type) : Type := MkFlow {
  flow_jobs : list Node;
  flow_output : O;
  flow_name : string
}.

(** [Response(output=..., stored_data=..., replace=...)]. *)
Record Response (O D R : Type) : Type := MkResponse {
  response_output : O;
  response_stored_data : D;
  response_replace : R
}.

(** The uuids of the jobs of a node, in order. *)
Fixpoint node_uuids (n : Node) : list string :=
  match n with
  | NJob j => [job_uuid j]
  | NFlow _ jobs _ => flat_map node_uuids jobs
  end.

Section World.
(** The state of jobflow and of the sub-makers, with the source of
    the uuid of a new job. *)
Variable W : Type.
Variable new_uuid : W -> string * W.

(** A maker: its [name] and its [make(structure, prev_dir)]. *)
Record Maker (R : Type) : Type := MkMaker {
  maker_name : string;
  make_fn : Arg -> Arg -> W -> R * W
}.

(** A recorded call [maker.make(structure, prev_dir)]. *)
Record Call (R : Type) : Type := MkCall {
  callee : Maker R;
  call_structure : Arg;
  call_prev_dir : Arg
}.

(** The world of a [make] method: the state [ext] of the library
    and the calls made to sub-makers so far. *)
Record world (R : Type) : Type := MkWorld {
  ext : W;
  calls : list (Call R)
}.

(** [m.make(structure, prev_dir)]. *)
Definition invoke {R} (m : Maker R) (structure prev_dir : Arg)
    (w : world R) : R * world R :=
  let '(r, e) := make_fn R m structure prev_dir (ext R w) in
  (r, MkWorld R e (calls R w ++ [MkCall R m structure prev_dir])).

(** Calling a function decorated with [@job]: a new job holding the
    function and its keyword arguments. *)
Definition job_call {R} (function : string)
    (kwargs : list (string * Arg)) (w : world R) : Job * world R :=
  let '(u, e) := new_uuid (ext R w) in
  (MkJob u function function kwargs [], MkWorld R e (calls R w)).
End World.
End Graph.

Arguments ANone {Structure}.
Arguments AStructure {Structure} s.
Arguments AStr {Structure} s.
Arguments ABool {Structure} b.
Arguments ARef {Structure} r.
Arguments ARefs {Structure} rs.
Arguments AStrs {Structure} s.
Arguments MkUpdate {Structure}.
Arguments update_op {Structure}.
Arguments update_key {Structure}.
Arguments update_value {Structure}.
Arguments update_dict_mod {Structure}.
Arguments MkJob {Structure}.
Arguments job_uuid {Structure}.
Arguments job_name {Structure}.
Arguments job_function {Structure}.
Arguments job_kwargs {Structure}.
Arguments job_maker_updates {Structure}.
Arguments job_output {Structure}.
Arguments append_name {Structure}.
Arguments update_maker_kwargs {Structure}.
Arguments NJob {Structure}.
Arguments NFlow {Structure}.
Arguments node_output {Structure}.
Arguments node_uuids {Structure}.
Arguments MkFlow {Structure O}.
Arguments flow_jobs {Structure O}.
Arguments flow_output {Structure O}.
Arguments flow_name {Structure O}.
Arguments MkResponse {O D R}.
Arguments response_output {O D R}.
Arguments response_stored_data {O D R}.
Arguments response_replace {O D R}.
Arguments MkMaker {Structure W R}.
Arguments maker_name {Structure W R}.
Arguments make_fn {Structure W R}.
Arguments MkCall {Structure W R}.
Arguments callee {Structure W R}.
Arguments call_structure {Structure W R}.
Arguments call_prev_dir {Structure W R}.
Arguments MkWorld {Structure W R}.
Arguments ext {Structure W R}.
Arguments calls {Structure W R}.
Arguments invoke {Structure W R}.
Arguments job_call {Structure W} new_uuid {R}.

End Jobflow.

(** ** [atomate2/common/jobs/utils.py]: file clean-up and Bader analysis *)

Module CommonJobs.
Import Py Os.

(** [dir_name.split(":")[-1]]. *)
Definition strip_host (dir_name : string) : res string :=
  index_last (split ":" dir_name).

(** A list comprehension whose element expression may raise. *)
Fixpoint comprehension {A B} (f : A -> res B) (l : list A) : res (list B) :=
  match l with
  | [] => Ok []
  | x :: l' =>
      match f x with
      | Raise e => Raise e
      | Ok y => match comprehension f l' with
                | Raise e => Raise e
                | Ok ys => Ok (y :: ys)
                end
      end
  end.

(** The local variable [removed_files] and the file system, which the
    two loops of [remove_workflow_files] update. *)
Record frame : Type := Frame { removed_files : list string; fs : FS }.

Definition read_fs {A} (f : FS -> A) : M frame A :=
  fun st => (Ok (f (fs st)), st).

Definition on_fs {A} (m : M FS A) : M frame A :=
  fun st => match m (fs st) with
            | (r, fs') => (r, Frame (removed_files st) fs')
            end.

Definition append_removed (file_name : string) : M frame unit :=
  modify (fun st => Frame (removed_files st ++ [file_name]) (fs st)).

Section Jobs.
(** The tree of directories of the machine; [os.path.abspath], for the
    working directory of the process; and [monty.os.path.zpath], which
    inspects the file system. *)
Variable tree : Tree.
Variable abspath : string -> string.
Variable zpath : FS -> string -> string.

(** The body of the inner loop, lines 177-183. *)
Definition remove_one (allow_zpath : bool) (job_dir file : string)
  : M frame unit :=
  let file_name := join job_dir file in
  let* file_name :=
    (if allow_zpath then read_fs (fun fs => zpath fs file_name)
     else ret file_name) in
  let* is_file := read_fs (fun fs => isfile tree fs file_name) in
  if is_file then
    append_removed file_name ;;
    on_fs (Os.remove tree file_name)
  else ret tt.

Definition remove_workflow_files
    (directories file_names : list string) (allow_zpath : bool)
  : M FS (list string) :=
  fun fs0 =>
    match comprehension
            (fun dir_name =>
               match strip_host dir_name with
               | Ok d => Ok (abspath d)
               | Raise e => Raise e
               end) directories with
    | Raise e => (Raise e, fs0)
    | Ok abs_paths =>
        match for_in abs_paths (fun job_dir =>
                for_in file_names (fun file =>
                  remove_one allow_zpath job_dir file))
              (Frame [] fs0) with
        | (Ok _, st) => (Ok (removed_files st), fs st)
        | (Raise e, st) => (Raise e, fs st)
        end
    end.

(** [bader_analysis]: [bader_analysis_from_path] is pymatgen's and is
    passed in; [dir_name] is given as [str(dir_name)]. *)
Definition bader_analysis {D}
    (bader_analysis_from_path : string -> string -> M FS D)
    (dir_name : string) (suffix : option string) : M FS D :=
  match strip_host dir_name with
  | Raise e => raise e
  | Ok d =>
      let dir_name := abspath d in
      bader_analysis_from_path dir_name
        (match suffix with
         | Some s => if String.eqb s "" then "" else s
         | None => ""
         end)
  end.

(** The path whose existence the job tests for a candidate
    [join(job_dir, file)] when the file system is [fs]. *)
Definition target (allow_zpath : bool) (fs : FS) (file_name : string)
  : string :=
  if allow_zpath then zpath fs file_name else file_name.

(** The candidates in the order the loops visit them: directory first,
    then file name. *)
Definition candidates (directories file_names : list string)
  : list string :=
  flat_map (fun d =>
              map (fun f => join (abspath (List.last (split ":" d) "")) f)
                  file_names)
           directories.
End Jobs.

(** *** The run of [remove_workflow_files], check by check *)

Section Checks.
Variable tree : Tree.
Variable zpath : FS -> string -> string.

(** One check of the inner loop on the candidate [file_name]. *)
Definition check (allow_zpath : bool) (st : frame) (file_name : string)
  : frame :=
  let p := target zpath allow_zpath (fs st) file_name in
  if isfile tree (fs st) p
  then Frame (removed_files st ++ [p]) (delete (locate tree p) (fs st))
  else st.

(** The outcome of each check on the candidates, in order: the path
    unlinked, or [None] when the check found no regular file. *)
Fixpoint hits_from (allow_zpath : bool) (fs : FS) (cands : list string)
  : list (option string) :=
  match cands with
  | [] => []
  | c :: cands' =>
      let p := target zpath allow_zpath fs c in
      if isfile tree fs p
      then Some p :: hits_from allow_zpath (delete (locate tree p) fs) cands'
      else None :: hits_from allow_zpath fs cands'
  end.
End Checks.

(** The paths listed by a sequence of outcomes. *)
Definition listed (hits : list (option string)) : list string :=
  omap id hits.

(** The file system at the time of check [k]: the initial one without
    the entries of the paths that the checks before [k] listed. *)
Definition fs_at (tree : Tree) (hits : list (option string)) (fs0 : FS)
    (k : nat) : FS :=
  unlink_all tree (listed (take k hits)) fs0.

(** [monty.os.path.zpath] on a name that carries none of the compressed
    suffixes itself: the first of the name and its compressed variants
    that exists, the name itself when none does. *)
Definition zpath_exts : list string :=
  [""; ".gz"; ".GZ"; ".bz2"; ".BZ2"; ".z"; ".Z"].

Definition monty_zpath (tree : Tree) (fs : FS) (filename : string) : string :=
  match List.find (fun ext => exists_ tree fs (filename +:+ ext))
                  zpath_exts with
  | Some ext => filename +:+ ext
  | None => filename
  end.

(** [os.path.abspath] for the working directory [cwd]. *)
Definition abspath_in (cwd : string) (p : string) : string :=
  normpath (if startswith p "/" then p else join cwd p).

(** *** [retrieve_structure_from_materials_project] *)

Section MaterialsProject.
(** The sites of a pymatgen [Structure] and the per-site values of a
    site property. *)
Variable Sites : Type.
Variable PropValues : Type.

Record Structure : Type := MkStructure {
  sites : Sites;
  site_properties : gmap string PropValues
}.

(** [structure.remove_site_property(name)], in place. *)
Definition remove_site_property (structure : Structure) (name : string)
  : Structure :=
  MkStructure (sites structure) (delete name (site_properties structure)).

(** An entry of [doc.origins]. *)
Record PropertyOrigin : Type := MkOrigin {
  origin_name : string;
  origin_task_id : string
}.

(** The documents of [mpr.tasks.search] and [mpr.materials.search],
    with the requested fields. *)
Record TaskSummary : Type := MkTaskSummary {
  task_structure : Structure
}.

Record MaterialSummary : Type := MkMaterialSummary {
  material_structure : Structure;
  material_origins : list PropertyOrigin
}.

(** The [MPRester] client of [mp_api]. *)
Record MPRester : Type := MkMPRester {
  tasks_search : string -> list TaskSummary;
  materials_search : string -> list MaterialSummary;
  get_database_version : string
}.

(** [{prop.name: prop for prop in origins}]. *)
Definition origins_by_name (origins : list PropertyOrigin)
  : gmap string PropertyOrigin :=
  foldl (fun m prop => <[origin_name prop := prop]> m) ∅ origins.

(** [d[key]]. *)
Definition subscript {V} (d : gmap string V) (key : string) : res V :=
  match d !! key with
  | Some v => Ok v
  | None => Raise (KeyError key)
  end.

Abbreviation StructureResponse :=
  (Jobflow.Response Structure (gmap string string) unit).

(** [mp_api] is [Some mpr] when [from mp_api.client import MPRester]
    succeeds, [mpr] being the client that [MPRester()] opens, and
    [None] when the import raises [ImportError]. *)
Definition retrieve_structure_from_materials_project
    (mp_api : option MPRester)
    (material_id_or_task_id : string)
    (use_task_id reset_magnetic_moments : bool)
  : res StructureResponse :=
  match mp_api with
  | None =>
      Raise (ImportError
        ("This job requires the Materials Project API client " +:+
         "to be installed, via `pip install mp-api` or similar."))
  | Some mpr =>
      let found :=
        if use_task_id then
          match index_first (tasks_search mpr material_id_or_task_id) with
          | Raise e => Raise e
          | Ok doc => Ok (task_structure doc, material_id_or_task_id)
          end
        else
          match index_first
                  (materials_search mpr material_id_or_task_id) with
          | Raise e => Raise e
          | Ok doc =>
              let origins := origins_by_name (material_origins doc) in
              match subscript origins "structure" with
              | Raise e => Raise e
              | Ok origin =>
                  Ok (material_structure doc, origin_task_id origin)
              end
          end in
      match found with
      | Raise e => Raise e
      | Ok (structure, task_id) =>
          let database_version := get_database_version mpr in
          let structure :=
            if reset_magnetic_moments
               && bool_decide (is_Some (site_properties structure !! "magmom"))
            then remove_site_property structure "magmom"
            else structure in
          Ok (Jobflow.MkResponse structure
                (<["task_id" := task_id]>
                   (<["database_version" := database_version]> ∅))
                tt)
      end
  end.
End MaterialsProject.

Arguments MkStructure {Sites PropValues}.
Arguments sites {Sites PropValues}.
Arguments site_properties {Sites PropValues}.
Arguments remove_site_property {Sites PropValues}.
Arguments MkTaskSummary {Sites PropValues}.
Arguments MkMaterialSummary {Sites PropValues}.
Arguments MkMPRester {Sites PropValues}.
Arguments tasks_search {Sites PropValues}.
Arguments materials_search {Sites PropValues}.
Arguments get_database_version {Sites PropValues}.
Arguments retrieve_structure_from_materials_project {Sites PropValues}.

End CommonJobs.

(** ** [atomate2/vasp/flows/mp.py]: the Materials Project flow makers *)

Module MP.
Import Jobflow.

Section Makers.
Variable Structure : Type.
Variable W : Type.
Variable new_uuid : W -> string * W.

#[local] Abbreviation Arg := (Jobflow.Arg Structure).
#[local] Abbreviation Node := (Jobflow.Node Structure).
#[local] Abbreviation Maker := (Jobflow.Maker Structure W Node).
#[local] Abbreviation world := (Jobflow.world Structure W Node).
#[local] Abbreviation Flow := (Jobflow.Flow Structure OutputReference).

(** A maker field is a maker object or [None]; a maker object is
    truthy. *)
Record MPGGADoubleRelaxStaticMaker : Type := MkGGA {
  gga_name : string;
  gga_relax_maker : Maker;
  gga_static_maker : option Maker
}.

Definition MPGGADoubleRelaxStaticMaker_make
    (self : MPGGADoubleRelaxStaticMaker) (structure prev_dir : Arg)
    (w : world) : Flow * world :=
  let '(relax_flow, w) := invoke (gga_relax_maker self) structure prev_dir w in
  let output := node_output relax_flow in
  let jobs := [relax_flow] in
  match gga_static_maker self with
  | Some static_maker =>
      let '(static_job, w) :=
        invoke static_maker (ARef (getattr output "structure"))
               (ARef (getattr output "dir_name")) w in
      let output := node_output static_job in
      let jobs := jobs ++ [static_job] in
      (MkFlow jobs output (gga_name self), w)
  | None => (MkFlow jobs output (gga_name self), w)
  end.

(** The meta-GGA maker derives from [MPGGADoubleRelaxMaker], whose two
    fields it inherits; its [make] does not read them. *)
Record MPMetaGGADoubleRelaxStaticMaker : Type := MkMetaGGA {
  meta_name : string;
  meta_relax_maker1 : option Maker;
  meta_relax_maker2 : Maker;
  meta_relax_maker : Maker;
  meta_static_maker : option Maker
}.

Definition MPMetaGGADoubleRelaxStaticMaker_make
    (self : MPMetaGGADoubleRelaxStaticMaker) (structure prev_dir : Arg)
    (w : world) : Flow * world :=
  let '(relax_flow, w) := invoke (meta_relax_maker self) structure prev_dir w in
  let output := node_output relax_flow in
  let jobs := [relax_flow] in
  match meta_static_maker self with
  | Some static_maker =>
      let '(static_job, w) :=
        invoke static_maker (ARef (getattr output "structure"))
               (ARef (getattr output "dir_name")) w in
      let output := node_output static_job in
      let jobs := jobs ++ [static_job] in
      (MkFlow jobs output (meta_name self), w)
  | None => (MkFlow jobs output (meta_name self), w)
  end.

(** Modelled from the spec: the directory names that
    [_recursive_get_dir_names] of [atomate2.common.utils], which is not
    among the sources, gathers from one node: the [output.dir_name] of
    every job, recursively through nested flows. *)
Fixpoint node_dir_names (n : Node) : list OutputReference :=
  match n with
  | NJob j => [getattr (job_output j) "dir_name"]
  | NFlow _ jobs _ => flat_map node_dir_names jobs
  end.

(** Modelled from the spec: [_recursive_get_dir_names(jobs, dir_names)]
    of [atomate2.common.utils], which is not among the sources; the list
    [dir_names] after the call is returned. *)
Definition _recursive_get_dir_names
    (jobs : list Node) (dir_names : list OutputReference)
  : list OutputReference :=
  dir_names ++ flat_map node_dir_names jobs.

Record MP24DoubleRelaxStaticMaker : Type := MkMP24 {
  mp24_name : string;
  mp24_relax_maker : Maker;
  mp24_static_maker : Maker;
  mp24_clean_files : option str_seq
}.

(** [self.clean_files or []]. *)
Definition clean_files_or_empty (clean_files : option str_seq) : str_seq :=
  match clean_files with
  | Some s => if (0 <? len s)%nat then s else StrList []
  | None => StrList []
  end.

(** [make] assigns to [self.clean_files]; the maker after the call is
    returned next to the flow. *)
Definition MP24DoubleRelaxStaticMaker_make
    (self : MP24DoubleRelaxStaticMaker) (structure prev_dir : Arg)
    (w : world) : Flow * MP24DoubleRelaxStaticMaker * world :=
  let '(relax_flow, w) :=
    invoke (mp24_relax_maker self) structure prev_dir w in
  let '(static_job, w) :=
    invoke (mp24_static_maker self)
           (ARef (getattr (node_output relax_flow) "structure"))
           (ARef (getattr (node_output relax_flow) "dir_name")) w in
  let jobs := [relax_flow; static_job] in
  let clean_files := clean_files_or_empty (mp24_clean_files self) in
  let self := MkMP24 (mp24_name self) (mp24_relax_maker self)
                     (mp24_static_maker self) (Some clean_files) in
  if (0 <? len clean_files)%nat then
    let directories := _recursive_get_dir_names jobs [] in
    let '(cleanup, w) :=
      job_call new_uuid "remove_workflow_files"
        [("directories", ARefs directories);
         ("file_names", AStrs clean_files);
         ("allow_zpath", ABool true)] w in
    let jobs := jobs ++ [NJob cleanup] in
    (MkFlow jobs (node_output static_job) (mp24_name self), self, w)
  else
    (MkFlow jobs (node_output static_job) (mp24_name self), self, w).
(** What a relax-then-static maker with fields [name], [relax_maker] and
    [static_maker] does on [structure] and [prev_dir] in the world [w]:
    the calls it makes, in order, and the flow it returns. *)
Definition relax_then_static
    (name : string) (relax_maker : Maker) (static_maker : option Maker)
    (structure prev_dir : Arg) (w : world) (result : Flow * world) : Prop :=
  let '(relax_flow, e1) := make_fn relax_maker structure prev_dir (ext w) in
  let relaxed := ARef (getattr (node_output relax_flow) "structure") in
  let relax_dir := ARef (getattr (node_output relax_flow) "dir_name") in
  match static_maker with
  | Some static_maker =>
      let '(static_job, e2) := make_fn static_maker relaxed relax_dir e1 in
      calls (snd result)
      = calls w ++ [MkCall relax_maker structure prev_dir;
                    MkCall static_maker relaxed relax_dir] /\
      ext (snd result) = e2 /\
      flow_jobs (fst result) = [relax_flow; static_job] /\
      flow_output (fst result) = node_output static_job /\
      flow_name (fst result) = name
  | None =>
      calls (snd result) = calls w ++ [MkCall relax_maker structure prev_dir] /\
      ext (snd result) = e1 /\
      flow_jobs (fst result) = [relax_flow] /\
      flow_output (fst result) = node_output relax_flow /\
      flow_name (fst result) = name
  end.
End Makers.

Arguments gga_name {Structure W}.
Arguments gga_relax_maker {Structure W}.
Arguments gga_static_maker {Structure W}.
Arguments meta_name {Structure W}.
Arguments meta_relax_maker {Structure W}.
Arguments meta_static_maker {Structure W}.
Arguments mp24_name {Structure W}.
Arguments mp24_relax_maker {Structure W}.
Arguments mp24_static_maker {Structure W}.
Arguments mp24_clean_files {Structure W}.
Arguments MPGGADoubleRelaxStaticMaker_make {Structure W}.
Arguments MPMetaGGADoubleRelaxStaticMaker_make {Structure W}.
Arguments MP24DoubleRelaxStaticMaker_make {Structure W}.
Arguments relax_then_static {Structure W}.
Arguments _recursive_get_dir_names {Structure}.
Arguments node_dir_names {Structure}.

End MP.

(** ** [atomate2/qchem/drones.py]: the QChem drone *)

Module QChemDrones.
Import Py.

Section Drone.
(** emmet's [TaskDoc], the keyword arguments the drone holds, and the
    state that [TaskDoc.from_directory] reads and writes. *)
Variable TaskDoc : Type.
Variable Kwargs : Type.
Variable E : Type.

(** [TaskDoc.from_directory(path, **kwargs)]. *)
Variable from_directory : string -> Kwargs -> M E TaskDoc.
(** [Path(path).absolute()] for a working directory. *)
Variable absolute : string -> string -> string.

Record QChemDrone : Type := MkDrone {
  task_document_kwargs : Kwargs
}.

(** A record written by [logger.error]: the absolute path and the
    exception of the formatted traceback. *)
Record LogRecord : Type := LogError {
  log_path : string;
  log_exception : exn
}.

(** The process around [assimilate]: the working directory, the
    records logged so far and the state of the parser. *)
Record process : Type := MkProcess {
  cwd : string;
  logged : list LogRecord;
  parser_state : E
}.

Definition assimilate (self : QChemDrone) (path : option string)
  : M process TaskDoc :=
  fun p =>
    let path := match path with
                | None => cwd p
                | Some path => path
                end in
    match from_directory path (task_document_kwargs self)
            (parser_state p) with
    | (Ok doc, e') => (Ok doc, MkProcess (cwd p) (logged p) e')
    | (Raise exc, e') =>
        if is_Exception exc then
          (Raise exc,
           MkProcess (cwd p)
             (logged p ++ [LogError (absolute (cwd p) path) exc]) e')
        else (Raise exc, MkProcess (cwd p) (logged p) e')
    end.
End Drone.

Arguments MkDrone {Kwargs}.
Arguments task_document_kwargs {Kwargs}.
Arguments MkProcess {E}.
Arguments cwd {E}.
Arguments logged {E}.
Arguments parser_state {E}.
Arguments assimilate {TaskDoc Kwargs E}.

(** [os.sep] on POSIX. *)
Definition sep : string := "/".

(** [parent.glob(pattern)] where [parent] is a [str]: the class has no
    attribute [glob]. *)
Definition str_glob (parent pattern : string) : res (list string) :=
  Raise (AttributeError "str" "glob").

(** [list(Path(g))] for the generator [g] of a glob: [Path] takes a
    path, not a generator. *)
Definition Path_of_matches (g : list string) : res (list string) :=
  Raise (TypeError "expected str, bytes or os.PathLike object, not generator").

(** [any(parent.endswith(os.sep + r) for r in task_names)]. *)
Definition any_endswith (parent : string) (task_names : list string) : bool :=
  existsb (fun r => endswith parent (sep +:+ r)) task_names.

(** [set(task_names).intersection(subdirs)], as its truth value. *)
Definition intersects (task_names subdirs : list string) : bool :=
  existsb (fun r => existsb (String.eqb r) subdirs) task_names.

(** [get_valid_paths((parent, subdirs, files))]; [and] evaluates its
    second operand only when the first is true. *)
Definition get_valid_paths (path : string * list string * list string)
  : res (list string) :=
  let '(parent, subdirs, _) := path in
  let task_names := ["mol.qout.*"] in
  if intersects task_names subdirs then Ok [parent]
  else
    let second :=
      if negb (any_endswith parent task_names) then
        match str_glob parent "mol.qout*" with
        | Raise e => Raise e
        | Ok g =>
            match Path_of_matches g with
            | Raise e => Raise e
            | Ok l => Ok (0 <? length l)%nat
            end
        end
      else Ok false in
    match second with
    | Raise e => Raise e
    | Ok true => Ok [parent]
    | Ok false => Ok []
    end.

End QChemDrones.

(** ** [atomate2/vasp/jobs/defect.py]: [spawn_energy_curve_calcs] *)

Module Defect.
Import Jobflow.

(** [str(i)] for a natural number. *)
Definition str_of_nat (i : nat) : string :=
  NilZero.string_of_uint (Nat.to_uint i).

(** The record appended to [outputs] for a static job: three references
    into the output of the job, and the uuid of the job. *)
Record CCDInput : Type := MkCCDInput {
  ccd_structure : OutputReference;
  ccd_energy : OutputReference;
  ccd_dir_name : OutputReference;
  ccd_uuid : string
}.

Section Spawn.
Variable Structure : Type.
Variable W : Type.
(** The distortion values, [sorted] on them, and pymatgen's
    [Structure.interpolate] with a list of image positions. *)
Variable Distortion : Type.
Variable sorted : list Distortion -> list Distortion.
Variable interpolate :
  Structure -> Structure -> list Distortion -> list Structure.

#[local] Abbreviation Arg := (Jobflow.Arg Structure).
#[local] Abbreviation Job := (Jobflow.Job Structure).
#[local] Abbreviation StaticMaker := (Jobflow.Maker Structure W Job).
#[local] Abbreviation world := (Jobflow.world Structure W Job).
#[local] Abbreviation Flow := (Jobflow.Flow Structure (list CCDInput)).

(** [f" {i}" if add_name == "" else f" {add_name} {i}"]. *)
Definition suffix_of (add_name : string) (i : nat) : string :=
  if String.eqb add_name "" then " " +:+ str_of_nat i
  else " " +:+ add_name +:+ " " +:+ str_of_nat i.

(** The [info] dictionary of a static calculation; [info.update]
    lets the entries of [add_info] win. *)
Definition info_of (relaxed_structure distorted_structure : Structure)
    (add_info : option (gmap string Arg)) : gmap string Arg :=
  let info : gmap string Arg :=
    <["relaxed_structure" := AStructure relaxed_structure]>
      (<["distorted_structure" := AStructure distorted_structure]> ∅) in
  match add_info with
  | Some add_info => add_info ∪ info
  | None => info
  end.

(** The record built from [task_doc = static_job.output];
    [task_doc.uuid] is the field of the reference, the uuid of the job. *)
Definition ccd_input_of (static_job : Job) : CCDInput :=
  let task_doc := job_output static_job in
  MkCCDInput (getattr (getattr task_doc "output") "structure")
             (getattr (getattr task_doc "output") "energy")
             (getattr task_doc "dir_name")
             (ref_uuid task_doc).

(** The loop over [enumerate(distorted_structures)], from index [i]
    on, with the lists [jobs] and [outputs] it appends to. *)
Fixpoint spawn_loop
    (relaxed_structure distorted_structure : Structure)
    (static_maker : StaticMaker) (prev_vasp_dir : Arg)
    (add_name : string) (add_info : option (gmap string Arg))
    (i : nat) (distorted_structures : list Structure)
    (jobs : list Job) (outputs : list CCDInput) (w : world)
  : list Job * list CCDInput * world :=
  match distorted_structures with
  | [] => (jobs, outputs, w)
  | d_struct :: rest =>
      let '(static_job, w) :=
        invoke static_maker (AStructure d_struct) prev_vasp_dir w in
      let suffix := suffix_of add_name i in
      let info := info_of relaxed_structure distorted_structure add_info in
      let static_job :=
        update_maker_kwargs static_job
          (MkUpdate "_set" "write_additional_data->info:json" info true) in
      let static_job := append_name static_job suffix in
      let jobs := jobs ++ [static_job] in
      let outputs := outputs ++ [ccd_input_of static_job] in
      spawn_loop relaxed_structure distorted_structure static_maker
        prev_vasp_dir add_name add_info (S i) rest jobs outputs w
  end.

Definition spawn_energy_curve_calcs
    (relaxed_structure distorted_structure : Structure)
    (distortions : list Distortion) (static_maker : StaticMaker)
    (prev_vasp_dir : Arg) (add_name : string)
    (add_info : option (gmap string Arg)) (w : world)
  : Response (list CCDInput) unit Flow * world :=
  let jobs := [] in
  let outputs := [] in
  let '(_, w) := invoke static_maker (AStructure relaxed_structure) ANone w in
  let distorted_structures :=
    interpolate relaxed_structure distorted_structure (sorted distortions) in
  let '(jobs, outputs, w) :=
    spawn_loop relaxed_structure distorted_structure static_maker
      prev_vasp_dir add_name add_info 0 distorted_structures jobs outputs w in
  let add_flow := MkFlow (map NJob jobs) outputs "Flow" in
  (MkResponse outputs tt add_flow, w).
(** The job that the loop keeps for image [i]: the job [raw] that the
    maker returned, with the provenance data set and its name suffixed. *)
Definition labelled
    (relaxed_structure distorted_structure : Structure)
    (add_name : string) (add_info : option (gmap string Arg))
    (i : nat) (raw : Job) : Job :=
  append_name
    (update_maker_kwargs raw
       (MkUpdate "_set" "write_additional_data->info:json"
          (info_of relaxed_structure distorted_structure add_info) true))
    (suffix_of add_name i).
(** A maker gives fresh uuids with respect to [used], the uuids given out
    in a state of the library, when the job of every call carries a uuid
    not given out before, which is given out afterwards together with the
    earlier ones. *)
Definition gives_fresh_uuids (used : W -> string -> Prop)
    (maker : StaticMaker) : Prop :=
  forall structure prev_dir e,
    let made := make_fn maker structure prev_dir e in
    ~ used e (job_uuid (fst made)) /\
    forall u, used e u \/ u = job_uuid (fst made) -> used (snd made) u.
End Spawn.

Arguments suffix_of add_name i : simpl never.
Arguments info_of {Structure}.
Arguments ccd_input_of {Structure}.
Arguments spawn_loop {Structure W}.
Arguments labelled {Structure}.
Arguments gives_fresh_uuids {Structure W}.
Arguments spawn_energy_curve_calcs {Structure W Distortion}.

End Defect.

(** ** [atomate2/vasp/jobs/defect.py]: [get_ccd_documents] *)

Module DefectDocuments.
Import Py.

(** [l[i]] for a Python integer [i]: a negative index counts from the
    end. *)
Definition py_index {A} (l : list A) (i : Z) : res A :=
  let n := Z.of_nat (length l) in
  let j := if (i <? 0)%Z then (i + n)%Z else i in
  if ((j <? 0) || (n <=? j))%Z then Raise IndexError
  else match l !! Z.to_nat j with
       | Some a => Ok a
       | None => Raise IndexError
       end.

Section Documents.
(** The values held by the input records (structures, energies,
    directory names, uuids) and the [CCDDocument]. *)
Variable V : Type.
Variable CCDDocument : Type.

(** The keyword arguments of [CCDDocument.from_task_outputs]. *)
Record TaskOutputs : Type := MkTaskOutputs {
  structures1 : list V;
  structures2 : list V;
  energies1 : list V;
  energies2 : list V;
  static_dirs1 : list V;
  static_dirs2 : list V;
  static_uuids1 : list V;
  static_uuids2 : list V;
  relaxed_uuid1 : V;
  relaxed_uuid2 : V
}.

(** [CCDDocument.from_task_outputs], of [atomate2.vasp.schemas.defect]. *)
Variable from_task_outputs : TaskOutputs -> res CCDDocument.

(** [[i[key] for i in inputs]]; an input is a dictionary. *)
Definition column (key : string) (inputs : list (gmap string V))
  : res (list V) :=
  CommonJobs.comprehension (fun i => CommonJobs.subscript i key) inputs.

(** The inputs are lists, as the outputs of [spawn_energy_curve_calcs]
    are; the arguments of the call are evaluated in the order in which
    they are written. *)
Definition get_ccd_documents
    (inputs1 inputs2 : list (gmap string V)) (undistorted_index : Z)
  : res (Jobflow.Response CCDDocument unit unit) :=
  match column "uuid" inputs1 with Raise e => Raise e | Ok static_uuids1 =>
  match column "uuid" inputs2 with Raise e => Raise e | Ok static_uuids2 =>
  match column "structure" inputs1 with Raise e => Raise e | Ok structures1 =>
  match column "structure" inputs2 with Raise e => Raise e | Ok structures2 =>
  match column "energy" inputs1 with Raise e => Raise e | Ok energies1 =>
  match column "energy" inputs2 with Raise e => Raise e | Ok energies2 =>
  match column "dir_name" inputs1 with Raise e => Raise e | Ok static_dirs1 =>
  match column "dir_name" inputs2 with Raise e => Raise e | Ok static_dirs2 =>
  match py_index static_uuids1 undistorted_index with
  | Raise e => Raise e | Ok relaxed_uuid1 =>
  match py_index static_uuids2 undistorted_index with
  | Raise e => Raise e | Ok relaxed_uuid2 =>
  match from_task_outputs
          (MkTaskOutputs structures1 structures2 energies1 energies2
             static_dirs1 static_dirs2 static_uuids1 static_uuids2
             relaxed_uuid1 relaxed_uuid2) with
  | Raise e => Raise e
  | Ok ccd_doc => Ok (Jobflow.MkResponse ccd_doc tt tt)
  end end end end end end end end end end end.

(** An input with the four keys that the job reads. *)
Definition complete (i : gmap string V) : Prop :=
  is_Some (i !! "uuid") /\ is_Some (i !! "structure") /\
  is_Some (i !! "energy") /\ is_Some (i !! "dir_name").
End Documents.

Arguments MkTaskOutputs {V}.
Arguments structures1 {V}.
Arguments structures2 {V}.
Arguments energies1 {V}.
Arguments energies2 {V}.
Arguments static_dirs1 {V}.
Arguments static_dirs2 {V}.
Arguments static_uuids1 {V}.
Arguments static_uuids2 {V}.
Arguments relaxed_uuid1 {V}.
Arguments relaxed_uuid2 {V}.
Arguments column {V}.
Arguments get_ccd_documents {V CCDDocument}.
Arguments complete {V}.

End DefectDocuments.

(** ** [atomate2/vasp/jobs/defect.py]: [FiniteDifferenceMaker.make] *)

Module FiniteDifference.
Import Py.

(** A value of an INCAR tag. *)
Inductive IncarValue : Type :=
| IStr (s : string)
| IInt (z : Z)
| IBool (b : bool).

(** pymatgen's [Incar], a dictionary of tags. *)
Abbreviation Incar := (gmap string IncarValue).

(** [incar.update(tags)]: the given tags replace the ones held. *)
Definition incar_update (incar tags : Incar) : Incar := tags ∪ incar.

(** The [include_files] argument of [gunzip_files]: a list of names, or
    one pattern. *)
Inductive FilesArg : Type :=
| Names (names : list string)
| Pattern (pattern : string).

Section Maker.
(** The keyword arguments of [run_vasp], the document, and the state of
    the working directory and of the programs run in it. *)
Variable Kwargs : Type.
Variable FiniteDifferenceDocument : Type.
Variable E : Type.

(** A call to a function that is not defined in this file, with the
    arguments it is given; a keyword that the call leaves out is [None]. *)
Inductive Event : Type :=
| CopyVaspOutputs (src_dir : string) (additional_vasp_files : list string)
| IncarFromFile (filename : string)
| IncarWriteFile (incar : Incar) (filename : string)
| GunzipFiles (include_files : FilesArg) (allow_missing force : option bool)
| CopyFiles (src_dir : string) (include_files : list string) (prefix : string)
| RenameFiles (filenames : list (string * string))
| RunVasp (kwargs : Kwargs)
| FileClientCopy (src dest : string)
| PathCwd
| FromDirectory (dir_name : string)
| GzipFiles (directory : string) (force : bool).

(** The functions called: those of [atomate2.common.files],
    [atomate2.vasp.files], [atomate2.vasp.run] and
    [atomate2.utils.path], pymatgen's [Incar], [Path.cwd] and the
    constructor of the document.  The file client [fc] that
    [copy_vasp_outputs] is given and that [fc.copy] uses is part of the
    state; [strip_hostname] is a function on strings. *)
Record Externals : Type := MkExternals {
  copy_vasp_outputs : string -> list string -> M E unit;
  Incar_from_file : string -> M E Incar;
  Incar_write_file : Incar -> string -> M E unit;
  strip_hostname : string -> string;
  gunzip_files : FilesArg -> option bool -> option bool -> M E unit;
  copy_files : string -> list string -> string -> M E unit;
  rename_files : list (string * string) -> M E unit;
  run_vasp : Kwargs -> M E unit;
  file_client_copy : string -> string -> M E unit;
  Path_cwd : M E string;
  from_directory : string -> M E FiniteDifferenceDocument;
  gzip_files : string -> bool -> M E unit
}.

(** The process of the job: the state [env] and the calls made so far. *)
Record process : Type := MkProcess { env : E; trace : list Event }.

(** A call: it is recorded, whether it returns or raises. *)
Definition call {A} (ev : Event) (op : M E A) : M process A :=
  fun p => match op (env p) with
           | (r, e') => (r, MkProcess e' (trace p ++ [ev]))
           end.

(** A call made for its effect: what it returns is dropped, what it
    raises is kept. *)
Definition forget {A} (op : M E A) : M E unit :=
  fun e => match op e with
           | (Ok _, e') => (Ok tt, e')
           | (Raise x, e') => (Raise x, e')
           end.

(** The call that an event records, made again from a given state. *)
Definition perform (ext : Externals) (ev : Event) : M E unit :=
  match ev with
  | CopyVaspOutputs src_dir files => copy_vasp_outputs ext src_dir files
  | IncarFromFile filename => forget (Incar_from_file ext filename)
  | IncarWriteFile incar filename => Incar_write_file ext incar filename
  | GunzipFiles include_files allow_missing force =>
      gunzip_files ext include_files allow_missing force
  | CopyFiles src_dir include_files prefix =>
      copy_files ext src_dir include_files prefix
  | RenameFiles filenames => rename_files ext filenames
  | RunVasp kwargs => run_vasp ext kwargs
  | FileClientCopy src dest => file_client_copy ext src dest
  | PathCwd => forget (Path_cwd ext)
  | FromDirectory dir_name => forget (from_directory ext dir_name)
  | GzipFiles directory force => gzip_files ext directory force
  end.

(** The calls of [evs] made one after the other, up to the first that
    raises. *)
Definition perform_all (ext : Externals) (evs : list Event) : M E unit :=
  for_in evs (perform ext).

Record FiniteDifferenceMaker : Type := MkFiniteDifferenceMaker {
  name : string;
  run_vasp_kwargs : Kwargs
}.

(** [enumerate(l)]. *)
Definition enumerate {A} (l : list A) : list (nat * A) :=
  zip (seq 0 (length l)) l.

(** The tags that [make] sets. *)
Definition wswq_tags : Incar :=
  <["ALGO" := IStr "None"]>
    (<["NSW" := IInt 0]>
       (<["LWAVE" := IBool false]> (<["LWSWQ" := IBool true]> ∅))).

(** The body of the loop over the distorted directories. *)
Definition make_step (ext : Externals) (self : FiniteDifferenceMaker)
    (item : nat * string) : M process unit :=
  let '(i, dir_name) := item in
  call (CopyFiles dir_name ["WAVECAR.gz"] "qqq.")
       (copy_files ext dir_name ["WAVECAR.gz"] "qqq.") ;;
  call (GunzipFiles (Pattern "qqq.WAVECAR*") (Some true) None)
       (gunzip_files ext (Pattern "qqq.WAVECAR*") (Some true) None) ;;
  call (RenameFiles [("qqq.WAVECAR", "WAVECAR.qqq")])
       (rename_files ext [("qqq.WAVECAR", "WAVECAR.qqq")]) ;;
  call (RunVasp (run_vasp_kwargs self)) (run_vasp ext (run_vasp_kwargs self)) ;;
  call (FileClientCopy "WSWQ" ("WSWQ." +:+ Defect.str_of_nat i))
       (file_client_copy ext "WSWQ" ("WSWQ." +:+ Defect.str_of_nat i)).

Definition make (ext : Externals) (self : FiniteDifferenceMaker)
    (ref_calc_dir : string) (distorted_calc_dirs : list string)
  : M process FiniteDifferenceDocument :=
  call (CopyVaspOutputs ref_calc_dir ["WAVECAR"])
       (copy_vasp_outputs ext ref_calc_dir ["WAVECAR"]) ;;
  let* incar := call (IncarFromFile "INCAR") (Incar_from_file ext "INCAR") in
  let incar := incar_update incar wswq_tags in
  call (IncarWriteFile incar "INCAR") (Incar_write_file ext incar "INCAR") ;;
  let d_dir_names := map (strip_hostname ext) distorted_calc_dirs in
  call (GunzipFiles (Names ["INCAR"; "POSCAR"; "WAVECAR"; "POTCAR"; "KPOINTS"])
          (Some true) (Some true))
       (gunzip_files ext
          (Names ["INCAR"; "POSCAR"; "WAVECAR"; "POTCAR"; "KPOINTS"])
          (Some true) (Some true)) ;;
  for_in (enumerate d_dir_names) (make_step ext self) ;;
  let* cur_dir := call PathCwd (Path_cwd ext) in
  let* fd_doc := call (FromDirectory cur_dir) (from_directory ext cur_dir) in
  call (GzipFiles cur_dir true) (gzip_files ext cur_dir true) ;;
  ret fd_doc.

(** The calls of one turn of the loop, and those of a whole run that
    reads [incar] and works in [cur_dir]. *)
Definition step_script (self : FiniteDifferenceMaker) (item : nat * string)
  : list Event :=
  [CopyFiles (snd item) ["WAVECAR.gz"] "qqq.";
   GunzipFiles (Pattern "qqq.WAVECAR*") (Some true) None;
   RenameFiles [("qqq.WAVECAR", "WAVECAR.qqq")];
   RunVasp (run_vasp_kwargs self);
   FileClientCopy "WSWQ" ("WSWQ." +:+ Defect.str_of_nat (fst item))].

Definition script (ext : Externals) (self : FiniteDifferenceMaker)
    (ref_calc_dir : string) (distorted_calc_dirs : list string)
    (incar : Incar) (cur_dir : string) : list Event :=
  [CopyVaspOutputs ref_calc_dir ["WAVECAR"];
   IncarFromFile "INCAR";
   IncarWriteFile (incar_update incar wswq_tags) "INCAR";
   GunzipFiles (Names ["INCAR"; "POSCAR"; "WAVECAR"; "POTCAR"; "KPOINTS"])
     (Some true) (Some true)]
  ++ flat_map (step_script self)
       (enumerate (map (strip_hostname ext) distorted_calc_dirs))
  ++ [PathCwd; FromDirectory cur_dir; GzipFiles cur_dir true].

Definition is_run_vasp (ev : Event) : bool :=
  match ev with RunVasp _ => true | _ => false end.

Definition is_write_incar (ev : Event) : bool :=
  match ev with IncarWriteFile _ _ => true | _ => false end.

(** The destinations of the copies made through the file client. *)
Definition copy_dests (evs : list Event) : list string :=
  omap (fun ev => match ev with
                  | FileClientCopy _ dest => Some dest
                  | _ => None
                  end) evs.
End Maker.

Arguments CopyVaspOutputs {Kwargs}.
Arguments IncarFromFile {Kwargs}.
Arguments IncarWriteFile {Kwargs}.
Arguments GunzipFiles {Kwargs}.
Arguments CopyFiles {Kwargs}.
Arguments RenameFiles {Kwargs}.
Arguments RunVasp {Kwargs}.
Arguments FileClientCopy {Kwargs}.
Arguments PathCwd {Kwargs}.
Arguments FromDirectory {Kwargs}.
Arguments GzipFiles {Kwargs}.
Arguments MkExternals {Kwargs FiniteDifferenceDocument E}.
Arguments strip_hostname {Kwargs FiniteDifferenceDocument E}.
Arguments copy_vasp_outputs {Kwargs FiniteDifferenceDocument E}.
Arguments Incar_from_file {Kwargs FiniteDifferenceDocument E}.
Arguments Incar_write_file {Kwargs FiniteDifferenceDocument E}.
Arguments gunzip_files {Kwargs FiniteDifferenceDocument E}.
Arguments copy_files {Kwargs FiniteDifferenceDocument E}.
Arguments rename_files {Kwargs FiniteDifferenceDocument E}.
Arguments run_vasp {Kwargs FiniteDifferenceDocument E}.
Arguments file_client_copy {Kwargs FiniteDifferenceDocument E}.
Arguments Path_cwd {Kwargs FiniteDifferenceDocument E}.
Arguments from_directory {Kwargs FiniteDifferenceDocument E}.
Arguments gzip_files {Kwargs FiniteDifferenceDocument E}.
Arguments MkProcess {Kwargs E}.
Arguments env {Kwargs E}.
Arguments trace {Kwargs E}.
Arguments call {Kwargs E A}.
Arguments forget {E A}.
Arguments perform {Kwargs FiniteDifferenceDocument E}.
Arguments perform_all {Kwargs FiniteDifferenceDocument E}.
Arguments MkFiniteDifferenceMaker {Kwargs}.
Arguments run_vasp_kwargs {Kwargs}.
Arguments make_step {Kwargs FiniteDifferenceDocument E}.
Arguments make {Kwargs FiniteDifferenceDocument E}.
Arguments step_script {Kwargs}.
Arguments script {Kwargs FiniteDifferenceDocument E}.
Arguments is_run_vasp {Kwargs}.
Arguments is_write_incar {Kwargs}.
Arguments copy_dests {Kwargs}.

End FiniteDifference.

(** ** Concrete inputs on which the properties are exercised *)

Module Fixtures.
Import Py Os CommonJobs.

(** Two calculation directories under [/w]; the first holds a plain and
    a compressed [WAVECAR], the second a compressed one, and a directory
    is named like a file to remove. *)
Definition disk : FS :=
  <["/w/a/WAVECAR" := File "wave a"]>
    (<["/w/a/WAVECAR.gz" := File "wave a gz"]>
       (<["/w/a/INCAR" := File "incar a"]>
          (<["/w/b/WAVECAR.gz" := File "wave b gz"]>
             (<["/w/b/CHGCAR" := Directory]>
                (<["/w/a" := Directory]> (<["/w/b" := Directory]> ∅)))))).

(** The tree of a machine without links to directories, for the
    working directory [/w]: a path that goes through directories that
    exist names the entry at its absolute normal form. *)
Definition tree : Tree := MkTree (abspath_in "/w") 40.

(** The same machine when [/w/latest] is a link to the directory [/w/a]:
    a path through [/w/latest] names an entry of [/w/a]. *)
Definition linked_tree : Tree :=
  MkTree (fun p =>
            let q := abspath_in "/w" p in
            if startswith q "/w/latest/"
            then "/w/a/" +:+ String.substring 10 (String.length q - 10) q
            else q) 40.

(** A directory whose [WAVECAR] is a link to a file kept elsewhere. *)
Definition linked_disk : FS :=
  <["/w/a/WAVECAR" := Link "/w/store/WAVECAR"]>
    (<["/w/store/WAVECAR" := File "wave a"]>
       (<["/w/a" := Directory]> (<["/w/store" := Directory]> ∅))).

Definition job_dirs : list string := ["host:/w/a"; "b"; "/w/a"].
Definition names : list string := ["WAVECAR"; "CHGCAR"].

(** A source of uuids: the uuid number [n] is [n] strokes. *)
Fixpoint strokes (n : nat) : string :=
  match n with
  | O => ""
  | S n => String "i" (strokes n)
  end.

Definition new_uuid (n : nat) : string * nat := (strokes n, S n).

(** Makers over structures given by their formula, in a world that
    counts the jobs made. *)
Definition vasp_job (name : string) (structure prev_dir : Jobflow.Arg string)
    (n : nat) : Jobflow.Job string :=
  Jobflow.MkJob (strokes n) name "BaseVaspMaker.make"
    [("structure", structure); ("prev_dir", prev_dir)] [].

Definition step_maker (name : string)
  : Jobflow.Maker string nat (Jobflow.Node string) :=
  Jobflow.MkMaker name
    (fun structure prev_dir n =>
       (Jobflow.NJob (vasp_job name structure prev_dir n), S n)).

Definition double_relax_maker
  : Jobflow.Maker string nat (Jobflow.Node string) :=
  Jobflow.MkMaker "double relax"
    (fun structure prev_dir n =>
       let relax1 := vasp_job "relax 1" structure prev_dir n in
       let out1 := Jobflow.job_output relax1 in
       let relax2 :=
         vasp_job "relax 2"
           (Jobflow.ARef (Jobflow.getattr out1 "structure"))
           (Jobflow.ARef (Jobflow.getattr out1 "dir_name")) (S n) in
       (Jobflow.NFlow "double relax"
          [Jobflow.NJob relax1; Jobflow.NJob relax2]
          (Jobflow.job_output relax2),
        S (S n))).

Definition static_maker : Jobflow.Maker string nat (Jobflow.Job string) :=
  Jobflow.MkMaker "static"
    (fun structure prev_dir n => (vasp_job "static" structure prev_dir n, S n)).

Definition mp24_default : MP.MP24DoubleRelaxStaticMaker string nat :=
  MP.MkMP24 string nat "MP24 r2SCAN workflow" double_relax_maker
    (step_maker "MP24 static") (Some (Jobflow.StrTuple ["WAVECAR"])).

Definition mp24_keep_files : MP.MP24DoubleRelaxStaticMaker string nat :=
  MP.MkMP24 string nat "MP24 r2SCAN workflow" double_relax_maker
    (step_maker "MP24 static") None.

Definition fresh_world {R} : Jobflow.world string nat R :=
  Jobflow.MkWorld 0%nat [].

(** Distortions as natural numbers of steps, and the images they give. *)
Definition sorted_steps (distortions : list nat) : list nat :=
  merge_sort Nat.le distortions.

Definition interpolate_steps (relaxed distorted : string) (steps : list nat)
  : list string :=
  map (fun t => relaxed +:+ "->" +:+ distorted +:+ "@" +:+ strokes t) steps.

(** The uuids given out in the world [n]. *)
Definition given_out (n : nat) (u : string) : Prop :=
  exists k, (k < n)%nat /\ u = strokes k.

(** A parser of calculation directories that is interrupted from the
    keyboard, one that fails on a missing output file, and one that
    succeeds; task documents are given by their directory. *)
Definition interrupted_parser (path : string) (kwargs : unit)
  : Py.M unit string :=
  Py.raise Py.KeyboardInterrupt.

Definition failing_parser (path : string) (kwargs : unit)
  : Py.M unit string :=
  Py.raise (Py.FileNotFoundError (Os.join path "mol.qout")).

Definition working_parser (path : string) (kwargs : unit)
  : Py.M unit string :=
  Py.ret ("task document of " +:+ path).

Definition drone : QChemDrones.QChemDrone unit := QChemDrones.MkDrone tt.

Definition idle_process : QChemDrones.process unit :=
  QChemDrones.MkProcess "/w" [] tt.

(** A Materials Project client that knows the material [mp-149], whose
    structure comes from the task [mp-1791788], and that task; sites are
    given by a formula and site properties by a list of numbers. *)
Definition silicon : CommonJobs.Structure string (list nat) :=
  CommonJobs.MkStructure "Si2" (<["magmom" := [0; 0]%nat]> ∅).

Definition client : CommonJobs.MPRester string (list nat) :=
  CommonJobs.MkMPRester
    (fun id => if String.eqb id "mp-1791788"
               then [CommonJobs.MkTaskSummary silicon] else [])
    (fun id => if String.eqb id "mp-149"
               then [CommonJobs.MkMaterialSummary silicon
                       [CommonJobs.MkOrigin "energy" "mp-2000000";
                        CommonJobs.MkOrigin "structure" "mp-1791788"]]
               else [])
    "2025.09.25".

Definition gga_default : MP.MPGGADoubleRelaxStaticMaker string nat :=
  MP.MkGGA string nat "MP GGA relax" double_relax_maker
    (Some (step_maker "MP GGA static")).

Definition gga_relax_only : MP.MPGGADoubleRelaxStaticMaker string nat :=
  MP.MkGGA string nat "MP GGA relax" double_relax_maker None.

(** Two energy curves of three static calculations each, as records of
    strings. *)
Definition ccd_record (uuid structure energy dir_name : string)
  : gmap string string :=
  <["uuid" := uuid]>
    (<["structure" := structure]>
       (<["energy" := energy]> (<["dir_name" := dir_name]> ∅))).

Definition ground_curve : list (gmap string string) :=
  [ccd_record "g0" "ground 0" "-10.0" "/w/g0";
   ccd_record "g1" "ground 1" "-9.5" "/w/g1";
   ccd_record "g2" "ground 2" "-8.0" "/w/g2"].

Definition excited_curve : list (gmap string string) :=
  [ccd_record "e0" "excited 0" "-7.0" "/w/e0";
   ccd_record "e1" "excited 1" "-7.5" "/w/e1";
   ccd_record "e2" "excited 2" "-8.0" "/w/e2"].

(** A document builder that keeps the two relaxed uuids. *)
Definition relaxed_pair (outputs : DefectDocuments.TaskOutputs string)
  : Py.res (string * string) :=
  Py.Ok (DefectDocuments.relaxed_uuid1 outputs,
         DefectDocuments.relaxed_uuid2 outputs).

(** A curve whose second record has lost its energy. *)
Definition broken_curve : list (gmap string string) :=
  [ccd_record "b0" "broken 0" "-1.0" "/w/b0";
   delete "energy" (ccd_record "b1" "broken 1" "-2.0" "/w/b1")].

(** A working directory in which VASP fails at its second run, the state
    counting the runs made; the document is the number of runs. *)
Definition flaky_vasp : FiniteDifference.Externals unit nat nat :=
  FiniteDifference.MkExternals
    (fun _ _ => Py.ret tt)
    (fun _ => Py.ret (<["ALGO" := FiniteDifference.IStr "Normal"]>
                        (<["ENCUT" := FiniteDifference.IInt 520]> ∅)))
    (fun _ _ => Py.ret tt)
    (fun d => match CommonJobs.strip_host d with
              | Py.Ok d' => d'
              | Py.Raise _ => d
              end)
    (fun _ _ _ => Py.ret tt)
    (fun _ _ _ => Py.ret tt)
    (fun _ => Py.ret tt)
    (fun _ n => if (n =? 1)%nat
                then (Py.Raise (Py.RuntimeError "VASP failed"), S n)
                else (Py.Ok tt, S n))
    (fun _ _ => Py.ret tt)
    (Py.ret "/w/fd")
    (fun _ n => (Py.Ok n, n))
    (fun _ _ => Py.ret tt).

Definition finite_diff : FiniteDifference.FiniteDifferenceMaker unit :=
  FiniteDifference.MkFiniteDifferenceMaker "finite diff" tt.

End Fixtures.

(** * Properties *)

(** ** Strings *)

Module PyFacts.
Import Py.

Lemma append_assoc (a b c : string) : (a +:+ b) +:+ c = a +:+ (b +:+ c).
Proof.
  induction a as [|x a IH]; [reflexivity|].
  change (String x ((a +:+ b) +:+ c) = String x (a +:+ (b +:+ c))).
  f_equal. exact IH.
Qed.

Lemma split_nonempty sep s : split sep s <> [].
Proof.
  destruct s as [|c s]; simpl; [discriminate|].
  destruct (Ascii.eqb c sep); [discriminate|].
  destruct (split sep s); discriminate.
Qed.

Lemma join_with_cons sep h t :
  t <> [] -> join_with sep (h :: t) = h +:+ String sep (join_with sep t).
Proof. destruct t; [congruence|reflexivity]. Qed.

Lemma join_with_cons_char sep c h t :
  join_with sep (String c h :: t) = String c (join_with sep (h :: t)).
Proof. destruct t; reflexivity. Qed.

Lemma join_with_split sep s : join_with sep (split sep s) = s.
Proof.
  induction s as [|c s IH]; [reflexivity|].
  cbn [split].
  pose proof (split_nonempty sep s) as Hne.
  destruct (Ascii.eqb c sep) eqn:Hc.
  - apply Ascii.eqb_eq in Hc. subst c.
    rewrite join_with_cons by assumption. rewrite IH. reflexivity.
  - destruct (split sep s) as [|h t]; [congruence|].
    rewrite join_with_cons_char, IH. reflexivity.
Qed.

Lemma split_pieces sep s :
  Forall (fun piece => contains_char sep piece = false) (split sep s).
Proof.
  induction s as [|c s IH]; simpl.
  - constructor; [reflexivity|constructor].
  - destruct (Ascii.eqb c sep) eqn:Hc.
    + constructor; [reflexivity|exact IH].
    + destruct (split sep s) as [|h t]; simpl.
      * constructor; [simpl; rewrite Hc; reflexivity|constructor].
      * inversion IH; subst. constructor; [|assumption].
        simpl. rewrite Hc. assumption.
Qed.

Lemma contains_char_app sep a b :
  contains_char sep (a +:+ b) = contains_char sep a || contains_char sep b.
Proof.
  induction a as [|c a IH]; simpl; [reflexivity|].
  rewrite IH. apply orb_assoc.
Qed.

Lemma join_with_snoc sep init post :
  init <> [] ->
  join_with sep (init ++ [post]) = join_with sep init +:+ String sep post.
Proof.
  induction init as [|h t IH]; intros Hne; [congruence|].
  destruct t as [|h' t'].
  - reflexivity.
  - change (join_with sep ((h :: h' :: t') ++ [post]))
      with (h +:+ String sep (join_with sep ((h' :: t') ++ [post]))).
    rewrite IH by discriminate.
    change (join_with sep (h :: h' :: t'))
      with (h +:+ String sep (join_with sep (h' :: t'))).
    rewrite append_assoc. reflexivity.
Qed.

(** The last piece of a split is the text after the last separator. *)
Lemma last_split sep s :
  exists post,
    last (split sep s) = Some post /\
    contains_char sep post = false /\
    (contains_char sep s = false -> post = s) /\
    (contains_char sep s = true -> exists pre, s = pre +:+ String sep post).
Proof.
  pose proof (split_nonempty sep s) as Hne.
  pose proof (join_with_split sep s) as Hjoin.
  pose proof (split_pieces sep s) as Hpieces.
  generalize dependent (split sep s). intros l.
  induction l as [|post init _] using rev_ind; intros Hne Hjoin Hpieces;
    [congruence|].
  exists post. rewrite last_snoc.
  rewrite Forall_app, Forall_singleton in Hpieces.
  destruct Hpieces as [_ Hpost].
  split; [reflexivity|]. split; [exact Hpost|].
  destruct init as [|h t].
  - simpl in Hjoin. subst post. split; [reflexivity|]. congruence.
  - rewrite join_with_snoc in Hjoin by discriminate.
    split.
    + intros Hno. rewrite <- Hjoin in Hno.
      rewrite contains_char_app in Hno. simpl in Hno.
      rewrite Ascii.eqb_refl in Hno. simpl in Hno.
      rewrite orb_true_r in Hno. discriminate.
    + intros _. eexists. symmetry. exact Hjoin.
Qed.

Lemma last_default_split sep s :
  last (split sep s) = Some (List.last (split sep s) EmptyString).
Proof.
  pose proof (split_nonempty sep s) as Hne.
  generalize dependent (split sep s). intros l.
  induction l as [|post init _] using rev_ind; intros Hne; [congruence|].
  rewrite last_snoc, List.last_last. reflexivity.
Qed.

Lemma split_no_sep sep s : contains_char sep s = false -> split sep s = [s].
Proof.
induction s as [|c s IH]; simpl; [reflexivity|].
destruct (Ascii.eqb c sep); simpl; [discriminate|].
intros H. rewrite (IH H). reflexivity.
Qed.

Lemma split_app_sep sep a b :
  split sep (a +:+ String sep b) = split sep a ++ split sep b.
Proof.
induction a as [|c a IH].
- simpl. rewrite Ascii.eqb_refl. reflexivity.
- change (String c a +:+ String sep b) with (String c (a +:+ String sep b)).
  cbn [split]. rewrite IH.
  destruct (Ascii.eqb c sep); [reflexivity|].
  pose proof (split_nonempty sep a) as Hne.
  destruct (split sep a) as [|h t]; [congruence|reflexivity].
Qed.

(** The text after the last separator is determined by the string. *)
Lemma last_split_after sep host path :
  contains_char sep path = false ->
  last (split sep (host +:+ String sep path)) = Some path.
Proof.
intros Hpath. rewrite split_app_sep, (split_no_sep sep path Hpath).
apply last_snoc.
Qed.

End PyFacts.

(** ** The clean-up job *)

Module CommonJobsFacts.
Import Py Os CommonJobs.

Lemma lookup_unlink_all (tree : Tree) (ps : list string) (fs0 : FS)
    (k : string) :
  unlink_all tree ps fs0 !! k
  = if decide (k ∈ map (locate tree) ps) then None else fs0 !! k.
Proof.
  unfold unlink_all. revert fs0.
  induction ps as [|q ps IH]; intros fs0; simpl.
  - destruct (decide (k ∈ [])) as [H|H]; [inversion H|reflexivity].
  - rewrite IH. destruct (decide (k = locate tree q)) as [->|Hne].
    + rewrite lookup_delete_eq.
      destruct (decide (locate tree q ∈ map (locate tree) ps)) as [H1|H1],
               (decide (locate tree q ∈ locate tree q :: map (locate tree) ps))
                 as [H2|H2];
        try reflexivity; exfalso; apply H2; left.
    + rewrite lookup_delete_ne by congruence.
      destruct (decide (k ∈ map (locate tree) ps)) as [H1|H1],
               (decide (k ∈ locate tree q :: map (locate tree) ps)) as [H2|H2];
        try reflexivity; exfalso.
      * apply H2. right. exact H1.
      * apply elem_of_cons in H2 as [H2|H2]; [congruence|exact (H1 H2)].
Qed.

(** *** Links *)

(** Unlinking an entry never makes a path lead somewhere. *)
Lemma follow_delete n (fs0 : FS) k x e :
  follow n (delete k fs0) x = Some e -> follow n fs0 x = Some e.
Proof.
  revert x. induction n as [|n IH]; intros x; simpl;
    (destruct (decide (x = k)) as [->|Hne];
     [rewrite lookup_delete_eq; discriminate
     |rewrite lookup_delete_ne by congruence]).
  - trivial.
  - destruct (fs0 !! x) as [[c| |t]|]; auto.
Qed.

Lemma follow_deleted n (fs0 : FS) k : follow n (delete k fs0) k = None.
Proof. destruct n; simpl; rewrite lookup_delete_eq; reflexivity. Qed.

Lemma follow_missing n (fs0 : FS) x : fs0 !! x = None -> follow n fs0 x = None.
Proof. intros H. destruct n; simpl; rewrite H; reflexivity. Qed.

Lemma follow_unlink_all tree n ps (fs0 : FS) x e :
  follow n (unlink_all tree ps fs0) x = Some e -> follow n fs0 x = Some e.
Proof.
  unfold unlink_all. revert fs0.
  induction ps as [|q ps IH]; intros fs0; simpl; [trivial|].
  intros H. apply IH in H. apply follow_delete in H. exact H.
Qed.




Lemma isfile_delete tree (fs0 : FS) k p :
  isfile tree (delete k fs0) p = true ->
  isfile tree fs0 p = true /\ locate tree p <> k.
Proof.
  unfold isfile, stat. intros H. split.
  - destruct (follow _ (delete k fs0) _) as [[c| |t]|] eqn:E;
      try discriminate.
    rewrite (follow_delete _ _ _ _ _ E). reflexivity.
  - intros Heq. rewrite Heq, follow_deleted in H. discriminate.
Qed.

Lemma isfile_missing tree (fs0 : FS) p :
  fs0 !! locate tree p = None -> isfile tree fs0 p = false.
Proof.
  intros H. unfold isfile, stat. rewrite (follow_missing _ _ _ H).
  reflexivity.
Qed.

Lemma isfile_unlink_all tree ps (fs0 : FS) p :
  isfile tree (unlink_all tree ps fs0) p = true -> isfile tree fs0 p = true.
Proof.
  unfold isfile, stat. intros H.
  destruct (follow _ (unlink_all tree ps fs0) _) as [[c| |t]|] eqn:E;
    try discriminate.
  rewrite (follow_unlink_all _ _ _ _ _ _ E). reflexivity.
Qed.


(** Without links, [isfile] reads the entry. *)
Lemma isfile_plain tree (fs0 : FS) p :
  islink tree fs0 p = false ->
  isfile tree fs0 p
  = match fs0 !! locate tree p with Some (File _) => true | _ => false end.
Proof.
  unfold islink, isfile, stat.
  destruct (symloop_max tree); simpl;
    destruct (fs0 !! locate tree p) as [[c| |t]|]; try discriminate;
    reflexivity.
Qed.

(** [os.remove] does not raise on what [os.path.isfile] accepts. *)
Lemma remove_file tree (fs0 : FS) p :
  isfile tree fs0 p = true ->
  Os.remove tree p fs0 = (Ok tt, delete (locate tree p) fs0).
Proof.
  unfold isfile, stat, Os.remove.
  destruct (symloop_max tree); simpl;
    destruct (fs0 !! locate tree p) as [[c| |t]|]; try discriminate;
    reflexivity.
Qed.

Lemma for_in_never_raises {S A} (f : S -> A -> S) (body : A -> M S unit) l :
  (forall x st, body x st = (Ok tt, f st x)) ->
  forall st, for_in l body st = (Ok tt, foldl f st l).
Proof.
  intros Hbody. induction l as [|x l IH]; intros st; simpl; [reflexivity|].
  unfold bind. rewrite Hbody. apply IH.
Qed.

Section Run.
Variable tree : Tree.
Variable abspath : string -> string.
Variable zpath : FS -> string -> string.

Lemma remove_one_check az job_dir file st :
  remove_one tree zpath az job_dir file st
  = (Ok tt, check tree zpath az st (join job_dir file)).
Proof.
  unfold remove_one, check, target, bind, read_fs, ret, append_removed,
    modify, on_fs.
  destruct az; simpl.
  - destruct (isfile tree (fs st) (zpath (fs st) (join job_dir file))) eqn:E;
      cbn; [|reflexivity].
    rewrite (remove_file _ _ _ E). reflexivity.
  - destruct (isfile tree (fs st) (join job_dir file)) eqn:E;
      cbn; [|reflexivity].
    rewrite (remove_file _ _ _ E). reflexivity.
Qed.

Lemma check_run az cands st :
  foldl (check tree zpath az) st cands
  = Frame (removed_files st ++ listed (hits_from tree zpath az (fs st) cands))
          (unlink_all tree (listed (hits_from tree zpath az (fs st) cands))
             (fs st)).
Proof.
  revert st. induction cands as [|c cands IH]; intros st; simpl.
  - rewrite app_nil_r. destruct st; reflexivity.
  - rewrite IH. unfold check.
    destruct (isfile tree (fs st) (target zpath az (fs st) c)); simpl.
    + rewrite <- app_assoc. reflexivity.
    + reflexivity.
Qed.

Lemma abs_paths_ok directories :
  comprehension
    (fun dir_name => match strip_host dir_name with
                     | Ok d => Ok (abspath d)
                     | Raise e => Raise e
                     end) directories
  = Ok (map (fun d => abspath (List.last (split ":" d) "")) directories).
Proof.
  induction directories as [|d ds IH]; simpl; [reflexivity|].
  rewrite IH. unfold strip_host, index_last.
  rewrite PyFacts.last_default_split. reflexivity.
Qed.

Lemma candidates_abs_paths directories file_names :
  flat_map (fun job_dir => map (join job_dir) file_names)
    (map (fun d => abspath (List.last (split ":" d) "")) directories)
  = candidates abspath directories file_names.
Proof.
  unfold candidates.
  induction directories as [|d ds IH]; simpl; [reflexivity|].
  rewrite IH. reflexivity.
Qed.

Lemma loops_run az abs_paths file_names st :
  for_in abs_paths (fun job_dir =>
    for_in file_names (fun file => remove_one tree zpath az job_dir file)) st
  = (Ok tt,
     foldl (check tree zpath az) st
       (flat_map (fun job_dir => map (join job_dir) file_names) abs_paths)).
Proof.
  revert st. induction abs_paths as [|d ds IH]; intros st; simpl;
    [reflexivity|].
  unfold bind.
  rewrite (for_in_never_raises
             (fun st f => check tree zpath az st (join d f))).
  - rewrite IH, foldl_app, foldl_fmap. reflexivity.
  - intros f st'. apply remove_one_check.
Qed.

Lemma hits_from_length az fs0 cands :
  length (hits_from tree zpath az fs0 cands) = length cands.
Proof.
  revert fs0. induction cands as [|c cands IH]; intros fs0; simpl;
    [reflexivity|].
  destruct (isfile tree fs0 (target zpath az fs0 c)); simpl; rewrite IH;
    reflexivity.
Qed.

(** Each outcome is that of the check made on the file system of its
    own time. *)
Lemma hits_from_lookup az cands :
  forall fs0 k c,
    cands !! k = Some c ->
    let hits := hits_from tree zpath az fs0 cands in
    let p := target zpath az (fs_at tree hits fs0 k) c in
    hits !! k
    = Some (if isfile tree (fs_at tree hits fs0 k) p then Some p else None).
Proof.
  induction cands as [|c0 cands IH]; intros fs0 k c Hk; [inversion Hk|].
  destruct k as [|k]; simpl in Hk.
  - injection Hk as ->. simpl.
    destruct (isfile tree fs0 (target zpath az fs0 c)) eqn:E; simpl;
      unfold fs_at; simpl; rewrite E; reflexivity.
  - simpl.
    destruct (isfile tree fs0 (target zpath az fs0 c0)) eqn:E; simpl.
    + apply (IH (delete (locate tree (target zpath az fs0 c0)) fs0) k c Hk).
    + apply (IH fs0 k c Hk).
Qed.

Lemma listed_were_files az cands :
  forall fs0 p,
    p ∈ listed (hits_from tree zpath az fs0 cands) ->
    isfile tree fs0 p = true.
Proof.
  induction cands as [|c cands IH]; intros fs0 p Hp; simpl in Hp.
  - inversion Hp.
  - destruct (isfile tree fs0 (target zpath az fs0 c)) eqn:E.
    + unfold listed in Hp. simpl in Hp.
      apply elem_of_cons in Hp as [->|Hp]; [exact E|].
      apply IH in Hp. apply isfile_delete in Hp. exact (proj1 Hp).
    + apply IH. exact Hp.
Qed.

Lemma listed_hit (hits : list (option string)) p :
  p ∈ listed hits <-> exists k, hits !! k = Some (Some p).
Proof.
  unfold listed. rewrite list_elem_of_omap. split.
  - intros (o & Ho & Heq). simpl in Heq. subst o.
    apply list_elem_of_lookup in Ho. exact Ho.
  - intros (k & Hk). exists (Some p). split; [|reflexivity].
    apply list_elem_of_lookup. eauto.
Qed.

(** A path is listed exactly when some check found it as a regular
    file. *)
Lemma listed_checks az cands fs0 p :
  let hits := hits_from tree zpath az fs0 cands in
  p ∈ listed hits <->
  exists k c,
    cands !! k = Some c /\
    p = target zpath az (fs_at tree hits fs0 k) c /\
    isfile tree (fs_at tree hits fs0 k) p = true.
Proof.
  intros hits. rewrite listed_hit. split.
  - intros (k & Hk).
    assert (Hlt : (k < length cands)%nat).
    { rewrite <- (hits_from_length az fs0).
      eapply lookup_lt_Some. exact Hk. }
    apply lookup_lt_is_Some in Hlt as (c & Hc).
    pose proof (hits_from_lookup az cands fs0 k c Hc) as H.
    cbv zeta in H. fold hits in H. rewrite Hk in H. exists k, c.
    split; [exact Hc|].
    destruct (isfile _ _ _) eqn:E in H; [|discriminate].
    injection H as ->. split; [reflexivity|exact E].
  - intros (k & c & Hc & Hp & Hfile). exists k.
    pose proof (hits_from_lookup az cands fs0 k c Hc) as H.
    cbv zeta in H. fold hits in H. rewrite <- Hp, Hfile in H. exact H.
Qed.

(** A listed path names no entry afterwards, and is no regular file. *)
Lemma listed_gone (ps : list string) fs0 p :
  p ∈ ps ->
  unlink_all tree ps fs0 !! locate tree p = None /\
  isfile tree (unlink_all tree ps fs0) p = false.
Proof.
  intros Hp.
  assert (Hnone : unlink_all tree ps fs0 !! locate tree p = None).
  { rewrite lookup_unlink_all.
    destruct (decide _) as [|Hn]; [reflexivity|].
    destruct Hn. apply list_elem_of_fmap. exists p. auto. }
  split; [exact Hnone|]. apply isfile_missing. exact Hnone.
Qed.

(** After the checks, no candidate whose own path was checked is a
    regular file. *)
Lemma checked_gone cands :
  forall fs0 c,
    c ∈ cands ->
    isfile tree
      (unlink_all tree (listed (hits_from tree zpath false fs0 cands)) fs0) c
    = false.
Proof.
  induction cands as [|c0 cands IH]; intros fs0 c Hc; [inversion Hc|].
  simpl. destruct (isfile tree fs0 c0) eqn:E.
  - change (listed (Some c0 :: ?h)) with (c0 :: listed h).
    change (unlink_all tree (c0 :: ?ps) fs0)
      with (unlink_all tree ps (delete (locate tree c0) fs0)).
    apply elem_of_cons in Hc as [->|Hc]; [|apply IH; exact Hc].
    destruct (isfile _ (unlink_all _ _ _) c0) eqn:E'; [|reflexivity].
    apply isfile_unlink_all, isfile_delete in E'. destruct E' as [_ E'].
    congruence.
  - change (listed (None :: ?h)) with (listed h).
    apply elem_of_cons in Hc as [->|Hc]; [|apply IH; exact Hc].
    destruct (isfile _ (unlink_all _ _ _) c0) eqn:E'; [|reflexivity].
    apply isfile_unlink_all in E'. congruence.
Qed.

Lemma candidates_elem directories file_names c :
  c ∈ candidates abspath directories file_names <->
  exists d d' f,
    d ∈ directories /\ strip_host d = Ok d' /\ f ∈ file_names /\
    c = join (abspath d') f.
Proof.
  unfold candidates. rewrite list_elem_of_In, in_flat_map. split.
  - intros (d & Hd & Hc). apply in_map_iff in Hc as (f & <- & Hf).
    exists d, (List.last (split ":" d) ""), f.
    rewrite !list_elem_of_In. repeat split; try assumption.
    unfold strip_host, index_last.
    rewrite PyFacts.last_default_split. reflexivity.
  - intros (d & d' & f & Hd & Hs & Hf & ->).
    exists d. rewrite <- list_elem_of_In. split; [assumption|].
    apply in_map_iff. exists f. rewrite <- list_elem_of_In.
    split; [|assumption].
    unfold strip_host, index_last in Hs.
    rewrite PyFacts.last_default_split in Hs. congruence.
Qed.

(** The candidates are visited directory by directory, and by file
    name within a directory. *)
Lemma candidates_lookup (directories file_names : list string) :
  forall i j d f,
    directories !! i = Some d ->
    file_names !! j = Some f ->
    candidates abspath directories file_names
      !! (i * length file_names + j)%nat
    = Some (join (abspath (List.last (split ":" d) "")) f).
Proof.
  unfold candidates.
  induction directories as [|d0 ds IH]; intros i j d f Hi Hj;
    [inversion Hi|].
  simpl. destruct i as [|i]; simpl in Hi.
  - injection Hi as ->. simpl.
    rewrite lookup_app_l
      by (rewrite length_map; eapply lookup_lt_Some; eassumption).
    rewrite list_lookup_fmap, Hj. reflexivity.
  - rewrite lookup_app_r by (rewrite length_map; simpl; lia).
    rewrite length_map.
    replace (S i * length file_names + j - length file_names)%nat
      with (i * length file_names + j)%nat by (simpl; lia).
    apply IH; assumption.
Qed.

(** The job never raises; it returns the listed paths and leaves the
    file system without their entries. *)
Lemma remove_workflow_files_run directories file_names az fs0 :
  let hits :=
    hits_from tree zpath az fs0
      (candidates abspath directories file_names) in
  remove_workflow_files tree abspath zpath directories file_names az fs0
  = (Ok (listed hits), unlink_all tree (listed hits) fs0).
Proof.
  intros hits. unfold remove_workflow_files.
  rewrite abs_paths_ok, loops_run, candidates_abs_paths, check_run.
  reflexivity.
Qed.

(** Every listed path is a candidate, or the [zpath] variant of one at
    some time. *)
Lemma listed_form directories file_names az fs0 p :
  p ∈ listed (hits_from tree zpath az fs0
                (candidates abspath directories file_names)) ->
  exists d d' f fs_k,
    d ∈ directories /\ strip_host d = Ok d' /\ f ∈ file_names /\
    p = target zpath az fs_k (join (abspath d') f).
Proof.
  intros Hin.
  apply (listed_checks az _ fs0 p) in Hin as (k & c & Hc & Hp & _).
  apply list_elem_of_lookup_2 in Hc.
  apply candidates_elem in Hc as (d & d' & f & Hd & Hs & Hf & ->).
  eauto 10.
Qed.
End Run.

End CommonJobsFacts.

Module CleanupProperties.
Import Py Os CommonJobs CommonJobsFacts.

(** C4. [remove_workflow_files] never raises and returns exactly the
    removed files.  With [hits] the outcome of each check, in the order
    of the candidates [join(abspath(d'), f)] (directory first, then file
    name, [d'] the text after the last colon of [d]): the returned list
    is the hits in that order; check [k] lists the path [p] (the
    candidate, or its [zpath] variant when [allow_zpath]) exactly when
    [p] is a regular file in the file system of that time; and every
    listed path was a regular file and is removed: the entry that it
    names is gone afterwards, and the path is no regular file any more. *)
Theorem C4_remove_workflow_files_returns_removed
    (tree : Tree) (abspath : string -> string)
    (zpath : FS -> string -> string)
    (directories file_names : list string) (allow_zpath : bool) (fs0 : FS) :
  let cands := candidates abspath directories file_names in
  exists hits : list (option string),
    remove_workflow_files tree abspath zpath directories file_names
      allow_zpath fs0
    = (Ok (listed hits), unlink_all tree (listed hits) fs0) /\
    length hits = length cands /\
    (forall k c,
        cands !! k = Some c ->
        let p := target zpath allow_zpath (fs_at tree hits fs0 k) c in
        hits !! k
        = Some (if isfile tree (fs_at tree hits fs0 k) p
                then Some p else None)) /\
    (forall p,
        p ∈ listed hits <->
        exists k c,
          cands !! k = Some c /\
          p = target zpath allow_zpath (fs_at tree hits fs0 k) c /\
          isfile tree (fs_at tree hits fs0 k) p = true) /\
    (forall c,
        c ∈ cands <->
        exists d d' f,
          d ∈ directories /\ strip_host d = Ok d' /\ f ∈ file_names /\
          c = join (abspath d') f) /\
    (forall i j d f,
        directories !! i = Some d ->
        file_names !! j = Some f ->
        cands !! (i * length file_names + j)%nat
        = Some (join (abspath (List.last (split ":" d) "")) f)) /\
    (forall p,
        p ∈ listed hits ->
        isfile tree fs0 p = true /\
        unlink_all tree (listed hits) fs0 !! locate tree p = None /\
        isfile tree (unlink_all tree (listed hits) fs0) p = false).
Proof.
  intros cands.
  exists (hits_from tree zpath allow_zpath fs0 cands).
  split; [apply remove_workflow_files_run|].
  split; [apply hits_from_length|].
  split; [intros k c Hk; apply hits_from_lookup; exact Hk|].
  split; [|split; [|split]].
  - intros p. apply (listed_checks tree zpath allow_zpath cands fs0 p).
  - intros c. apply candidates_elem.
  - intros i j d f. apply candidates_lookup.
  - intros p Hp. split.
    + eapply listed_were_files. exact Hp.
    + apply listed_gone. exact Hp.
Qed.

Lemma C4_remove_workflow_files_returns_removed_witness :
  exists hits,
    remove_workflow_files Fixtures.tree (abspath_in "/w")
      (monty_zpath Fixtures.tree) Fixtures.job_dirs Fixtures.names true
      Fixtures.disk
    = (Ok (listed hits), unlink_all Fixtures.tree (listed hits) Fixtures.disk)
    /\ "/w/a/WAVECAR" ∈ listed hits.
Proof.
  destruct (C4_remove_workflow_files_returns_removed
              Fixtures.tree (abspath_in "/w") (monty_zpath Fixtures.tree)
              Fixtures.job_dirs Fixtures.names true Fixtures.disk)
    as (hits & Hrun & _ & _ & Hlisted & _).
  exists hits. split; [exact Hrun|].
  apply Hlisted. exists 0%nat, "/w/a/WAVECAR".
  split; [reflexivity|]. split; vm_compute; reflexivity.
Defined.




(** With [zpath], the second visit of [/w/a] finds the compressed
    [WAVECAR], the plain one being gone by then; the directory named
    [CHGCAR] is never listed. *)
Example cleanup_of_fixture_disk :
  fst (remove_workflow_files Fixtures.tree (abspath_in "/w")
         (monty_zpath Fixtures.tree) Fixtures.job_dirs Fixtures.names true
         Fixtures.disk)
  = Ok ["/w/a/WAVECAR"; "/w/b/WAVECAR.gz"; "/w/a/WAVECAR.gz"] /\
  fst (remove_workflow_files Fixtures.tree (abspath_in "/w")
         (monty_zpath Fixtures.tree) Fixtures.job_dirs Fixtures.names false
         Fixtures.disk)
  = Ok ["/w/a/WAVECAR"].
Proof. split; vm_compute; reflexivity. Qed.

(** Two spellings of one file: only the first is returned.  A directory
    given under its own name and through a link to it: its file is
    returned once, under the path checked first.  A link to a regular
    file: the link is unlinked, and the file that it led to is kept. *)
Example cleanup_of_aliases :
  fst (remove_workflow_files Fixtures.tree (abspath_in "/w")
         (monty_zpath Fixtures.tree) ["/w/a"] ["WAVECAR"; "./WAVECAR"] false
         Fixtures.disk)
  = Ok ["/w/a/WAVECAR"] /\
  (let '(removed, fs') :=
     remove_workflow_files Fixtures.linked_tree (abspath_in "/w")
       (monty_zpath Fixtures.linked_tree) ["/w/latest"; "/w/a"] ["WAVECAR"]
       false (<["/w/latest" := Link "/w/a"]> Fixtures.disk) in
   removed = Ok ["/w/latest/WAVECAR"] /\
   fs' !! "/w/a/WAVECAR" = None) /\
  (let '(removed, fs') :=
     remove_workflow_files Fixtures.tree (abspath_in "/w")
       (monty_zpath Fixtures.tree) ["/w/a"] ["WAVECAR"] false
       Fixtures.linked_disk in
   removed = Ok ["/w/a/WAVECAR"] /\
   fs' !! "/w/a/WAVECAR" = None /\
   stat Fixtures.tree fs' "/w/store/WAVECAR" = Some (File "wave a")).
Proof. split; vm_compute; repeat split; reflexivity. Qed.

End CleanupProperties.

(** ** Directory arguments of the form [host:/path] *)

Module HostPrefix.
Import Py Os CommonJobs CommonJobsFacts.

Lemma strip_host_stripped d' :
  contains_char ":" d' = false -> List.last (split ":" d') "" = d'.
Proof. intros H. rewrite (PyFacts.split_no_sep _ _ H). reflexivity. Qed.

Lemma strip_host_default d d' :
  strip_host d = Ok d' -> List.last (split ":" d) "" = d'.
Proof.
unfold strip_host, index_last. rewrite PyFacts.last_default_split.
congruence.
Qed.

Lemma candidates_around abspath before d after file_names :
  candidates abspath (before ++ d :: after) file_names
  = candidates abspath before file_names
    ++ map (fun f => join (abspath (List.last (split ":" d) "")) f)
         file_names
    ++ candidates abspath after file_names.
Proof. unfold candidates. rewrite flat_map_app. reflexivity. Qed.

(** C9. Both jobs keep of a directory argument only the text [d'] after
    its last colon, and reach the file system through [abspath(d')]: a
    string without a colon is kept whole, and a prefix [host:] (or any
    other text up to the last colon) is dropped.  [bader_analysis] hands
    [abspath(d')] to pymatgen and nothing else of the argument.
    [remove_workflow_files] makes its checks for the argument on the paths
    [join(abspath(d'), f)], in the order of the file names, between the
    checks for the directories given before and after it; so it treats
    the argument exactly as it treats [d'].  For a single directory: when
    the path of the first file name, [join(abspath(d'), f)] or its
    [zpath] variant, is a regular file, it is unlinked and returned first;
    and without [zpath] every path returned is [join(abspath(d'), f)] for
    a file name [f] and was a regular file, and none of these paths is a
    regular file afterwards. *)
Theorem C9_host_prefix_discarded
    (abspath : string -> string) (dir_name : string) :
  exists d',
    strip_host dir_name = Ok d' /\
    contains_char ":" d' = false /\
    (contains_char ":" dir_name = false -> d' = dir_name) /\
    (forall host path,
        dir_name = host +:+ ":" +:+ path ->
        contains_char ":" path = false -> d' = path) /\
    (forall D (bader_analysis_from_path : string -> string -> M FS D)
            suffix fs0,
        bader_analysis abspath bader_analysis_from_path dir_name suffix fs0
        = bader_analysis_from_path (abspath d') (default "" suffix) fs0) /\
    (forall tree zpath before after file_names allow_zpath fs0,
        let hits :=
          hits_from tree zpath allow_zpath fs0
            (candidates abspath before file_names
             ++ map (fun f => join (abspath d') f) file_names
             ++ candidates abspath after file_names) in
        remove_workflow_files tree abspath zpath
          (before ++ dir_name :: after) file_names allow_zpath fs0
        = (Ok (listed hits), unlink_all tree (listed hits) fs0)) /\
    (forall tree zpath before after file_names allow_zpath fs0,
        remove_workflow_files tree abspath zpath (before ++ dir_name :: after)
          file_names allow_zpath fs0
        = remove_workflow_files tree abspath zpath (before ++ d' :: after)
            file_names allow_zpath fs0) /\
    (forall tree zpath file_names fs0,
        exists removed fs',
          remove_workflow_files tree abspath zpath [dir_name] file_names
            false fs0 = (Ok removed, fs') /\
          (forall p,
              p ∈ removed ->
              isfile tree fs0 p = true /\
              exists f, f ∈ file_names /\ p = join (abspath d') f) /\
          (forall f,
              f ∈ file_names ->
              isfile tree fs' (join (abspath d') f) = false)) /\
    (forall tree zpath f file_names allow_zpath fs0,
        let p := target zpath allow_zpath fs0 (join (abspath d') f) in
        isfile tree fs0 p = true ->
        exists others fs',
          remove_workflow_files tree abspath zpath [dir_name]
            (f :: file_names) allow_zpath fs0 = (Ok (p :: others), fs') /\
          isfile tree fs' p = false) /\
    (forall file_names c,
        c ∈ candidates abspath [dir_name] file_names <->
        exists f, f ∈ file_names /\ c = join (abspath d') f).
Proof.
destruct (PyFacts.last_split ":" dir_name) as (d' & Hlast & Hno & Hplain & _).
assert (Hstrip : strip_host dir_name = Ok d').
{ unfold strip_host, index_last. rewrite Hlast. reflexivity. }
assert (Hrun : forall tree zpath before after file_names allow_zpath fs0,
          let hits :=
            hits_from tree zpath allow_zpath fs0
              (candidates abspath before file_names
               ++ map (fun f => join (abspath d') f) file_names
               ++ candidates abspath after file_names) in
          remove_workflow_files tree abspath zpath
            (before ++ dir_name :: after) file_names allow_zpath fs0
          = (Ok (listed hits), unlink_all tree (listed hits) fs0)).
{ intros tree zpath before after file_names az fs0.
  rewrite remove_workflow_files_run, candidates_around.
  rewrite (strip_host_default _ _ Hstrip). reflexivity. }
assert (Hcands : forall file_names c,
          c ∈ candidates abspath [dir_name] file_names <->
          exists f, f ∈ file_names /\ c = join (abspath d') f).
{ intros file_names c. rewrite candidates_elem. split.
  - intros (d & d2 & f & Hd & Hs & Hf & ->).
    apply list_elem_of_singleton in Hd. subst d.
    exists f. split; [exact Hf|]. congruence.
  - intros (f & Hf & ->). exists dir_name, d', f.
    repeat split; try assumption. apply list_elem_of_singleton. reflexivity. }
exists d'. split; [exact Hstrip|]. split; [exact Hno|].
split; [exact Hplain|].
split; [|split; [|split; [|split; [|split; [|split]]]]].
- intros host path -> Hpath.
  change (host +:+ ":" +:+ path) with (host +:+ String ":" path) in Hlast.
  rewrite (PyFacts.last_split_after ":" host path Hpath) in Hlast.
  congruence.
- intros D f suffix fs0. unfold bader_analysis. rewrite Hstrip.
  destruct suffix as [sfx|]; simpl; [|reflexivity].
  destruct (String.eqb sfx "") eqn:E; [|reflexivity].
  apply String.eqb_eq in E. subst sfx. reflexivity.
- exact Hrun.
- intros tree zpath before after file_names az fs0.
  rewrite Hrun, remove_workflow_files_run, candidates_around.
  rewrite (strip_host_stripped _ Hno). reflexivity.
- intros tree zpath file_names fs0.
  eexists _, _. split; [apply remove_workflow_files_run|]. split.
  + intros p Hp. split; [eapply listed_were_files; exact Hp|].
    apply listed_form in Hp as (d & d2 & f & fs_k & Hd & Hs & Hf & ->).
    apply list_elem_of_singleton in Hd. subst d.
    exists f. split; [exact Hf|]. unfold target. congruence.
  + intros f Hf. apply checked_gone. apply Hcands. eauto.
- intros tree zpath f file_names az fs0 p Hfile.
  pose proof (Hrun tree zpath [] [] (f :: file_names) az fs0) as H.
  cbn [app candidates flat_map map hits_from] in H.
  fold p in H. rewrite Hfile in H.
  eexists _, _. split; [exact H|].
  apply listed_gone. left.
- exact Hcands.
Qed.

Lemma C9_host_prefix_discarded_witness :
  strip_host "host:/w/a" = Ok "/w/a" /\
  strip_host "/w/a" = Ok "/w/a" /\
  remove_workflow_files Fixtures.tree (abspath_in "/w")
    (monty_zpath Fixtures.tree) ["host:b"] ["WAVECAR.gz"] false Fixtures.disk
  = (Ok ["/w/b/WAVECAR.gz"], delete "/w/b/WAVECAR.gz" Fixtures.disk) /\
  bader_analysis (abspath_in "/w")
    (fun dir_name suffix fs0 => (Ok (dir_name, suffix), fs0))
    "host:b" None Fixtures.disk
  = (Ok ("/w/b", ""), Fixtures.disk).
Proof.
destruct (C9_host_prefix_discarded (abspath_in "/w") "host:/w/a")
  as (d1 & Hs1 & _ & _ & Hhost & _).
destruct (C9_host_prefix_discarded (abspath_in "/w") "/w/a")
  as (d2 & Hs2 & _ & Hplain & _).
destruct (C9_host_prefix_discarded (abspath_in "/w") "host:b")
  as (d3 & _ & _ & _ & Hhost3 & Hbader & Hrun & _).
rewrite Hs1, Hs2.
assert (d3 = "b") as -> by (apply (Hhost3 "host" "b"); reflexivity).
split; [|split; [|split]].
- f_equal. apply (Hhost "host" "/w/a"); reflexivity.
- f_equal. apply Hplain. reflexivity.
- pose proof (Hrun Fixtures.tree (monty_zpath Fixtures.tree) [] []
                ["WAVECAR.gz"] false Fixtures.disk) as H.
  cbn [app] in H. rewrite H. vm_compute. reflexivity.
- rewrite Hbader. reflexivity.
Defined.

End HostPrefix.

(** ** The Materials Project flow makers *)

Module FlowProperties.
Import Jobflow MP.

Section NodeInduction.
Context {Structure : Type}.
Variable P : Node Structure -> Prop.
Hypothesis P_job : forall j, P (NJob j).
Hypothesis P_flow :
  forall name jobs output, Forall P jobs -> P (NFlow name jobs output).

Fixpoint node_induction (n : Node Structure) : P n :=
  match n with
  | NJob j => P_job j
  | NFlow name jobs output =>
      P_flow name jobs output
        ((fix all (l : list (Node Structure)) : Forall P l :=
            match l with
            | [] => List.Forall_nil P
            | x :: l' =>
                @List.Forall_cons _ P x l' (node_induction x) (all l')
            end) jobs)
  end.
End NodeInduction.

(** The directory names gathered from a node are the [output.dir_name] of
    its jobs, one per job and in the order of the jobs. *)
Lemma node_dir_names_uuids {Structure} (n : Node Structure) :
  node_dir_names n = map (fun u => Ref u ["dir_name"]) (node_uuids n).
Proof.
induction n as [j|name jobs output IH] using node_induction;
  [reflexivity|].
simpl. induction IH as [|x l Hx _ IHl]; simpl; [reflexivity|].
rewrite map_app, Hx, IHl. reflexivity.
Qed.

Lemma recursive_get_dir_names_uuids {Structure} (jobs : list (Node Structure)) :
  _recursive_get_dir_names jobs []
  = map (fun u => Ref u ["dir_name"]) (flat_map node_uuids jobs).
Proof.
unfold _recursive_get_dir_names. simpl.
induction jobs as [|x l IH]; simpl; [reflexivity|].
rewrite map_app, node_dir_names_uuids, IH. reflexivity.
Qed.

(** C1. [MPGGADoubleRelaxStaticMaker.make] and
    [MPMetaGGADoubleRelaxStaticMaker.make] first call [relax_maker.make]
    on the given structure and [prev_dir]; when [static_maker] is not
    [None] they then call [static_maker.make] on the [structure] and
    [dir_name] of the relax flow's output; the flow returned holds exactly
    the nodes made, in that order, and its output is the static job's
    output, or the relax flow's output when there is no static maker. *)
Theorem C1_relax_then_static_make {Structure W : Type} :
  (forall (self : MPGGADoubleRelaxStaticMaker Structure W)
          structure prev_dir w,
      relax_then_static (gga_name self) (gga_relax_maker self)
        (gga_static_maker self) structure prev_dir w
        (MPGGADoubleRelaxStaticMaker_make self structure prev_dir w)) /\
  (forall (self : MPMetaGGADoubleRelaxStaticMaker Structure W)
          structure prev_dir w,
      relax_then_static (meta_name self) (meta_relax_maker self)
        (meta_static_maker self) structure prev_dir w
        (MPMetaGGADoubleRelaxStaticMaker_make self structure prev_dir w)).
Proof.
split; intros self structure prev_dir w.
- unfold relax_then_static, MPGGADoubleRelaxStaticMaker_make, invoke.
  destruct (make_fn (gga_relax_maker self) structure prev_dir (ext w))
    as [relax_flow e1] eqn:Hrelax.
  destruct (gga_static_maker self) as [static_maker|]; simpl.
  + destruct (make_fn static_maker _ _ e1) as [static_job e2].
    simpl. rewrite <- app_assoc. repeat split; reflexivity.
  + repeat split; reflexivity.
- unfold relax_then_static, MPMetaGGADoubleRelaxStaticMaker_make, invoke.
  destruct (make_fn (meta_relax_maker self) structure prev_dir (ext w))
    as [relax_flow e1] eqn:Hrelax.
  destruct (meta_static_maker self) as [static_maker|]; simpl.
  + destruct (make_fn static_maker _ _ e1) as [static_job e2].
    simpl. rewrite <- app_assoc. repeat split; reflexivity.
  + repeat split; reflexivity.
Qed.

(** C7. [MP24DoubleRelaxStaticMaker.make] returns a flow whose output is
    the static job's output and whose first two nodes are the relax flow
    and the static job.  For a non-empty [clean_files] a third and last
    node follows: a [remove_workflow_files] job whose [directories] are
    the [output.dir_name] of every job of the two nodes, gathered through
    nested flows, whose [file_names] are [clean_files] and whose
    [allow_zpath] is true.  For [clean_files] [None] or empty the flow
    holds the two nodes only. *)
Theorem C7_mp24_make_cleanup {Structure W : Type}
    (new_uuid : W -> string * W)
    (self : MP24DoubleRelaxStaticMaker Structure W)
    (structure prev_dir : Arg Structure) (w : world Structure W _) :
  let '(flow, _, w') :=
    MP24DoubleRelaxStaticMaker_make new_uuid self structure prev_dir w in
  let '(relax_flow, e1) :=
    make_fn (mp24_relax_maker self) structure prev_dir (ext w) in
  let '(static_job, e2) :=
    make_fn (mp24_static_maker self)
      (ARef (getattr (node_output relax_flow) "structure"))
      (ARef (getattr (node_output relax_flow) "dir_name")) e1 in
  flow_output flow = node_output static_job /\
  flow_name flow = mp24_name self /\
  take 2 (flow_jobs flow) = [relax_flow; static_job] /\
  match option_map seq_items (mp24_clean_files self) with
  | Some (_ :: _) =>
      exists cleanup clean_files,
        mp24_clean_files self = Some clean_files /\
        flow_jobs flow = [relax_flow; static_job; NJob cleanup] /\
        last (flow_jobs flow) = Some (NJob cleanup) /\
        job_function cleanup = "remove_workflow_files" /\
        job_kwargs cleanup
        = [("directories",
            ARefs (map (fun u => Ref u ["dir_name"])
                       (node_uuids relax_flow ++ node_uuids static_job)));
           ("file_names", AStrs clean_files);
           ("allow_zpath", ABool true)] /\
        (job_uuid cleanup, ext w') = new_uuid e2
  | Some [] | None =>
      flow_jobs flow = [relax_flow; static_job] /\ ext w' = e2
  end.
Proof.
unfold MP24DoubleRelaxStaticMaker_make, invoke, job_call.
destruct (make_fn (mp24_relax_maker self) structure prev_dir (ext w))
  as [relax_flow e1].
cbn [ext calls].
destruct (make_fn (mp24_static_maker self) _ _ e1) as [static_job e2].
cbn [ext calls].
rewrite recursive_get_dir_names_uuids.
unfold clean_files_or_empty, len.
destruct (mp24_clean_files self) as [clean_files|]; simpl.
- destruct (seq_items clean_files) as [|f fs] eqn:Hitems; simpl.
  + repeat split; reflexivity.
  + rewrite Hitems. simpl.
    destruct (new_uuid e2) as [u e3]. simpl.
    repeat split; try reflexivity.
    eexists _, clean_files. rewrite app_nil_r.
    repeat split; reflexivity.
- repeat split; reflexivity.
Qed.

(** C8. [MP24DoubleRelaxStaticMaker.make] assigns to its own maker: when
    [clean_files] is [None] or an empty sequence the field is the empty
    list afterwards, so that a maker holding [None] or the empty tuple is
    changed for good; when [clean_files] is a non-empty sequence the maker
    is the same after the call.  The other fields never change. *)
Theorem C8_mp24_make_assigns_clean_files {Structure W : Type}
    (new_uuid : W -> string * W)
    (self : MP24DoubleRelaxStaticMaker Structure W)
    (structure prev_dir : Arg Structure) (w : world Structure W _) :
  let self' :=
    snd (fst (MP24DoubleRelaxStaticMaker_make new_uuid self structure
                prev_dir w)) in
  mp24_name self' = mp24_name self /\
  mp24_relax_maker self' = mp24_relax_maker self /\
  mp24_static_maker self' = mp24_static_maker self /\
  match option_map seq_items (mp24_clean_files self) with
  | Some (_ :: _) => self' = self
  | Some [] | None =>
      mp24_clean_files self' = Some (StrList []) /\
      (mp24_clean_files self <> Some (StrList []) -> self' <> self)
  end.
Proof.
unfold MP24DoubleRelaxStaticMaker_make, invoke, job_call.
destruct (make_fn (mp24_relax_maker self) structure prev_dir (ext w))
  as [relax_flow e1].
cbn [ext calls].
destruct (make_fn (mp24_static_maker self) _ _ e1) as [static_job e2].
cbn [ext calls].
unfold clean_files_or_empty, len.
destruct self as [name relax static clean_files]. simpl.
destruct clean_files as [clean_files|]; simpl.
- destruct (seq_items clean_files) as [|f fs] eqn:Hitems; simpl.
  + repeat split; try reflexivity. intros Hne Heq. congruence.
  + rewrite Hitems. simpl. destruct (new_uuid e2) as [u e3]. simpl.
    repeat split; reflexivity.
- repeat split; try reflexivity. intros _ Heq. discriminate.
Qed.

Lemma C8_mp24_make_assigns_clean_files_witness :
  let self' :=
    snd (fst (MP24DoubleRelaxStaticMaker_make Fixtures.new_uuid
                Fixtures.mp24_keep_files (AStructure "Si") ANone
                Fixtures.fresh_world)) in
  mp24_clean_files self' = Some (StrList []) /\
  self' <> Fixtures.mp24_keep_files.
Proof.
destruct (C8_mp24_make_assigns_clean_files Fixtures.new_uuid
            Fixtures.mp24_keep_files (AStructure "Si") ANone
            Fixtures.fresh_world) as (_ & _ & _ & Hassigned & Hchanged).
split; [exact Hassigned|]. apply Hchanged. discriminate.
Defined.

(** The default GGA maker on silicon: the two relaxations, then the
    static job on the output of the second relaxation. *)
Example gga_default_on_silicon :
  let '(flow, w) :=
    MPGGADoubleRelaxStaticMaker_make Fixtures.gga_default
      (AStructure "Si") ANone Fixtures.fresh_world in
  map node_uuids (flow_jobs flow) = [[""; "i"]; ["ii"]] /\
  flow_output flow = Ref "ii" [] /\
  map call_structure (calls w)
  = [AStructure "Si"; ARef (Ref "i" ["structure"])].
Proof. vm_compute. repeat split; reflexivity. Qed.

Example gga_relax_only_on_silicon :
  let '(flow, w) :=
    MPGGADoubleRelaxStaticMaker_make Fixtures.gga_relax_only
      (AStructure "Si") ANone Fixtures.fresh_world in
  map node_uuids (flow_jobs flow) = [[""; "i"]] /\
  flow_output flow = Ref "i" [] /\
  map call_structure (calls w) = [AStructure "Si"].
Proof. vm_compute. repeat split; reflexivity. Qed.

(** The default MP24 maker on silicon: the clean-up job comes last and is
    given the directories of the three calculations. *)
Example mp24_default_on_silicon :
  let '(flow, self', _) :=
    MP24DoubleRelaxStaticMaker_make Fixtures.new_uuid Fixtures.mp24_default
      (AStructure "Si") ANone Fixtures.fresh_world in
  map node_uuids (flow_jobs flow) = [[""; "i"]; ["ii"]; ["iii"]] /\
  (exists cleanup,
      last (flow_jobs flow) = Some (NJob cleanup) /\
      job_kwargs cleanup
      = [("directories",
          ARefs [Ref "" ["dir_name"]; Ref "i" ["dir_name"];
                 Ref "ii" ["dir_name"]]);
         ("file_names", AStrs (StrTuple ["WAVECAR"]));
         ("allow_zpath", ABool true)]) /\
  self' = Fixtures.mp24_default.
Proof.
vm_compute. split; [reflexivity|]. split; [|reflexivity].
eexists. split; reflexivity.
Qed.

End FlowProperties.

(** ** The energy curve of a distortion *)

Module DefectProperties.
Import Jobflow Defect.

Section Spawn.
Context {Structure W Distortion : Type}.
Variable sorted : list Distortion -> list Distortion.
Variable interpolate :
  Structure -> Structure -> list Distortion -> list Structure.
Variable static_maker : Maker Structure W (Job Structure).
Variables relaxed_structure distorted_structure : Structure.
Variable prev_vasp_dir : Arg Structure.
Variable add_name : string.
Variable add_info : option (gmap string (Arg Structure)).

#[local] Abbreviation call_on image :=
  (MkCall static_maker (AStructure image) prev_vasp_dir).
#[local] Abbreviation keep i raw :=
  (labelled relaxed_structure distorted_structure add_name add_info i raw).
#[local] Abbreviation loop :=
  (spawn_loop relaxed_structure distorted_structure static_maker
     prev_vasp_dir add_name add_info).

Lemma spawn_loop_run (images : list Structure) :
  forall i jobs outputs w,
    exists made w',
      loop i images jobs outputs w
      = (jobs ++ made, outputs ++ map ccd_input_of made, w') /\
      length made = length images /\
      calls w' = calls w ++ map (fun image => call_on image) images /\
      (forall k image,
          images !! k = Some image ->
          exists e,
            made !! k
            = Some (keep (i + k)%nat
                      (fst (make_fn static_maker (AStructure image)
                              prev_vasp_dir e)))) /\
      (forall used u,
          gives_fresh_uuids used static_maker ->
          used (ext w) u ->
          used (ext w') u /\ forall job, job ∈ made -> job_uuid job <> u).
Proof.
induction images as [|image images IH]; intros i jobs outputs w.
- exists [], w. simpl. rewrite !app_nil_r.
  repeat split; try reflexivity.
  + intros k image Hk. inversion Hk.
  + assumption.
  + intros job Hjob. inversion Hjob.
- cbn [spawn_loop]. unfold invoke.
  destruct (make_fn static_maker (AStructure image) prev_vasp_dir (ext w))
    as [raw e] eqn:Hmade.
  fold (keep i raw).
  destruct (IH (S i) (jobs ++ [keep i raw])
               (outputs ++ [ccd_input_of (keep i raw)])
               (MkWorld e (calls w ++ [call_on image])))
    as (made & w' & Hrun & Hlen & Hcalls & Hjobs & Hfresh).
  exists (keep i raw :: made), w'.
  split; [|split; [|split; [|split]]].
  + rewrite Hrun. rewrite <- !app_assoc. reflexivity.
  + simpl. rewrite Hlen. reflexivity.
  + rewrite Hcalls. simpl. rewrite <- app_assoc. reflexivity.
  + intros k image' Hk. destruct k as [|k]; simpl in Hk.
    * injection Hk as <-. exists (ext w). rewrite Hmade. simpl.
      rewrite Nat.add_0_r. reflexivity.
    * destruct (Hjobs k image' Hk) as (e' & He'). exists e'. simpl.
      replace (i + S k)%nat with (S i + k)%nat by lia. exact He'.
  + intros used u Hgives Hu.
    destruct (Hgives (AStructure image) prev_vasp_dir (ext w))
      as [Hnew Hlater].
    rewrite Hmade in Hnew, Hlater. simpl in Hnew, Hlater.
    destruct (Hfresh used u Hgives) as [Hu' Hne].
    { simpl. apply Hlater. left. exact Hu. }
    split; [exact Hu'|].
    intros job Hjob. apply elem_of_cons in Hjob as [->|Hjob].
    * intros Heq. unfold labelled in Heq. simpl in Heq.
      subst u. exact (Hnew Hu).
    * apply Hne. exact Hjob.
Qed.

End Spawn.

(** C10. [spawn_energy_curve_calcs] returns a response whose replacement
    flow holds exactly one static job per image of the interpolation from
    the relaxed to the distorted structure over the sorted distortions,
    each made by [static_maker.make] on its image, and whose output lists,
    in the same order, one record per job: the references to the
    [output.structure], the [output.energy] and the [dir_name] of the job's
    output, and the uuid of the job.  The static job made first, for the
    relaxed structure, is dropped: under a maker that gives fresh uuids, no
    job of the flow and no record of the output carries its uuid. *)
Theorem C10_spawn_energy_curve_calcs {Structure W Distortion : Type}
    (sorted : list Distortion -> list Distortion)
    (interpolate : Structure -> Structure -> list Distortion -> list Structure)
    (used : W -> string -> Prop)
    (static_maker : Maker Structure W (Job Structure))
    (Hfresh : gives_fresh_uuids used static_maker)
    (relaxed_structure distorted_structure : Structure)
    (distortions : list Distortion) (prev_vasp_dir : Arg Structure)
    (add_name : string) (add_info : option (gmap string (Arg Structure)))
    (w : world Structure W (Job Structure)) :
  let images :=
    interpolate relaxed_structure distorted_structure (sorted distortions) in
  let reference :=
    fst (make_fn static_maker (AStructure relaxed_structure) ANone (ext w)) in
  exists static_jobs response w',
    spawn_energy_curve_calcs sorted interpolate relaxed_structure
      distorted_structure distortions static_maker prev_vasp_dir add_name
      add_info w = (response, w') /\
    flow_jobs (response_replace response) = map NJob static_jobs /\
    length static_jobs = length images /\
    (forall k image,
        images !! k = Some image ->
        exists e,
          static_jobs !! k
          = Some (labelled relaxed_structure distorted_structure add_name
                    add_info k
                    (fst (make_fn static_maker (AStructure image)
                            prev_vasp_dir e)))) /\
    response_output response
    = map (fun job =>
             MkCCDInput (Ref (job_uuid job) ["output"; "structure"])
                        (Ref (job_uuid job) ["output"; "energy"])
                        (Ref (job_uuid job) ["dir_name"])
                        (job_uuid job)) static_jobs /\
    flow_output (response_replace response) = response_output response /\
    calls w'
    = calls w ++
      (MkCall static_maker (AStructure relaxed_structure) ANone
       :: map (fun image =>
                 MkCall static_maker (AStructure image) prev_vasp_dir)
              images) /\
    (forall job, job ∈ static_jobs -> job_uuid job <> job_uuid reference) /\
    (NJob reference ∉ flow_jobs (response_replace response)) /\
    (forall record,
        record ∈ response_output response ->
        ref_uuid (ccd_structure record) <> job_uuid reference /\
        ref_uuid (ccd_energy record) <> job_uuid reference /\
        ref_uuid (ccd_dir_name record) <> job_uuid reference /\
        ccd_uuid record <> job_uuid reference).
Proof.
intros images reference. subst reference.
unfold spawn_energy_curve_calcs, invoke.
destruct (make_fn static_maker (AStructure relaxed_structure) ANone (ext w))
  as [reference e0] eqn:Hreference.
cbn [fst]. fold images.
destruct (spawn_loop_run static_maker relaxed_structure distorted_structure
            prev_vasp_dir add_name add_info images 0%nat [] []
            (MkWorld e0 (calls w ++
               [MkCall static_maker (AStructure relaxed_structure) ANone])))
  as (made & w' & Hrun & Hlen & Hcalls & Hjobs & Huuids).
rewrite Hrun. simpl.
assert (Hdistinct : forall job, job ∈ made -> job_uuid job <> job_uuid reference).
{ apply (Huuids used (job_uuid reference) Hfresh). simpl.
  destruct (Hfresh (AStructure relaxed_structure) ANone (ext w))
    as [_ Hlater].
  rewrite Hreference in Hlater. simpl in Hlater.
  apply Hlater. right. reflexivity. }
exists made. eexists. exists w'. split; [reflexivity|]. simpl.
split; [reflexivity|]. split; [exact Hlen|]. split; [exact Hjobs|].
split; [reflexivity|]. split; [reflexivity|].
split; [rewrite Hcalls; simpl; rewrite <- app_assoc; reflexivity|].
split; [exact Hdistinct|]. split.
- intros Hin. apply list_elem_of_fmap in Hin as (job & Heq & Hjob).
  injection Heq as <-. exact (Hdistinct _ Hjob eq_refl).
- intros record Hin. apply list_elem_of_fmap in Hin as (job & -> & Hjob).
  simpl. pose proof (Hdistinct _ Hjob). repeat split; assumption.
Qed.

Lemma strokes_length n : String.length (Fixtures.strokes n) = n.
Proof. induction n as [|n IH]; simpl; [reflexivity|]. now rewrite IH. Qed.

Lemma strokes_inj n k : Fixtures.strokes n = Fixtures.strokes k -> n = k.
Proof.
intros H. rewrite <- (strokes_length n), <- (strokes_length k), H.
reflexivity.
Qed.

Lemma static_maker_fresh :
  gives_fresh_uuids Fixtures.given_out Fixtures.static_maker.
Proof.
intros structure prev_dir n. simpl. split.
- intros (k & Hk & Heq). apply strokes_inj in Heq. lia.
- intros u [(k & Hk & ->)| ->].
  + exists k. split; [lia|reflexivity].
  + exists n. split; [lia|reflexivity].
Qed.

Lemma C10_spawn_energy_curve_calcs_witness :
  exists response w',
    spawn_energy_curve_calcs Fixtures.sorted_steps Fixtures.interpolate_steps
      "relaxed" "distorted" [2; 0; 1]%nat Fixtures.static_maker
      (AStr "/w/prev") "" None Fixtures.fresh_world = (response, w') /\
    length (flow_jobs (response_replace response)) = 3%nat /\
    NJob (Fixtures.vasp_job "static" (AStructure "relaxed") ANone 0)
      ∉ flow_jobs (response_replace response).
Proof.
destruct (C10_spawn_energy_curve_calcs
            Fixtures.sorted_steps Fixtures.interpolate_steps
            Fixtures.given_out Fixtures.static_maker static_maker_fresh
            "relaxed" "distorted" [2; 0; 1]%nat (AStr "/w/prev") "" None
            Fixtures.fresh_world)
  as (static_jobs & response & w' & Hrun & Hflow & Hlen & _ & _ & _ & _
      & _ & Hdropped & _).
exists response, w'. split; [exact Hrun|]. split.
- rewrite Hflow, length_map, Hlen. reflexivity.
- exact Hdropped.
Defined.

End DefectProperties.

(** ** The QChem drone *)

Module DroneProperties.
Import Py QChemDrones.

(** The three outcomes of [get_valid_paths]. *)
Lemma get_valid_paths_outcomes parent subdirs files :
  get_valid_paths (parent, subdirs, files)
  = if existsb (String.eqb "mol.qout.*") subdirs then Ok [parent]
    else if endswith parent "/mol.qout.*" then Ok []
    else Raise (AttributeError "str" "glob").
Proof.
unfold get_valid_paths, intersects, any_endswith, sep, str_glob.
cbn [existsb]. rewrite !orb_false_r.
destruct (existsb (String.eqb "mol.qout.*") subdirs); [reflexivity|].
change ("/" +:+ "mol.qout.*") with "/mol.qout.*".
destruct (endswith parent "/mol.qout.*"); reflexivity.
Qed.

(** C2. [get_valid_paths] does not return the candidate directories
    without raising: on every triple with no subdirectory named
    [mol.qout.*] and a [parent] that does not end in [/mol.qout.*], also
    when the directory holds QChem output, it raises [AttributeError],
    because it calls [glob] on the [str] [parent]. *)
Theorem C2_get_valid_paths_raises (parent : string)
    (subdirs files : list string) :
  existsb (String.eqb "mol.qout.*") subdirs = false ->
  endswith parent "/mol.qout.*" = false ->
  get_valid_paths (parent, subdirs, files)
  = Raise (AttributeError "str" "glob").
Proof.
intros Hsubdirs Hparent.
rewrite get_valid_paths_outcomes, Hsubdirs, Hparent. reflexivity.
Qed.

(** The triple that [os.walk] yields for a directory [/w/calc] holding
    the QChem output file [mol.qout] and no subdirectory. *)
Lemma C2_get_valid_paths_raises_witness :
  get_valid_paths ("/w/calc", [], ["mol.qin"; "mol.qout"])
  = Raise (AttributeError "str" "glob").
Proof.
apply (C2_get_valid_paths_raises "/w/calc" [] ["mol.qin"; "mol.qout"]);
  reflexivity.
Defined.

(** C3, as stated, fails: when the task-document constructor is
    interrupted from the keyboard, [assimilate] raises the same
    [KeyboardInterrupt], and nothing has been logged. *)
Lemma C3_assimilate_interrupt_not_logged :
  assimilate Fixtures.interrupted_parser Os.join Fixtures.drone
    (Some "/w/calc") Fixtures.idle_process
  = (Raise KeyboardInterrupt, Fixtures.idle_process) /\
  logged Fixtures.idle_process = [].
Proof. split; reflexivity. Qed.

(** C3, amended. [assimilate] returns exactly the document of
    [TaskDoc.from_directory(path, **task_document_kwargs)], [path] being
    the working directory when [None]; it raises if and only if the
    constructor raises, and then the same exception, without a document;
    the exception is logged, with the absolute path, when it is an
    instance of [Exception], and is not logged otherwise. *)
Theorem C3_assimilate_delegates {TaskDoc Kwargs E : Type}
    (from_directory : string -> Kwargs -> M E TaskDoc)
    (absolute : string -> string -> string)
    (self : QChemDrone Kwargs) (path : option string) (p : process E) :
  let dir := default (cwd p) path in
  let '(outcome, e') :=
    from_directory dir (task_document_kwargs self) (parser_state p) in
  assimilate from_directory absolute self path p
  = (outcome,
     MkProcess (cwd p)
       (match outcome with
        | Ok _ => logged p
        | Raise exc =>
            if is_Exception exc
            then logged p ++ [LogError (absolute (cwd p) dir) exc]
            else logged p
        end) e').
Proof.
unfold assimilate.
assert (Hdir : match path with Some path0 => path0 | None => cwd p end
               = default (cwd p) path) by (destruct path; reflexivity).
rewrite Hdir. cbv zeta.
destruct (from_directory (default (cwd p) path) (task_document_kwargs self)
            (parser_state p)) as [[doc|exc] e'].
- reflexivity.
- destruct (is_Exception exc); reflexivity.
Qed.

(** The two triples on which [get_valid_paths] returns. *)
Example get_valid_paths_returns :
  get_valid_paths ("/w/calc", ["mol.qout.*"], []) = Ok ["/w/calc"] /\
  get_valid_paths ("/w/calc/mol.qout.*", [], ["mol.qout"]) = Ok [].
Proof. split; reflexivity. Qed.

(** A constructor that fails on a missing file: the error is logged and
    raised again; one that succeeds: its document is returned. *)
Example assimilate_on_fixtures :
  assimilate Fixtures.failing_parser Os.join Fixtures.drone None
    Fixtures.idle_process
  = (Raise (FileNotFoundError "/w/mol.qout"),
     MkProcess "/w"
       [LogError "/w" (FileNotFoundError "/w/mol.qout")] tt) /\
  assimilate Fixtures.working_parser Os.join Fixtures.drone
    (Some "/w/calc") Fixtures.idle_process
  = (Ok "task document of /w/calc", Fixtures.idle_process).
Proof. split; vm_compute; reflexivity. Qed.

End DroneProperties.

(** ** The Materials Project lookup *)

Module LookupProperties.
Import Py CommonJobs.

(** In the dictionary of origins the last origin of a name wins. *)
Lemma origins_by_name_lookup (origins : list PropertyOrigin) (name : string) :
  origins_by_name origins !! name
  = last (filter (fun prop => origin_name prop = name) origins).
Proof.
unfold origins_by_name.
induction origins as [|prop origins IH] using rev_ind; [reflexivity|].
rewrite foldl_app, filter_app. simpl.
destruct (decide (origin_name prop = name)) as [Heq|Hne].
- rewrite Heq, lookup_insert_eq.
  rewrite filter_cons_True by exact Heq.
  rewrite filter_nil, last_snoc. reflexivity.
- rewrite lookup_insert_ne by exact Hne.
  rewrite filter_cons_False by exact Hne.
  rewrite filter_nil, app_nil_r. exact IH.
Qed.

(** C6, as stated, fails: with the client importable and a task id that
    the database does not know, the search returns no document and the
    job raises [IndexError]: it returns no response, and the exception is
    not [ImportError]. *)
Lemma C6_unknown_id_raises_IndexError :
  retrieve_structure_from_materials_project (Some Fixtures.client)
    "mp-0" true false
  = Raise IndexError.
Proof. reflexivity. Qed.

(** C6, amended. The job raises [ImportError] if and only if the client
    cannot be imported.  With the client imported, it returns a response
    when the search finds a document and, for a material id, the first
    document has an origin named [structure]: the output is the structure
    of the first document, without its [magmom] site property when
    [reset_magnetic_moments] is true and unmodified otherwise, and the
    stored data hold the database version and the task id, which is the
    given id when [use_task_id] is true and else the task id of the last
    origin named [structure].  When the search finds no document the job
    raises [IndexError], and when no origin is named [structure] it raises
    [KeyError]. *)
Theorem C6_retrieve_structure {Sites PropValues : Type}
    (mp_api : option (MPRester Sites PropValues))
    (material_id_or_task_id : string)
    (use_task_id reset_magnetic_moments : bool) :
  let result :=
    retrieve_structure_from_materials_project mp_api material_id_or_task_id
      use_task_id reset_magnetic_moments in
  let respond (structure : Structure Sites PropValues) (task_id version : string) :=
    Ok (Jobflow.MkResponse
          (if reset_magnetic_moments
           then MkStructure (sites structure)
                  (delete "magmom" (site_properties structure))
           else structure)
          (<["task_id" := task_id]> (<["database_version" := version]> ∅))
          tt) in
  ((exists msg, result = Raise (ImportError msg)) <-> mp_api = None) /\
  (forall mpr,
      mp_api = Some mpr ->
      if use_task_id then
        match tasks_search mpr material_id_or_task_id with
        | doc :: _ =>
            result = respond (task_structure _ _ doc) material_id_or_task_id
                       (get_database_version mpr)
        | [] => result = Raise IndexError
        end
      else
        match materials_search mpr material_id_or_task_id with
        | doc :: _ =>
            match last (filter (fun prop => origin_name prop = "structure")
                          (material_origins _ _ doc)) with
            | Some origin =>
                result = respond (material_structure _ _ doc)
                           (origin_task_id origin) (get_database_version mpr)
            | None => result = Raise (KeyError "structure")
            end
        | [] => result = Raise IndexError
        end).
Proof.
intros result respond.
assert (Hreset : forall structure : Structure Sites PropValues,
           (if reset_magnetic_moments
               && bool_decide (is_Some (site_properties structure !! "magmom"))
            then remove_site_property structure "magmom" else structure)
           = (if reset_magnetic_moments
              then MkStructure (sites structure)
                     (delete "magmom" (site_properties structure))
              else structure)).
{ intros structure. destruct reset_magnetic_moments; simpl; [|reflexivity].
  case_bool_decide as Hmag; [reflexivity|].
  destruct structure as [sts props]. simpl in *. f_equal.
  symmetry. apply delete_id. apply eq_None_not_Some. exact Hmag. }
split.
- subst result. unfold retrieve_structure_from_materials_project. split.
  + intros (msg & Hraise). destruct mp_api as [mpr|]; [|reflexivity].
    exfalso. revert Hraise.
    destruct use_task_id.
    * destruct (tasks_search mpr material_id_or_task_id); simpl;
        discriminate.
    * destruct (materials_search mpr material_id_or_task_id) as [|doc ?];
        simpl; [discriminate|].
      unfold subscript.
      destruct (origins_by_name (material_origins _ _ doc) !! "structure");
        discriminate.
  + intros ->. eexists. reflexivity.
- intros mpr ->. subst result respond.
  unfold retrieve_structure_from_materials_project.
  destruct use_task_id.
  + destruct (tasks_search mpr material_id_or_task_id) as [|doc ?]; simpl;
      [reflexivity|].
    rewrite Hreset. reflexivity.
  + destruct (materials_search mpr material_id_or_task_id) as [|doc ?]; simpl;
      [reflexivity|].
    unfold subscript. rewrite origins_by_name_lookup.
    destruct (last _) as [origin|]; [|reflexivity].
    rewrite Hreset. reflexivity.
Qed.

Lemma C6_retrieve_structure_witness :
  retrieve_structure_from_materials_project (Some Fixtures.client)
    "mp-149" false true
  = Ok (Jobflow.MkResponse
          (MkStructure "Si2" (delete "magmom" (<["magmom" := [0; 0]%nat]> ∅)))
          (<["task_id" := "mp-1791788"]>
             (<["database_version" := "2025.09.25"]> ∅))
          tt).
Proof.
destruct (C6_retrieve_structure (Some Fixtures.client) "mp-149" false true)
  as [_ Hfound].
exact (Hfound Fixtures.client eq_refl).
Defined.

End LookupProperties.

(** ** Further properties of the clean-up job *)

Module CleanupExtras.
Import Py Os CommonJobs CommonJobsFacts.

Section Hits.
Variable tree : Tree.
Variable zpath : FS -> string -> string.

Lemma listed_cons_hit p hits : listed (Some p :: hits) = p :: listed hits.
Proof. reflexivity. Qed.

Lemma listed_cons_miss hits : listed (None :: hits) = listed hits.
Proof. reflexivity. Qed.

(** No entry is unlinked twice. *)
Lemma listed_places_NoDup az cands :
  forall fs0,
    NoDup (map (locate tree) (listed (hits_from tree zpath az fs0 cands))).
Proof.
induction cands as [|c cands IH]; intros fs0; simpl; [constructor|].
destruct (isfile tree fs0 (target zpath az fs0 c)) eqn:E.
- rewrite listed_cons_hit. simpl. constructor; [|apply IH].
  intros Hin. apply list_elem_of_fmap in Hin as (p & Heq & Hin).
  apply listed_were_files, isfile_delete in Hin. destruct Hin as [_ Hne].
  congruence.
- rewrite listed_cons_miss. apply IH.
Qed.

Lemma listed_NoDup az cands fs0 :
  NoDup (listed (hits_from tree zpath az fs0 cands)).
Proof.
eapply NoDup_fmap_1. apply listed_places_NoDup.
Qed.

Lemma listed_length az cands fs0 :
  length (listed (hits_from tree zpath az fs0 cands)) <= length cands.
Proof.
revert fs0. induction cands as [|c cands IH]; intros fs0; simpl; [lia|].
destruct (isfile tree fs0 (target zpath az fs0 c)).
- rewrite listed_cons_hit. simpl.
  specialize (IH (delete (locate tree (target zpath az fs0 c)) fs0)). lia.
- rewrite listed_cons_miss. specialize (IH fs0). lia.
Qed.

(** When no candidate is a regular file, nothing is listed. *)
Lemma listed_none cands fs0 :
  (forall c, c ∈ cands -> isfile tree fs0 c = false) ->
  listed (hits_from tree zpath false fs0 cands) = [].
Proof.
induction cands as [|c cands IH]; intros H; simpl; [reflexivity|].
rewrite (H c) by left. rewrite listed_cons_miss. apply IH.
intros c' Hc'. apply H. right. exact Hc'.
Qed.


Lemma islink_delete (fs0 : FS) k p :
  islink tree fs0 p = false -> islink tree (delete k fs0) p = false.
Proof.
unfold islink. destruct (decide (locate tree p = k)) as [->|Hne].
- rewrite lookup_delete_eq. reflexivity.
- rewrite lookup_delete_ne by congruence. trivial.
Qed.

(** Unlinking an entry leaves a path that names another entry, and no
    link, as it is. *)
Lemma isfile_delete_other (fs0 : FS) k p :
  islink tree fs0 p = false ->
  locate tree p <> k ->
  isfile tree (delete k fs0) p = isfile tree fs0 p.
Proof.
intros Hlink Hne.
rewrite !isfile_plain by (try apply islink_delete; exact Hlink).
rewrite lookup_delete_ne by congruence. reflexivity.
Qed.

(** Without [zpath] and without links, the entries unlinked are those of
    the candidates that are regular files at the start. *)
Lemma listed_places cands :
  forall fs0 k,
    (forall c, c ∈ cands -> islink tree fs0 c = false) ->
    k ∈ map (locate tree) (listed (hits_from tree zpath false fs0 cands)) <->
    k ∈ map (locate tree) (filter (fun c => isfile tree fs0 c = true) cands).
Proof.
induction cands as [|c cands IH]; intros fs0 k Hlinks; simpl; [reflexivity|].
assert (Hrest : forall c', c' ∈ cands -> islink tree fs0 c' = false)
  by (intros c' Hc'; apply Hlinks; right; exact Hc').
destruct (isfile tree fs0 c) eqn:E.
- rewrite listed_cons_hit, filter_cons_True by exact E. simpl.
  rewrite !elem_of_cons, IH
    by (intros c' Hc'; apply islink_delete, Hrest; exact Hc').
  destruct (decide (k = locate tree c)) as [->|Hne]; [tauto|].
  rewrite !list_elem_of_fmap.
  split; (intros [Heq|(q & -> & Hq)]; [tauto|]); right; exists q;
    (split; [reflexivity|]);
    apply list_elem_of_filter in Hq as [Hfile Hq];
    apply list_elem_of_filter; (split; [|exact Hq]).
  + rewrite isfile_delete_other in Hfile by (auto; congruence). exact Hfile.
  + rewrite isfile_delete_other by (auto; congruence). exact Hfile.
- rewrite listed_cons_miss, filter_cons_False by (rewrite E; discriminate).
  apply IH. exact Hrest.
Qed.

(** Without [zpath], and when the candidates name pairwise different
    entries, none of them a link, a candidate is listed exactly when it
    is a regular file at the start. *)
Lemma listed_plain cands :
  forall fs0 p,
    (forall c, c ∈ cands -> islink tree fs0 c = false) ->
    (forall c c', c ∈ cands -> c' ∈ cands ->
                  locate tree c = locate tree c' -> c = c') ->
    p ∈ listed (hits_from tree zpath false fs0 cands) <->
    p ∈ cands /\ isfile tree fs0 p = true.
Proof.
induction cands as [|c cands IH]; intros fs0 p Hlinks Hinj; simpl.
- split; [intros H; inversion H|intros [H _]; inversion H].
- assert (Hrest : forall c', c' ∈ cands -> islink tree fs0 c' = false)
    by (intros c' Hc'; apply Hlinks; right; exact Hc').
  assert (Hinj' : forall c1 c2, c1 ∈ cands -> c2 ∈ cands ->
                    locate tree c1 = locate tree c2 -> c1 = c2)
    by (intros c1 c2 H1 H2; apply Hinj; right; assumption).
  destruct (isfile tree fs0 c) eqn:E.
  + rewrite listed_cons_hit, !elem_of_cons.
    rewrite IH
      by (try exact Hinj'; intros c' Hc'; apply islink_delete, Hrest;
          exact Hc').
    split.
    * intros [->|[Hin Hfile]]; [auto|].
      apply isfile_delete in Hfile. split; [right; exact Hin|apply Hfile].
    * intros [[->|Hin] Hfile]; [left; reflexivity|].
      destruct (decide (p = c)) as [->|Hne]; [left; reflexivity|].
      right. split; [exact Hin|].
      rewrite isfile_delete_other; [exact Hfile|apply Hrest; exact Hin|].
      intros Heq. apply Hne. apply Hinj; [right; exact Hin|left|exact Heq].
  + rewrite listed_cons_miss, elem_of_cons, IH by assumption. split.
    * intros [Hin Hfile]. split; [right; exact Hin|exact Hfile].
    * intros [[->|Hin] Hfile]; [congruence|]. split; assumption.
Qed.


End Hits.

Lemma candidates_length abspath directories file_names :
  length (candidates abspath directories file_names)
  = (length directories * length file_names)%nat.
Proof.
unfold candidates. induction directories as [|d ds IH]; simpl; [reflexivity|].
rewrite length_app, length_map, IH. reflexivity.
Qed.

(** X1. No path is returned twice, whatever [zpath] does and also when a
    directory or a file name is given several times, and at most one path
    is returned per pair of a directory and a file name.  No entry of the
    file system is unlinked twice either: two returned paths never name
    the same entry. *)
Theorem X1_removed_files_distinct
    (tree : Tree) (abspath : string -> string)
    (zpath : FS -> string -> string)
    (directories file_names : list string) (allow_zpath : bool) (fs0 : FS) :
  exists removed fs',
    remove_workflow_files tree abspath zpath directories file_names
      allow_zpath fs0 = (Ok removed, fs') /\
    NoDup removed /\
    length removed <= length directories * length file_names /\
    NoDup (map (locate tree) removed).
Proof.
eexists _, _. split; [apply remove_workflow_files_run|]. split; [|split].
- apply listed_NoDup.
- rewrite <- (candidates_length abspath). apply listed_length.
- apply listed_places_NoDup.
Qed.


Lemma fixture_candidates_plain (cands : list string) :
  Forall (fun c => islink Fixtures.tree Fixtures.disk c = false) cands ->
  forall c, c ∈ cands -> islink Fixtures.tree Fixtures.disk c = false.
Proof. intros H c Hc. rewrite Forall_forall in H. apply H. exact Hc. Qed.


Lemma candidates_same_elements abspath ds ds' fns fns' :
  (forall d, d ∈ ds <-> d ∈ ds') ->
  (forall f, f ∈ fns <-> f ∈ fns') ->
  forall c, c ∈ candidates abspath ds fns <-> c ∈ candidates abspath ds' fns'.
Proof.
intros Hd Hf c. rewrite !candidates_elem.
split; intros (d & d' & f & Hin & Hs & Hfin & ->); exists d, d', f;
  repeat split; try assumption; try (apply Hd; assumption);
  apply Hf; assumption.
Qed.

Lemma filter_places_same_elements tree (fs0 : FS) (cands cands' : list string) :
  (forall c, c ∈ cands <-> c ∈ cands') ->
  forall k,
    k ∈ map (locate tree) (filter (fun c => isfile tree fs0 c = true) cands)
    <-> k ∈ map (locate tree)
              (filter (fun c => isfile tree fs0 c = true) cands').
Proof.
intros Hc k. rewrite !list_elem_of_fmap.
split; intros (q & -> & Hq); exists q; (split; [reflexivity|]);
  apply list_elem_of_filter in Hq as [Hfile Hq];
  apply list_elem_of_filter; (split; [exact Hfile|]); apply Hc; exact Hq.
Qed.

(** X3. With [allow_zpath] false, and when no candidate names a link, the
    file system after the job has a closed form: an entry is gone when a
    candidate that was a regular file names it, and is unchanged
    otherwise.  Hence neither the order nor the repetition of directories
    and file names matters: two calls whose directories and file names
    have the same elements leave the same file system and unlink the same
    entries; and they return the same paths up to order when the
    candidates name pairwise different entries. *)
Theorem X3_plain_cleanup_order_independent
    (tree : Tree) (abspath : string -> string)
    (zpath : FS -> string -> string)
    (directories directories' file_names file_names' : list string)
    (fs0 : FS) :
  let cands := candidates abspath directories file_names in
  (forall d, d ∈ directories <-> d ∈ directories') ->
  (forall f, f ∈ file_names <-> f ∈ file_names') ->
  (forall c, c ∈ cands -> islink tree fs0 c = false) ->
  exists removed removed' fs',
    remove_workflow_files tree abspath zpath directories file_names false fs0
    = (Ok removed, fs') /\
    remove_workflow_files tree abspath zpath directories' file_names' false
      fs0 = (Ok removed', fs') /\
    map (locate tree) removed ≡ₚ map (locate tree) removed' /\
    ((forall c c', c ∈ cands -> c' ∈ cands ->
                   locate tree c = locate tree c' -> c = c') ->
     removed ≡ₚ removed') /\
    (forall k,
        fs' !! k
        = if decide (k ∈ map (locate tree)
                           (filter (fun c => isfile tree fs0 c = true) cands))
          then None else fs0 !! k).
Proof.
intros cands Hd Hf Hlinks.
set (cands' := candidates abspath directories' file_names').
assert (Hc : forall c, c ∈ cands <-> c ∈ cands')
  by (apply candidates_same_elements; assumption).
assert (Hlinks' : forall c, c ∈ cands' -> islink tree fs0 c = false)
  by (intros c Hin; apply Hlinks, Hc; exact Hin).
assert (Hplaces : forall k,
           k ∈ map (locate tree) (listed (hits_from tree zpath false fs0 cands))
           <-> k ∈ map (locate tree)
                     (listed (hits_from tree zpath false fs0 cands'))).
{ intros k. rewrite !listed_places by assumption.
  apply filter_places_same_elements. exact Hc. }
exists (listed (hits_from tree zpath false fs0 cands)),
       (listed (hits_from tree zpath false fs0 cands')),
       (unlink_all tree (listed (hits_from tree zpath false fs0 cands)) fs0).
split; [apply remove_workflow_files_run|].
split; [|split; [|split]].
- rewrite remove_workflow_files_run. fold cands'. f_equal.
  apply map_eq. intros k. rewrite !lookup_unlink_all.
  pose proof (Hplaces k) as Hk.
  repeat case_decide; try reflexivity; exfalso; tauto.
- apply NoDup_Permutation;
    [apply listed_places_NoDup|apply listed_places_NoDup|exact Hplaces].
- intros Hinj.
  assert (Hinj' : forall c c', c ∈ cands' -> c' ∈ cands' ->
                    locate tree c = locate tree c' -> c = c')
    by (intros c c' H1 H2; apply Hinj; apply Hc; assumption).
  apply NoDup_Permutation; [apply listed_NoDup|apply listed_NoDup|].
  intros p. rewrite !listed_plain by assumption. rewrite Hc. reflexivity.
- intros k. rewrite lookup_unlink_all.
  pose proof (listed_places tree zpath cands fs0 k Hlinks) as Hk.
  repeat case_decide; try reflexivity; exfalso; tauto.
Qed.

Lemma X3_plain_cleanup_order_independent_witness :
  exists removed removed' fs',
    remove_workflow_files Fixtures.tree (abspath_in "/w")
      (monty_zpath Fixtures.tree) ["/w/a"; "b"]
      ["WAVECAR"; "INCAR"] false Fixtures.disk = (Ok removed, fs') /\
    remove_workflow_files Fixtures.tree (abspath_in "/w")
      (monty_zpath Fixtures.tree) ["b"; "/w/a"; "b"]
      ["INCAR"; "WAVECAR"] false Fixtures.disk = (Ok removed', fs') /\
    map (locate Fixtures.tree) removed ≡ₚ map (locate Fixtures.tree) removed'.
Proof.
destruct (X3_plain_cleanup_order_independent Fixtures.tree (abspath_in "/w")
            (monty_zpath Fixtures.tree)
            ["/w/a"; "b"] ["b"; "/w/a"; "b"]
            ["WAVECAR"; "INCAR"] ["INCAR"; "WAVECAR"] Fixtures.disk)
  as (removed & removed' & fs' & H1 & H2 & Hperm & _).
- intros d. rewrite !elem_of_cons, !elem_of_nil. tauto.
- intros f. rewrite !elem_of_cons, !elem_of_nil. tauto.
- apply fixture_candidates_plain. vm_compute. repeat constructor.
- exists removed, removed', fs'. auto.
Defined.

(** X4. With [allow_zpath] false the job is idempotent: run again on the
    file system it left, with the same arguments, it returns the empty
    list and changes nothing. *)
Theorem X4_plain_cleanup_idempotent
    (tree : Tree) (abspath : string -> string)
    (zpath : FS -> string -> string)
    (directories file_names : list string) (fs0 : FS) :
  exists removed fs',
    remove_workflow_files tree abspath zpath directories file_names false fs0
    = (Ok removed, fs') /\
    remove_workflow_files tree abspath zpath directories file_names false fs'
    = (Ok [], fs').
Proof.
set (cands := candidates abspath directories file_names).
set (removed := listed (hits_from tree zpath false fs0 cands)).
exists removed, (unlink_all tree removed fs0).
split; [apply remove_workflow_files_run|].
rewrite remove_workflow_files_run. fold cands.
rewrite listed_none; [reflexivity|].
intros c Hc. apply checked_gone. exact Hc.
Qed.

(** X5. Without directories, or without file names, the job returns the
    empty list and leaves the file system as it is. *)
Theorem X5_cleanup_of_nothing
    (tree : Tree) (abspath : string -> string)
    (zpath : FS -> string -> string)
    (directories file_names : list string) (allow_zpath : bool) (fs0 : FS) :
  directories = [] \/ file_names = [] ->
  remove_workflow_files tree abspath zpath directories file_names
    allow_zpath fs0 = (Ok [], fs0).
Proof.
intros Hempty. rewrite remove_workflow_files_run.
assert (Hc : candidates abspath directories file_names = []).
{ apply length_zero_iff_nil. rewrite candidates_length.
  destruct Hempty as [-> | ->]; simpl; lia. }
rewrite Hc. reflexivity.
Qed.

Lemma X5_cleanup_of_nothing_witness :
  remove_workflow_files Fixtures.tree (abspath_in "/w")
    (monty_zpath Fixtures.tree) Fixtures.job_dirs [] true Fixtures.disk
  = (Ok [], Fixtures.disk).
Proof.
apply (X5_cleanup_of_nothing Fixtures.tree (abspath_in "/w")
         (monty_zpath Fixtures.tree) Fixtures.job_dirs [] true Fixtures.disk).
right. reflexivity.
Defined.

End CleanupExtras.

(** ** Further properties of the host prefix *)

Module HostPrefixExtras.
Import Py Os CommonJobs CommonJobsFacts.

(** X6. Stripping composes: whatever stands before a colon is irrelevant,
    so that [a:b] is stripped as [b] is, also when [b] holds further
    colons; stripping twice is stripping once; and an argument that ends
    in a colon is stripped to the empty string. *)
Theorem X6_strip_host_composes :
  (forall a b, strip_host (a +:+ ":" +:+ b) = strip_host b) /\
  (forall d d', strip_host d = Ok d' -> strip_host d' = Ok d') /\
  (forall a, strip_host (a +:+ ":") = Ok "").
Proof.
assert (Happ : forall a b, strip_host (a +:+ ":" +:+ b) = strip_host b).
{ intros a b. unfold strip_host, index_last.
  change (a +:+ ":" +:+ b) with (a +:+ String ":" b).
  rewrite PyFacts.split_app_sep, last_app.
  rewrite (PyFacts.last_default_split ":" b). reflexivity. }
split; [exact Happ|]. split.
- intros d d' Hd.
  destruct (PyFacts.last_split ":" d) as (post & Hlast & Hno & _).
  unfold strip_host, index_last in Hd. rewrite Hlast in Hd.
  injection Hd as <-.
  unfold strip_host, index_last.
  rewrite (PyFacts.split_no_sep _ _ Hno). reflexivity.
- intros a. apply (Happ a "").
Qed.

Lemma X6_strip_host_composes_witness :
  strip_host "gateway:node17:/scratch/run" = Ok "/scratch/run" /\
  strip_host "/scratch/run" = Ok "/scratch/run".
Proof.
destruct X6_strip_host_composes as (Happ & Hidem & _).
assert (H : strip_host "gateway:node17:/scratch/run" = Ok "/scratch/run").
{ change "gateway:node17:/scratch/run"
    with ("gateway" +:+ ":" +:+ ("node17" +:+ ":" +:+ "/scratch/run")).
  rewrite (Happ "gateway"), (Happ "node17"). reflexivity. }
split; [exact H|]. exact (Hidem _ _ H).
Defined.

End HostPrefixExtras.

(** ** The configuration-coordinate documents *)

Module DocumentProperties.
Import Py DefectDocuments.

Lemma py_index_spec {A} (l : list A) (i : Z) :
  let n := Z.of_nat (length l) in
  match py_index l i with
  | Ok a => (- n <= i < n)%Z /\ l !! Z.to_nat (i `mod` n) = Some a
  | Raise e => e = IndexError /\ ~ (- n <= i < n)%Z
  end.
Proof.
intros n. unfold py_index. fold n.
destruct (i <? 0)%Z eqn:Hneg.
- apply Z.ltb_lt in Hneg.
  destruct ((i + n <? 0) || (n <=? i + n))%Z eqn:Hout.
  + split; [reflexivity|].
    apply orb_true_iff in Hout as [H|H];
      [apply Z.ltb_lt in H|apply Z.leb_le in H]; lia.
  + apply orb_false_iff in Hout as [H1 H2].
    apply Z.ltb_ge in H1. apply Z.leb_gt in H2.
    assert (Hmod : (i `mod` n = i + n)%Z).
    { symmetry. apply (Z.mod_unique i n (-1)); lia. }
    rewrite Hmod.
    destruct (l !! Z.to_nat (i + n)) as [a|] eqn:Hl.
    * split; [lia|reflexivity].
    * apply lookup_ge_None in Hl. unfold n in *. lia.
- apply Z.ltb_ge in Hneg.
  destruct ((i <? 0) || (n <=? i))%Z eqn:Hout.
  + split; [reflexivity|].
    apply orb_true_iff in Hout as [H|H];
      [apply Z.ltb_lt in H|apply Z.leb_le in H]; lia.
  + apply orb_false_iff in Hout as [H1 H2].
    apply Z.leb_gt in H2.
    rewrite Z.mod_small by lia.
    destruct (l !! Z.to_nat i) as [a|] eqn:Hl.
    * split; [lia|reflexivity].
    * apply lookup_ge_None in Hl. unfold n in *. lia.
Qed.

Section Columns.
Context {V : Type}.

Lemma column_spec (key : string) (inputs : list (gmap string V)) :
  match column key inputs with
  | Ok vs => Forall2 (fun i v => i !! key = Some v) inputs vs
  | Raise e =>
      e = KeyError key /\ Exists (fun i => i !! key = None) inputs
  end.
Proof.
unfold column.
induction inputs as [|i inputs IH]; simpl; [constructor|].
unfold CommonJobs.subscript at 1.
destruct (i !! key) as [v|] eqn:Hi.
- destruct (CommonJobs.comprehension _ inputs) as [vs|e].
  + constructor; assumption.
  + destruct IH as [-> IH]. split; [reflexivity|].
    apply Exists_cons_tl. exact IH.
- split; [reflexivity|]. apply Exists_cons_hd. exact Hi.
Qed.

Lemma present_not_missing key (inputs : list (gmap string V)) vs :
  Forall2 (fun i v => i !! key = Some v) inputs vs ->
  Exists (fun i => i !! key = None) inputs -> False.
Proof.
induction 1 as [|i v inputs vs Hi _ IH]; intros Hex; inversion Hex; subst.
- congruence.
- auto.
Qed.

Lemma column_present key (inputs : list (gmap string V)) :
  Forall (fun i => is_Some (i !! key)) inputs ->
  exists vs, column key inputs = Ok vs /\
             Forall2 (fun i v => i !! key = Some v) inputs vs.
Proof.
intros Hall. pose proof (column_spec key inputs) as H.
destruct (column key inputs) as [vs|e].
- exists vs. split; [reflexivity|exact H].
- exfalso. destruct H as [_ Hex].
  apply Exists_exists in Hex as (i & Hin & Hnone).
  rewrite Forall_forall in Hall. specialize (Hall i Hin).
  rewrite Hnone in Hall. destruct Hall; discriminate.
Qed.

Lemma column_missing key (inputs : list (gmap string V)) :
  Exists (fun i => i !! key = None) inputs ->
  column key inputs = Raise (KeyError key).
Proof.
intros Hex. pose proof (column_spec key inputs) as H.
destruct (column key inputs) as [vs|e].
- destruct (present_not_missing _ _ _ H Hex).
- destruct H as [-> _]. reflexivity.
Qed.
End Columns.

Section Documents.
Context {V CCDDocument : Type}.
Variable from_task_outputs : TaskOutputs V -> res CCDDocument.

Lemma complete_keys (inputs : list (gmap string V)) :
  Forall complete inputs ->
  Forall (fun i => is_Some (i !! "uuid")) inputs /\
  Forall (fun i => is_Some (i !! "structure")) inputs /\
  Forall (fun i => is_Some (i !! "energy")) inputs /\
  Forall (fun i => is_Some (i !! "dir_name")) inputs.
Proof.
intros H. repeat split; eapply Forall_impl; try exact H;
  intros i (H1 & H2 & H3 & H4); assumption.
Qed.

(** On complete inputs every column is read, and the job comes to the
    two subscripts by [undistorted_index]. *)
Lemma get_ccd_documents_complete inputs1 inputs2 undistorted_index :
  Forall complete inputs1 -> Forall complete inputs2 ->
  exists u1 u2 s1 s2 e1 e2 d1 d2,
    Forall2 (fun i v => i !! "uuid" = Some v) inputs1 u1 /\
    Forall2 (fun i v => i !! "uuid" = Some v) inputs2 u2 /\
    Forall2 (fun i v => i !! "structure" = Some v) inputs1 s1 /\
    Forall2 (fun i v => i !! "structure" = Some v) inputs2 s2 /\
    Forall2 (fun i v => i !! "energy" = Some v) inputs1 e1 /\
    Forall2 (fun i v => i !! "energy" = Some v) inputs2 e2 /\
    Forall2 (fun i v => i !! "dir_name" = Some v) inputs1 d1 /\
    Forall2 (fun i v => i !! "dir_name" = Some v) inputs2 d2 /\
    get_ccd_documents from_task_outputs inputs1 inputs2 undistorted_index
    = match py_index u1 undistorted_index with
      | Raise e => Raise e
      | Ok r1 =>
          match py_index u2 undistorted_index with
          | Raise e => Raise e
          | Ok r2 =>
              match from_task_outputs
                      (MkTaskOutputs s1 s2 e1 e2 d1 d2 u1 u2 r1 r2) with
              | Raise e => Raise e
              | Ok ccd_doc => Ok (Jobflow.MkResponse ccd_doc tt tt)
              end
          end
      end.
Proof.
intros H1 H2.
apply complete_keys in H1 as (Hu1 & Hs1 & He1 & Hd1).
apply complete_keys in H2 as (Hu2 & Hs2 & He2 & Hd2).
destruct (column_present _ _ Hu1) as (u1 & Cu1 & Fu1).
destruct (column_present _ _ Hu2) as (u2 & Cu2 & Fu2).
destruct (column_present _ _ Hs1) as (s1 & Cs1 & Fs1).
destruct (column_present _ _ Hs2) as (s2 & Cs2 & Fs2).
destruct (column_present _ _ He1) as (e1 & Ce1 & Fe1).
destruct (column_present _ _ He2) as (e2 & Ce2 & Fe2).
destruct (column_present _ _ Hd1) as (d1 & Cd1 & Fd1).
destruct (column_present _ _ Hd2) as (d2 & Cd2 & Fd2).
exists u1, u2, s1, s2, e1, e2, d1, d2.
repeat (split; [assumption|]).
unfold get_ccd_documents.
rewrite Cu1, Cu2, Cs1, Cs2, Ce1, Ce2, Cd1, Cd2. reflexivity.
Qed.

(** X7. On inputs that hold the four keys, an [undistorted_index] out of
    the range of either list of inputs (a negative index counting from the
    end) makes the job raise [IndexError], whatever
    [CCDDocument.from_task_outputs] would do; in particular the job raises
    for every index when a list of inputs is empty. *)
Theorem X7_ccd_index_out_of_range inputs1 inputs2 undistorted_index :
  Forall complete inputs1 -> Forall complete inputs2 ->
  ~ (- Z.of_nat (length inputs1) <= undistorted_index
     < Z.of_nat (length inputs1))%Z \/
  ~ (- Z.of_nat (length inputs2) <= undistorted_index
     < Z.of_nat (length inputs2))%Z ->
  get_ccd_documents from_task_outputs inputs1 inputs2 undistorted_index
  = Raise IndexError.
Proof.
intros H1 H2 Hout.
destruct (get_ccd_documents_complete inputs1 inputs2 undistorted_index H1 H2)
  as (u1 & u2 & s1 & s2 & e1 & e2 & d1 & d2
      & Fu1 & Fu2 & _ & _ & _ & _ & _ & _ & ->).
apply Forall2_length in Fu1, Fu2.
pose proof (py_index_spec u1 undistorted_index) as P1.
pose proof (py_index_spec u2 undistorted_index) as P2.
cbv zeta in P1, P2. rewrite <- Fu1 in P1. rewrite <- Fu2 in P2.
destruct (py_index u1 undistorted_index) as [r1|x1].
- destruct (py_index u2 undistorted_index) as [r2|x2].
  + exfalso. destruct P1 as [P1 _], P2 as [P2 _]. tauto.
  + destruct P2 as [-> _]. reflexivity.
- destruct P1 as [-> _]. reflexivity.
Qed.

(** X8. On inputs that hold the four keys and for an index in the range
    of both lists, the job hands [CCDDocument.from_task_outputs] columns
    that are aligned with the inputs (entry [k] of each column comes from
    input [k]), the relaxed uuids being the uuids at [undistorted_index],
    counted from the end when negative; it returns the document in a
    response, or raises what the constructor raises. *)
Theorem X8_ccd_columns_aligned inputs1 inputs2 undistorted_index :
  Forall complete inputs1 -> Forall complete inputs2 ->
  (- Z.of_nat (length inputs1) <= undistorted_index
   < Z.of_nat (length inputs1))%Z ->
  (- Z.of_nat (length inputs2) <= undistorted_index
   < Z.of_nat (length inputs2))%Z ->
  exists outputs,
    get_ccd_documents from_task_outputs inputs1 inputs2 undistorted_index
    = match from_task_outputs outputs with
      | Raise e => Raise e
      | Ok ccd_doc => Ok (Jobflow.MkResponse ccd_doc tt tt)
      end /\
    Forall2 (fun i v => i !! "structure" = Some v) inputs1 (structures1 outputs) /\
    Forall2 (fun i v => i !! "structure" = Some v) inputs2 (structures2 outputs) /\
    Forall2 (fun i v => i !! "energy" = Some v) inputs1 (energies1 outputs) /\
    Forall2 (fun i v => i !! "energy" = Some v) inputs2 (energies2 outputs) /\
    Forall2 (fun i v => i !! "dir_name" = Some v) inputs1 (static_dirs1 outputs) /\
    Forall2 (fun i v => i !! "dir_name" = Some v) inputs2 (static_dirs2 outputs) /\
    Forall2 (fun i v => i !! "uuid" = Some v) inputs1 (static_uuids1 outputs) /\
    Forall2 (fun i v => i !! "uuid" = Some v) inputs2 (static_uuids2 outputs) /\
    static_uuids1 outputs
      !! Z.to_nat (undistorted_index `mod` Z.of_nat (length inputs1))
    = Some (relaxed_uuid1 outputs) /\
    static_uuids2 outputs
      !! Z.to_nat (undistorted_index `mod` Z.of_nat (length inputs2))
    = Some (relaxed_uuid2 outputs).
Proof.
intros H1 H2 Hin1 Hin2.
destruct (get_ccd_documents_complete inputs1 inputs2 undistorted_index H1 H2)
  as (u1 & u2 & s1 & s2 & e1 & e2 & d1 & d2
      & Fu1 & Fu2 & Fs1 & Fs2 & Fe1 & Fe2 & Fd1 & Fd2 & ->).
pose proof (Forall2_length _ _ _ Fu1) as L1.
pose proof (Forall2_length _ _ _ Fu2) as L2.
pose proof (py_index_spec u1 undistorted_index) as P1.
pose proof (py_index_spec u2 undistorted_index) as P2.
cbv zeta in P1, P2. rewrite <- L1 in P1. rewrite <- L2 in P2.
destruct (py_index u1 undistorted_index) as [r1|x1];
  [|destruct P1 as [_ P1]; tauto].
destruct (py_index u2 undistorted_index) as [r2|x2];
  [|destruct P2 as [_ P2]; tauto].
exists (MkTaskOutputs s1 s2 e1 e2 d1 d2 u1 u2 r1 r2). simpl.
split; [reflexivity|]. repeat (split; [assumption|]).
split; [apply P1|apply P2].
Qed.

Lemma column_missing_app key (inputs1 inputs2 : list (gmap string V)) :
  Exists (fun i => i !! key = None) (inputs1 ++ inputs2) ->
  column key inputs1 = Raise (KeyError key) \/
  exists vs, column key inputs1 = Ok vs /\
             column key inputs2 = Raise (KeyError key).
Proof.
intros Hex. apply Exists_app in Hex.
pose proof (column_spec key inputs1) as H.
destruct (column key inputs1) as [vs|e].
- right. exists vs. split; [reflexivity|].
  destruct Hex as [Hex|Hex]; [destruct (present_not_missing _ _ _ H Hex)|].
  apply column_missing. exact Hex.
- left. destruct H as [-> _]. reflexivity.
Qed.

(** X9. A record that lacks a key makes the job raise [KeyError], before
    the index is looked at and without the document constructor being
    reached; the keys are read in the order [uuid], [structure],
    [energy], [dir_name], and the first of them that some record lacks is
    the one reported. *)
Theorem X9_ccd_missing_key inputs1 inputs2 undistorted_index
    (n : nat) (key : string) :
  ["uuid"; "structure"; "energy"; "dir_name"] !! n = Some key ->
  (forall earlier,
      earlier ∈ take n ["uuid"; "structure"; "energy"; "dir_name"] ->
      Forall (fun i => is_Some (i !! earlier)) (inputs1 ++ inputs2)) ->
  Exists (fun i => i !! key = None) (inputs1 ++ inputs2) ->
  get_ccd_documents from_task_outputs inputs1 inputs2 undistorted_index
  = Raise (KeyError key).
Proof.
intros Hkey Hearlier Hmissing.
assert (Hcols : forall earlier,
           earlier ∈ take n ["uuid"; "structure"; "energy"; "dir_name"] ->
           (exists vs, column earlier inputs1 = Ok vs) /\
           (exists vs, column earlier inputs2 = Ok vs)).
{ intros earlier Hin. specialize (Hearlier earlier Hin).
  apply Forall_app in Hearlier as [F1 F2].
  destruct (column_present _ _ F1) as (vs1 & -> & _).
  destruct (column_present _ _ F2) as (vs2 & -> & _). eauto. }
apply column_missing_app in Hmissing.
unfold get_ccd_documents.
destruct n as [|[|[|[|n]]]]; simpl in Hkey; try discriminate;
  injection Hkey as <-; simpl in Hcols.
- destruct Hmissing as [->|(vs & -> & ->)]; reflexivity.
- destruct (Hcols "uuid") as [(u1 & ->) (u2 & ->)]; [repeat constructor|].
  destruct Hmissing as [->|(vs & -> & ->)]; reflexivity.
- destruct (Hcols "uuid") as [(u1 & ->) (u2 & ->)]; [repeat constructor|].
  destruct (Hcols "structure") as [(s1 & ->) (s2 & ->)]; [repeat constructor|].
  destruct Hmissing as [->|(vs & -> & ->)]; reflexivity.
- destruct (Hcols "uuid") as [(u1 & ->) (u2 & ->)]; [repeat constructor|].
  destruct (Hcols "structure") as [(s1 & ->) (s2 & ->)]; [repeat constructor|].
  destruct (Hcols "energy") as [(e1 & ->) (e2 & ->)]; [repeat constructor|].
  destruct Hmissing as [->|(vs & -> & ->)]; reflexivity.
Qed.
End Documents.

Ltac all_present :=
  repeat (constructor;
          [repeat split; eexists; vm_compute; reflexivity|]);
  try constructor.

Lemma X7_ccd_index_out_of_range_witness :
  get_ccd_documents Fixtures.relaxed_pair Fixtures.ground_curve
    Fixtures.excited_curve 3 = Raise IndexError /\
  get_ccd_documents Fixtures.relaxed_pair Fixtures.ground_curve [] 0
  = Raise IndexError.
Proof.
split.
- apply (X7_ccd_index_out_of_range Fixtures.relaxed_pair
           Fixtures.ground_curve Fixtures.excited_curve 3).
  + all_present.
  + all_present.
  + left. simpl. lia.
- apply (X7_ccd_index_out_of_range Fixtures.relaxed_pair
           Fixtures.ground_curve [] 0).
  + all_present.
  + constructor.
  + right. simpl. lia.
Defined.

Lemma X8_ccd_columns_aligned_witness :
  exists outputs,
    get_ccd_documents Fixtures.relaxed_pair Fixtures.ground_curve
      Fixtures.excited_curve (-1)
    = Ok (Jobflow.MkResponse
            (relaxed_uuid1 outputs, relaxed_uuid2 outputs) tt tt) /\
    static_uuids1 outputs !! 2%nat = Some (relaxed_uuid1 outputs) /\
    static_uuids2 outputs !! 2%nat = Some (relaxed_uuid2 outputs).
Proof.
destruct (X8_ccd_columns_aligned Fixtures.relaxed_pair
            Fixtures.ground_curve Fixtures.excited_curve (-1))
  as (outputs & Hrun & _ & _ & _ & _ & _ & _ & _ & _ & Hr1 & Hr2).
- all_present.
- all_present.
- simpl. lia.
- simpl. lia.
- exists outputs. split; [exact Hrun|]. split; [exact Hr1|exact Hr2].
Defined.

Lemma X9_ccd_missing_key_witness :
  get_ccd_documents Fixtures.relaxed_pair Fixtures.ground_curve
    Fixtures.broken_curve 7 = Raise (KeyError "energy").
Proof.
apply (X9_ccd_missing_key Fixtures.relaxed_pair Fixtures.ground_curve
         Fixtures.broken_curve 7 2 "energy").
- reflexivity.
- intros earlier Hin. simpl in Hin.
  apply elem_of_cons in Hin as [->|Hin];
    [|apply elem_of_cons in Hin as [->|Hin]; [|inversion Hin]];
    repeat (constructor; [eexists; vm_compute; reflexivity|]);
    constructor.
- apply Exists_app. right. apply Exists_cons_tl, Exists_cons_hd.
  vm_compute. reflexivity.
Defined.

End DocumentProperties.

(** ** Further properties of the energy curve *)

Module DefectExtras.
Import Jobflow Defect DefectProperties.

Lemma str_of_nat_inj i j : str_of_nat i = str_of_nat j -> i = j.
Proof.
assert (Hdecode : forall n,
           option_map Nat.of_uint (NilZero.uint_of_string (str_of_nat n))
           = Some n).
{ intros n. unfold str_of_nat.
  destruct (Nat.to_uint n) as [| | | | | | | | | |] eqn:E;
    try (rewrite NilZero.usu by discriminate; simpl;
         rewrite <- E, DecimalNat.Unsigned.of_to; reflexivity).
  simpl. rewrite <- (DecimalNat.Unsigned.of_to n), E. reflexivity. }
intros H. pose proof (Hdecode i) as Hi. rewrite H, Hdecode in Hi.
congruence.
Qed.

Lemma append_cancel (a b c : string) : a +:+ b = a +:+ c -> b = c.
Proof.
induction a as [|x a IH]; intros H; [exact H|].
apply IH. injection H as H. exact H.
Qed.

Lemma suffix_of_inj add_name i j :
  suffix_of add_name i = suffix_of add_name j -> i = j.
Proof.
unfold suffix_of. destruct (String.eqb add_name ""); intros H.
- apply append_cancel in H. apply str_of_nat_inj. exact H.
- apply append_cancel, append_cancel, append_cancel in H.
  apply str_of_nat_inj. exact H.
Qed.

Section Spawn.
Context {Structure W Distortion : Type}.
Variable sorted : list Distortion -> list Distortion.
Variable interpolate :
  Structure -> Structure -> list Distortion -> list Structure.
Variable static_maker : Maker Structure W (Job Structure).
Variables relaxed_structure distorted_structure : Structure.
Variable distortions : list Distortion.
Variable prev_vasp_dir : Arg Structure.
Variable add_name : string.
Variable add_info : option (gmap string (Arg Structure)).
Variable w : world Structure W (Job Structure).

#[local] Abbreviation images :=
  (interpolate relaxed_structure distorted_structure (sorted distortions)).
#[local] Abbreviation spawned :=
  (spawn_energy_curve_calcs sorted interpolate relaxed_structure
     distorted_structure distortions static_maker prev_vasp_dir add_name
     add_info w).

(** The run of the job in terms of the jobs kept by the loop. *)
Lemma spawned_jobs :
  exists static_jobs w',
    spawned
    = (MkResponse (map ccd_input_of static_jobs) tt
         (MkFlow (map NJob static_jobs) (map ccd_input_of static_jobs) "Flow"),
       w') /\
    length static_jobs = length images /\
    forall k image,
      images !! k = Some image ->
      exists e,
        static_jobs !! k
        = Some (labelled relaxed_structure distorted_structure add_name
                  add_info k
                  (fst (make_fn static_maker (AStructure image)
                          prev_vasp_dir e))).
Proof.
unfold spawn_energy_curve_calcs, invoke.
destruct (make_fn static_maker (AStructure relaxed_structure) ANone (ext w))
  as [reference e0].
destruct (spawn_loop_run static_maker relaxed_structure distorted_structure
            prev_vasp_dir add_name add_info images 0%nat [] []
            (MkWorld e0 (calls w ++
               [MkCall static_maker (AStructure relaxed_structure) ANone])))
  as (made & w' & Hrun & Hlen & _ & Hjobs & _).
rewrite Hrun. simpl. exists made, w'. split; [reflexivity|].
split; [exact Hlen|exact Hjobs].
Qed.

(** X10. The jobs of the replacement flow are told apart by their names:
    job [k] is named after the job the maker returned, followed by
    [" k"], or by [" add_name k"] when [add_name] is not empty; so when
    the maker names all its jobs alike, the names of the jobs of the flow
    are pairwise distinct. *)
Theorem X10_spawned_job_names :
  (forall structure prev_dir e,
      job_name (fst (make_fn static_maker structure prev_dir e))
      = maker_name static_maker) ->
  exists static_jobs response w',
    spawned = (response, w') /\
    flow_jobs (response_replace response) = map NJob static_jobs /\
    (forall k job,
        static_jobs !! k = Some job ->
        job_name job
        = maker_name static_maker
          +:+ (if String.eqb add_name "" then " " +:+ str_of_nat k
               else " " +:+ add_name +:+ " " +:+ str_of_nat k)) /\
    NoDup (map job_name static_jobs).
Proof.
intros Hnames.
destruct spawned_jobs as (static_jobs & w' & Hrun & Hlen & Hjobs).
exists static_jobs. eexists. exists w'. split; [exact Hrun|]. simpl.
split; [reflexivity|].
assert (Hname : forall k job,
           static_jobs !! k = Some job ->
           job_name job = maker_name static_maker +:+ suffix_of add_name k).
{ intros k job Hk.
  assert (Hlt : (k < length images)%nat)
    by (rewrite <- Hlen; eapply lookup_lt_Some; exact Hk).
  apply lookup_lt_is_Some in Hlt as (image & Himage).
  destruct (Hjobs k image Himage) as (e & He). rewrite He in Hk.
  injection Hk as <-. unfold labelled. simpl. rewrite Hnames.
  reflexivity. }
split; [exact Hname|].
apply NoDup_alt. intros i j name Hi Hj.
rewrite list_lookup_fmap in Hi, Hj.
destruct (static_jobs !! i) as [job_i|] eqn:Ei; [|discriminate].
destruct (static_jobs !! j) as [job_j|] eqn:Ej; [|discriminate].
simpl in Hi, Hj. injection Hi as Hi. injection Hj as Hj.
rewrite (Hname i job_i Ei) in Hi. rewrite (Hname j job_j Ej) in Hj.
subst name. apply append_cancel in Hj.
symmetry. apply (suffix_of_inj add_name). exact Hj.
Qed.

(** X11. Every job of the replacement flow carries, as its last update of
    the maker's keyword arguments, the same [info] dictionary, set under
    [write_additional_data->info:json] with [dict_mod]; the dictionary
    holds the relaxed and the distorted structure, and an entry of
    [add_info] under a key wins, also over these two. *)
Theorem X11_spawned_job_info :
  let info := info_of relaxed_structure distorted_structure add_info in
  exists static_jobs response w',
    spawned = (response, w') /\
    flow_jobs (response_replace response) = map NJob static_jobs /\
    (forall job,
        job ∈ static_jobs ->
        last (job_maker_updates job)
        = Some (MkUpdate "_set" "write_additional_data->info:json" info true)) /\
    (forall key,
        info !! key
        = match add_info ≫= (fun extra => extra !! key) with
          | Some v => Some v
          | None =>
              if String.eqb key "relaxed_structure"
              then Some (AStructure relaxed_structure)
              else if String.eqb key "distorted_structure"
              then Some (AStructure distorted_structure)
              else None
          end).
Proof.
intros info.
destruct spawned_jobs as (static_jobs & w' & Hrun & Hlen & Hjobs).
exists static_jobs. eexists. exists w'. split; [exact Hrun|]. simpl.
split; [reflexivity|]. split.
- intros job Hjob. apply list_elem_of_lookup in Hjob as (k & Hk).
  assert (Hlt : (k < length images)%nat)
    by (rewrite <- Hlen; eapply lookup_lt_Some; exact Hk).
  apply lookup_lt_is_Some in Hlt as (image & Himage).
  destruct (Hjobs k image Himage) as (e & He). rewrite He in Hk.
  injection Hk as <-. unfold labelled. simpl. apply last_snoc.
- intros key.
  assert (Hdefault :
            (<["relaxed_structure" := AStructure relaxed_structure]>
               (<["distorted_structure" := AStructure distorted_structure]>
                  ∅) : gmap string (Arg Structure)) !! key
            = if String.eqb key "relaxed_structure"
              then Some (AStructure relaxed_structure)
              else if String.eqb key "distorted_structure"
              then Some (AStructure distorted_structure)
              else None).
  { destruct (String.eqb key "relaxed_structure") eqn:E1.
    - apply String.eqb_eq in E1. subst key. apply lookup_insert_eq.
    - apply String.eqb_neq in E1.
      rewrite lookup_insert_ne by congruence.
      destruct (String.eqb key "distorted_structure") eqn:E2.
      + apply String.eqb_eq in E2. subst key. apply lookup_insert_eq.
      + apply String.eqb_neq in E2.
        rewrite lookup_insert_ne by congruence. apply lookup_empty. }
  subst info. unfold info_of. destruct add_info as [extra|]; simpl.
  + rewrite lookup_union. rewrite Hdefault.
    destruct (extra !! key) as [v|]; simpl.
    * destruct (if String.eqb key "relaxed_structure" then _ else _);
        reflexivity.
    * destruct (if String.eqb key "relaxed_structure" then _ else _);
        reflexivity.
  + exact Hdefault.
Qed.
End Spawn.

Section Fresh.
Context {Structure W : Type}.
Variable static_maker : Maker Structure W (Job Structure).
Variables relaxed_structure distorted_structure : Structure.
Variable prev_vasp_dir : Arg Structure.
Variable add_name : string.
Variable add_info : option (gmap string (Arg Structure)).
Variable used : W -> string -> Prop.
Hypothesis Hfresh : gives_fresh_uuids used static_maker.

Lemma spawn_loop_distinct (images : list Structure) :
  forall i jobs outputs w,
    exists made w',
      spawn_loop relaxed_structure distorted_structure static_maker
        prev_vasp_dir add_name add_info i images jobs outputs w
      = (jobs ++ made, outputs ++ map ccd_input_of made, w') /\
      NoDup (map job_uuid made) /\
      forall u, used (ext w) u ->
                used (ext w') u /\ u ∉ map job_uuid made.
Proof.
induction images as [|image images IH]; intros i jobs outputs w.
- exists [], w. simpl. rewrite !app_nil_r.
  split; [reflexivity|]. split; [constructor|].
  intros u Hu. split; [exact Hu|]. apply not_elem_of_nil.
- cbn [spawn_loop]. unfold invoke.
  pose proof (Hfresh (AStructure image) prev_vasp_dir (ext w)) as Hmade.
  destruct (make_fn static_maker (AStructure image) prev_vasp_dir (ext w))
    as [raw e]. simpl in Hmade. destruct Hmade as [Hnew Hlater].
  set (kept := append_name (update_maker_kwargs raw _) _).
  destruct (IH (S i) (jobs ++ [kept]) (outputs ++ [ccd_input_of kept])
               (MkWorld e (calls w ++
                  [MkCall static_maker (AStructure image) prev_vasp_dir])))
    as (made & w' & Hrun & Hnodup & Hused).
  exists (kept :: made), w'. split; [|split].
  + rewrite Hrun, <- !app_assoc. reflexivity.
  + simpl. constructor; [|exact Hnodup].
    apply (Hused (job_uuid raw)). simpl. apply Hlater. right. reflexivity.
  + intros u Hu. destruct (Hused u) as [Hu' Hout].
    { simpl. apply Hlater. left. exact Hu. }
    split; [exact Hu'|]. simpl. apply not_elem_of_cons. split; [|exact Hout].
    intros ->. exact (Hnew Hu).
Qed.
End Fresh.

(** X12. The replacement flow is well formed for jobflow: the output has
    one record per job, record [k] belonging to job [k] of the flow: its
    three references point to the output of that job, and its [uuid]
    entry is the uuid of that job; and under a maker that gives fresh
    uuids the jobs of the flow, and so the [uuid] entries of the records,
    are pairwise distinct. *)
Theorem X12_spawned_flow_well_formed {Structure W Distortion : Type}
    (sorted : list Distortion -> list Distortion)
    (interpolate : Structure -> Structure -> list Distortion -> list Structure)
    (used : W -> string -> Prop)
    (static_maker : Maker Structure W (Job Structure))
    (Hfresh : gives_fresh_uuids used static_maker)
    (relaxed_structure distorted_structure : Structure)
    (distortions : list Distortion) (prev_vasp_dir : Arg Structure)
    (add_name : string) (add_info : option (gmap string (Arg Structure)))
    (w : world Structure W (Job Structure)) :
  exists response w',
    spawn_energy_curve_calcs sorted interpolate relaxed_structure
      distorted_structure distortions static_maker prev_vasp_dir add_name
      add_info w = (response, w') /\
    let flow := response_replace response in
    NoDup (flat_map node_uuids (flow_jobs flow)) /\
    length (flow_output flow) = length (flow_jobs flow) /\
    (forall k record,
        flow_output flow !! k = Some record ->
        exists job,
          flow_jobs flow !! k = Some (NJob job) /\
          record
          = MkCCDInput (Ref (job_uuid job) ["output"; "structure"])
                       (Ref (job_uuid job) ["output"; "energy"])
                       (Ref (job_uuid job) ["dir_name"])
                       (job_uuid job)) /\
    NoDup (map ccd_uuid (flow_output flow)).
Proof.
unfold spawn_energy_curve_calcs, invoke.
destruct (make_fn static_maker (AStructure relaxed_structure) ANone (ext w))
  as [reference e0].
destruct (spawn_loop_distinct static_maker relaxed_structure
            distorted_structure prev_vasp_dir add_name add_info used Hfresh
            (interpolate relaxed_structure distorted_structure
               (sorted distortions)) 0%nat [] []
            (MkWorld e0 (calls w ++
               [MkCall static_maker (AStructure relaxed_structure) ANone])))
  as (made & w' & Hrun & Hnodup & _).
rewrite Hrun. simpl. eexists _, w'. split; [reflexivity|]. simpl.
split; [|split; [|split]].
- assert (Huuids : flat_map node_uuids (map NJob made) = map job_uuid made).
  { clear. induction made as [|job made IH]; simpl; [reflexivity|].
    rewrite IH. reflexivity. }
  rewrite Huuids. exact Hnodup.
- rewrite !length_map. reflexivity.
- intros k record Hk. rewrite list_lookup_fmap in Hk.
  destruct (made !! k) as [job|] eqn:Hjob; [|discriminate].
  injection Hk as <-. exists job. rewrite list_lookup_fmap, Hjob.
  split; reflexivity.
- rewrite map_map. exact Hnodup.
Qed.

Lemma X12_spawned_flow_well_formed_witness :
  exists response w',
    spawn_energy_curve_calcs Fixtures.sorted_steps Fixtures.interpolate_steps
      "relaxed" "distorted" [2; 0; 1]%nat Fixtures.static_maker
      (AStr "/w/prev") "" None Fixtures.fresh_world = (response, w') /\
    NoDup (flat_map node_uuids (flow_jobs (response_replace response))).
Proof.
destruct (X12_spawned_flow_well_formed
            Fixtures.sorted_steps Fixtures.interpolate_steps
            Fixtures.given_out Fixtures.static_maker static_maker_fresh
            "relaxed" "distorted" [2; 0; 1]%nat (AStr "/w/prev") "" None
            Fixtures.fresh_world)
  as (response & w' & Hrun & Hnodup & _).
exists response, w'. split; [exact Hrun|exact Hnodup].
Defined.

Lemma X10_spawned_job_names_witness :
  exists static_jobs response w',
    spawn_energy_curve_calcs Fixtures.sorted_steps Fixtures.interpolate_steps
      "relaxed" "distorted" [2; 0; 1]%nat Fixtures.static_maker
      (AStr "/w/prev") "ccd" None Fixtures.fresh_world = (response, w') /\
    flow_jobs (response_replace response) = map NJob static_jobs /\
    NoDup (map job_name static_jobs).
Proof.
destruct (X10_spawned_job_names
            Fixtures.sorted_steps Fixtures.interpolate_steps
            Fixtures.static_maker "relaxed" "distorted" [2; 0; 1]%nat
            (AStr "/w/prev") "ccd" None Fixtures.fresh_world)
  as (static_jobs & response & w' & Hrun & Hflow & _ & Hnames).
- intros structure prev_dir e. reflexivity.
- exists static_jobs, response, w'. auto.
Defined.

End DefectExtras.

(** ** Further properties of the flow makers *)

Module FlowExtras.
Import Jobflow MP.

Section Makers.
Context {Structure W : Type}.
Variable new_uuid : W -> string * W.
Variables relax_maker static_maker : Maker Structure W (Node Structure).

(** X13. When the sub-makers return nodes whose output refers to one of
    their own jobs, every flow built by the three [make] methods has an
    output that refers to one of the jobs of the flow, as jobflow's [Flow]
    requires; this holds with and without a static maker, and for every
    [clean_files]. *)
Theorem X13_flow_output_in_flow
    (name : string) (inherited1 : option (Maker Structure W (Node Structure)))
    (inherited2 : Maker Structure W (Node Structure))
    (clean_files : option str_seq)
    (structure prev_dir : Arg Structure) (w : world Structure W _) :
  (forall m, m = relax_maker \/ m = static_maker ->
             forall s d e,
               ref_uuid (node_output (fst (make_fn m s d e)))
               ∈ node_uuids (fst (make_fn m s d e))) ->
  Forall (fun flow : Flow Structure OutputReference =>
            ref_uuid (flow_output flow)
            ∈ flat_map node_uuids (flow_jobs flow))
    [fst (MPGGADoubleRelaxStaticMaker_make
            (MkGGA _ _ name relax_maker (Some static_maker))
            structure prev_dir w);
     fst (MPGGADoubleRelaxStaticMaker_make
            (MkGGA _ _ name relax_maker None) structure prev_dir w);
     fst (MPMetaGGADoubleRelaxStaticMaker_make
            (MkMetaGGA _ _ name inherited1 inherited2 relax_maker
               (Some static_maker)) structure prev_dir w);
     fst (MPMetaGGADoubleRelaxStaticMaker_make
            (MkMetaGGA _ _ name inherited1 inherited2 relax_maker None)
            structure prev_dir w);
     fst (fst (MP24DoubleRelaxStaticMaker_make new_uuid
                 (MkMP24 _ _ name relax_maker static_maker clean_files)
                 structure prev_dir w))].
Proof.
intros Hwf.
pose proof (Hwf relax_maker (or_introl eq_refl) structure prev_dir (ext w))
  as Hrelax.
unfold MPGGADoubleRelaxStaticMaker_make, MPMetaGGADoubleRelaxStaticMaker_make,
  MP24DoubleRelaxStaticMaker_make, invoke, job_call.
cbn [gga_relax_maker gga_static_maker gga_name meta_relax_maker
     meta_static_maker meta_name mp24_relax_maker mp24_static_maker
     mp24_name mp24_clean_files].
destruct (make_fn relax_maker structure prev_dir (ext w))
  as [relax_flow e1]. cbn [ext calls fst] in *.
pose proof (Hwf static_maker (or_intror eq_refl)
              (ARef (getattr (node_output relax_flow) "structure"))
              (ARef (getattr (node_output relax_flow) "dir_name")) e1)
  as Hstatic.
destruct (make_fn static_maker _ _ e1) as [static_job e2].
cbn [ext calls fst] in *.
repeat constructor; simpl;
  try (destruct (0 <? len (clean_files_or_empty clean_files))%nat;
       [destruct (new_uuid e2) as [u e3]|]; simpl);
  rewrite ?elem_of_app; auto.
Qed.

(** X14. The assignment to [self.clean_files] happens once: calling
    [MP24DoubleRelaxStaticMaker.make] on the maker that a first call left
    leaves that maker unchanged, and builds, in the same world, the flow
    that the first call built. *)
Theorem X14_mp24_make_settles
    (self : MP24DoubleRelaxStaticMaker Structure W)
    (structure prev_dir : Arg Structure) (w : world Structure W _) :
  let first :=
    MP24DoubleRelaxStaticMaker_make new_uuid self structure prev_dir w in
  MP24DoubleRelaxStaticMaker_make new_uuid (snd (fst first)) structure
    prev_dir w
  = (fst (fst first), snd (fst first), snd first).
Proof.
destruct self as [name relax static clean_files].
assert (Hsettled : clean_files_or_empty
                     (Some (clean_files_or_empty clean_files))
                   = clean_files_or_empty clean_files).
{ unfold clean_files_or_empty.
  destruct clean_files as [items|]; [|reflexivity].
  destruct (0 <? len items)%nat eqn:E; [rewrite E|]; reflexivity. }
cbv zeta.
unfold MP24DoubleRelaxStaticMaker_make at 2. unfold invoke, job_call.
cbn [mp24_relax_maker mp24_static_maker mp24_name mp24_clean_files].
destruct (make_fn relax structure prev_dir (ext w)) as [relax_flow e1] eqn:H1.
cbn [ext calls].
destruct (make_fn static _ _ e1) as [static_job e2] eqn:H2. cbn [ext calls].
destruct (0 <? len (clean_files_or_empty clean_files))%nat eqn:E.
- destruct (new_uuid e2) as [u e3] eqn:Hu.
  cbn [fst snd].
  unfold MP24DoubleRelaxStaticMaker_make, invoke, job_call.
  cbn [mp24_relax_maker mp24_static_maker mp24_name mp24_clean_files].
  rewrite H1. cbn [ext calls]. rewrite H2. cbn [ext calls].
  rewrite Hsettled, E, Hu. reflexivity.
- cbn [fst snd].
  unfold MP24DoubleRelaxStaticMaker_make, invoke, job_call.
  cbn [mp24_relax_maker mp24_static_maker mp24_name mp24_clean_files].
  rewrite H1. cbn [ext calls]. rewrite H2. cbn [ext calls].
  rewrite Hsettled, E. reflexivity.
Qed.
(** X15. When the sub-makers give their jobs fresh, pairwise distinct
    uuids, and the uuid of a new job is fresh, the jobs of every flow
    built by the three [make] methods have pairwise distinct uuids (the
    clean-up job included), as jobflow's [Flow] requires. *)
Theorem X15_flow_uuids_distinct
    (used : W -> string -> Prop)
    (name : string) (inherited1 : option (Maker Structure W (Node Structure)))
    (inherited2 : Maker Structure W (Node Structure))
    (clean_files : option str_seq)
    (structure prev_dir : Arg Structure) (w : world Structure W _) :
  (forall m, m = relax_maker \/ m = static_maker ->
             forall s d e,
               let made := make_fn m s d e in
               NoDup (node_uuids (fst made)) /\
               (forall u, u ∈ node_uuids (fst made) -> ~ used e u) /\
               (forall u, used e u \/ u ∈ node_uuids (fst made) ->
                          used (snd made) u)) ->
  (forall e, ~ used e (fst (new_uuid e))) ->
  Forall (fun flow : Flow Structure OutputReference =>
            NoDup (flat_map node_uuids (flow_jobs flow)))
    [fst (MPGGADoubleRelaxStaticMaker_make
            (MkGGA _ _ name relax_maker (Some static_maker))
            structure prev_dir w);
     fst (MPGGADoubleRelaxStaticMaker_make
            (MkGGA _ _ name relax_maker None) structure prev_dir w);
     fst (MPMetaGGADoubleRelaxStaticMaker_make
            (MkMetaGGA _ _ name inherited1 inherited2 relax_maker
               (Some static_maker)) structure prev_dir w);
     fst (MPMetaGGADoubleRelaxStaticMaker_make
            (MkMetaGGA _ _ name inherited1 inherited2 relax_maker None)
            structure prev_dir w);
     fst (fst (MP24DoubleRelaxStaticMaker_make new_uuid
                 (MkMP24 _ _ name relax_maker static_maker clean_files)
                 structure prev_dir w))].
Proof.
intros Hfresh Hnew.
pose proof (Hfresh relax_maker (or_introl eq_refl) structure prev_dir (ext w))
  as Hrelax.
unfold MPGGADoubleRelaxStaticMaker_make, MPMetaGGADoubleRelaxStaticMaker_make,
  MP24DoubleRelaxStaticMaker_make, invoke, job_call.
cbn [gga_relax_maker gga_static_maker gga_name meta_relax_maker
     meta_static_maker meta_name mp24_relax_maker mp24_static_maker
     mp24_name mp24_clean_files].
destruct (make_fn relax_maker structure prev_dir (ext w))
  as [relax_flow e1]. cbn [ext calls fst snd] in *.
destruct Hrelax as (Hnd1 & Hnew1 & Hused1).
pose proof (Hfresh static_maker (or_intror eq_refl)
              (ARef (getattr (node_output relax_flow) "structure"))
              (ARef (getattr (node_output relax_flow) "dir_name")) e1)
  as Hstatic.
destruct (make_fn static_maker _ _ e1) as [static_job e2].
cbn [ext calls fst snd] in *.
destruct Hstatic as (Hnd2 & Hnew2 & Hused2).
assert (Htwo : NoDup (node_uuids relax_flow ++ node_uuids static_job)).
{ apply NoDup_app. split; [exact Hnd1|]. split; [|exact Hnd2].
  intros u Hu1 Hu2. apply (Hnew2 u Hu2). apply Hused1. right. exact Hu1. }
assert (Hthree : forall u e3,
           new_uuid e2 = (u, e3) ->
           NoDup (node_uuids relax_flow ++ node_uuids static_job ++ [u])).
{ intros u e3 Hu. rewrite app_assoc. apply NoDup_app.
  split; [exact Htwo|]. split; [|apply NoDup_singleton].
  intros x Hx Hxu. apply list_elem_of_singleton in Hxu. subst x.
  pose proof (Hnew e2) as Hfree. rewrite Hu in Hfree. simpl in Hfree.
  apply Hfree. apply elem_of_app in Hx as [Hx|Hx].
  - apply Hused2. left. apply Hused1. right. exact Hx.
  - apply Hused2. right. exact Hx. }
repeat constructor; simpl; rewrite ?app_nil_r; try assumption.
destruct (0 <? len (clean_files_or_empty clean_files))%nat.
- destruct (new_uuid e2) as [u e3] eqn:Hu. simpl.
  rewrite ?app_nil_r. exact (Hthree u e3 eq_refl).
- simpl. rewrite ?app_nil_r. exact Htwo.
Qed.
End Makers.

Lemma fixture_nodes_well_formed m :
  m = Fixtures.double_relax_maker \/ m = Fixtures.step_maker "MP24 static" ->
  forall s d e,
    ref_uuid (node_output (fst (make_fn m s d e)))
    ∈ node_uuids (fst (make_fn m s d e)).
Proof. intros [-> | ->] s d e; simpl; repeat constructor. Qed.

Lemma X13_flow_output_in_flow_witness :
  let flow :=
    fst (fst (MP24DoubleRelaxStaticMaker_make Fixtures.new_uuid
                Fixtures.mp24_default (AStructure "Si") ANone
                Fixtures.fresh_world)) in
  ref_uuid (flow_output flow) ∈ flat_map node_uuids (flow_jobs flow).
Proof.
pose proof (X13_flow_output_in_flow Fixtures.new_uuid
              Fixtures.double_relax_maker (Fixtures.step_maker "MP24 static")
              "MP24 r2SCAN workflow" None Fixtures.double_relax_maker
              (Some (StrTuple ["WAVECAR"])) (AStructure "Si") ANone
              Fixtures.fresh_world fixture_nodes_well_formed) as H.
rewrite !Forall_cons in H. exact (proj1 (proj2 (proj2 (proj2 (proj2 H))))).
Defined.

Lemma fixture_nodes_fresh m :
  m = Fixtures.double_relax_maker \/ m = Fixtures.step_maker "MP24 static" ->
  forall s d e,
    let made := make_fn m s d e in
    NoDup (node_uuids (fst made)) /\
    (forall u, u ∈ node_uuids (fst made) -> ~ Fixtures.given_out e u) /\
    (forall u, Fixtures.given_out e u \/ u ∈ node_uuids (fst made) ->
               Fixtures.given_out (snd made) u).
Proof.
intros [-> | ->] s d e; cbn -[Fixtures.strokes].
- split; [|split].
  + apply NoDup_cons. split; [|apply NoDup_singleton].
    intros Hin. apply list_elem_of_singleton in Hin.
    apply DefectProperties.strokes_inj in Hin. lia.
  + intros u Hu (k & Hk & ->).
    apply elem_of_cons in Hu as [Hu|Hu];
      [|apply list_elem_of_singleton in Hu];
      apply DefectProperties.strokes_inj in Hu; lia.
  + intros u [(k & Hk & ->)|Hu].
    * exists k. split; [lia|reflexivity].
    * apply elem_of_cons in Hu as [->|Hu];
        [|apply list_elem_of_singleton in Hu; subst u];
        eexists; (split; [|reflexivity]); lia.
- split; [|split].
  + apply NoDup_singleton.
  + intros u Hu (k & Hk & ->). apply list_elem_of_singleton in Hu.
    apply DefectProperties.strokes_inj in Hu. lia.
  + intros u [(k & Hk & ->)|Hu].
    * exists k. split; [lia|reflexivity].
    * apply list_elem_of_singleton in Hu. subst u.
      exists e. split; [lia|reflexivity].
Qed.

Lemma X15_flow_uuids_distinct_witness :
  let flow :=
    fst (fst (MP24DoubleRelaxStaticMaker_make Fixtures.new_uuid
                Fixtures.mp24_default (AStructure "Si") ANone
                Fixtures.fresh_world)) in
  NoDup (flat_map node_uuids (flow_jobs flow)).
Proof.
pose proof (X15_flow_uuids_distinct Fixtures.new_uuid
              Fixtures.double_relax_maker (Fixtures.step_maker "MP24 static")
              Fixtures.given_out
              "MP24 r2SCAN workflow" None Fixtures.double_relax_maker
              (Some (StrTuple ["WAVECAR"])) (AStructure "Si") ANone
              Fixtures.fresh_world fixture_nodes_fresh) as H.
assert (Hnew : forall e, ~ Fixtures.given_out e (fst (Fixtures.new_uuid e))).
{ intros e (k & Hk & Heq). cbn -[Fixtures.strokes] in Heq.
  apply DefectProperties.strokes_inj in Heq. lia. }
specialize (H Hnew).
rewrite !Forall_cons in H. exact (proj1 (proj2 (proj2 (proj2 (proj2 H))))).
Defined.

End FlowExtras.

(** ** The finite-difference maker *)

Module FiniteDifferenceProperties.
Import Py FiniteDifference.

Section Maker.
Context {Kwargs FiniteDifferenceDocument E : Type}.
Variable ext : Externals Kwargs FiniteDifferenceDocument E.
Variable self : FiniteDifferenceMaker Kwargs.

#[local] Abbreviation process := (FiniteDifference.process Kwargs E).

(** One turn of the loop makes the calls of [step_script], in order, up
    to the first that raises. *)
Lemma make_step_trace (item : nat * string) (p : process) :
  exists done,
    trace (snd (make_step ext self item p)) = trace p ++ done /\
    done `prefix_of` step_script self item /\
    (fst (make_step ext self item p) = Ok tt -> done = step_script self item).
Proof.
destruct item as [i dir_name].
unfold make_step, step_script, bind, call. cbn [fst snd env trace].
destruct (copy_files ext dir_name ["WAVECAR.gz"] "qqq." (env p))
  as [[[]|x1] e1]; cbn [fst snd env trace];
  [|exists [CopyFiles dir_name ["WAVECAR.gz"] "qqq."];
    repeat split; [eexists; reflexivity|discriminate]].
destruct (gunzip_files ext (Pattern "qqq.WAVECAR*") (Some true) None e1)
  as [[[]|x2] e2]; cbn [fst snd env trace];
  [|eexists [_; _]; rewrite <- !app_assoc;
    repeat split; [eexists; reflexivity|discriminate]].
destruct (rename_files ext [("qqq.WAVECAR", "WAVECAR.qqq")] e2)
  as [[[]|x3] e3]; cbn [fst snd env trace];
  [|eexists [_; _; _]; rewrite <- !app_assoc;
    repeat split; [eexists; reflexivity|discriminate]].
destruct (run_vasp ext (run_vasp_kwargs self) e3)
  as [[[]|x4] e4]; cbn [fst snd env trace];
  [|eexists [_; _; _; _]; rewrite <- !app_assoc;
    repeat split; [eexists; reflexivity|discriminate]].
destruct (file_client_copy ext "WSWQ"
            ("WSWQ." +:+ Defect.str_of_nat i) e4)
  as [[[]|x5] e5]; cbn [fst snd env trace];
  eexists [_; _; _; _; _]; rewrite <- !app_assoc;
  repeat split; try reflexivity; try discriminate.
Qed.

(** The loop makes the calls of its turns, in order, up to the first
    call that raises. *)
Lemma loop_trace (items : list (nat * string)) :
  forall p : process,
    exists done,
      trace (snd (for_in items (make_step ext self) p)) = trace p ++ done /\
      done `prefix_of` flat_map (step_script self) items /\
      (fst (for_in items (make_step ext self) p) = Ok tt ->
       done = flat_map (step_script self) items).
Proof.
induction items as [|item items IH]; intros p.
- exists []. simpl. rewrite app_nil_r. repeat split. reflexivity.
- cbn [for_in]. unfold bind.
  destruct (make_step_trace item p) as (done1 & Ht1 & Hp1 & Hok1).
  destruct (make_step ext self item p) as [[[]|x] p1];
    cbn [fst snd] in *.
  + specialize (Hok1 eq_refl). subst done1.
    destruct (IH p1) as (done2 & Ht2 & Hp2 & Hok2).
    exists (step_script self item ++ done2).
    rewrite Ht2, Ht1, <- app_assoc.
    split; [reflexivity|]. split.
    * cbn [flat_map]. apply prefix_app. exact Hp2.
    * intros Hok. rewrite (Hok2 Hok). reflexivity.
  + exists done1. split; [exact Ht1|]. split; [|discriminate].
    cbn [flat_map]. apply prefix_app_r. exact Hp1.
Qed.
(** A run makes the calls of [script], in order, up to the first call
    that raises; when it returns, all of them were made and the document
    is the one [from_directory] built; once the INCAR is written, [incar]
    is the INCAR that was read. *)
Lemma make_trace (ref_calc_dir : string) (distorted_calc_dirs : list string)
    (p : process) :
  exists incar cur_dir done,
    trace (snd (make ext self ref_calc_dir distorted_calc_dirs p))
    = trace p ++ done /\
    done `prefix_of`
      script ext self ref_calc_dir distorted_calc_dirs incar cur_dir /\
    (forall fd_doc,
        fst (make ext self ref_calc_dir distorted_calc_dirs p) = Ok fd_doc ->
        done = script ext self ref_calc_dir distorted_calc_dirs incar cur_dir
        /\ exists e e', from_directory ext cur_dir e = (Ok fd_doc, e')) /\
    (3 <= length done ->
     exists e e', Incar_from_file ext "INCAR" e = (Ok incar, e')).
Proof.
unfold make, script, bind, call. cbn [fst snd env trace].
set (items := enumerate (map (strip_hostname ext) distorted_calc_dirs)).
destruct (copy_vasp_outputs ext ref_calc_dir ["WAVECAR"] (env p))
  as [[[]|x1] e1]; cbn [fst snd env trace];
  [|exists ∅, "", [CopyVaspOutputs ref_calc_dir ["WAVECAR"]];
    repeat split;
    [eexists; reflexivity|discriminate|discriminate|simpl; lia]].
destruct (Incar_from_file ext "INCAR" e1) as [[incar|x2] e2] eqn:Hincar;
  cbn [fst snd env trace];
  [|exists ∅, "", [CopyVaspOutputs ref_calc_dir ["WAVECAR"];
                   IncarFromFile "INCAR"];
    rewrite <- !app_assoc;
    repeat split;
    [eexists; reflexivity|discriminate|discriminate|simpl; lia]].
exists incar.
assert (Hread : exists e e', Incar_from_file ext "INCAR" e = (Ok incar, e'))
  by eauto.
clear Hincar.
destruct (Incar_write_file ext (incar_update incar wswq_tags) "INCAR" e2)
  as [[[]|x3] e3]; cbn [fst snd env trace];
  [|exists "", [CopyVaspOutputs ref_calc_dir ["WAVECAR"];
                IncarFromFile "INCAR";
                IncarWriteFile (incar_update incar wswq_tags) "INCAR"];
    rewrite <- !app_assoc;
    repeat split;
    [eexists; reflexivity|discriminate|discriminate|intros _; exact Hread]].
destruct (gunzip_files ext
            (Names ["INCAR"; "POSCAR"; "WAVECAR"; "POTCAR"; "KPOINTS"])
            (Some true) (Some true) e3)
  as [[[]|x4] e4]; cbn [fst snd env trace];
  [|exists "", [CopyVaspOutputs ref_calc_dir ["WAVECAR"];
                IncarFromFile "INCAR";
                IncarWriteFile (incar_update incar wswq_tags) "INCAR";
                GunzipFiles
                  (Names ["INCAR"; "POSCAR"; "WAVECAR"; "POTCAR"; "KPOINTS"])
                  (Some true) (Some true)];
    rewrite <- !app_assoc;
    repeat split;
    [eexists; reflexivity|discriminate|discriminate|intros _; exact Hread]].
set (head := [CopyVaspOutputs ref_calc_dir ["WAVECAR"];
              IncarFromFile "INCAR";
              IncarWriteFile (incar_update incar wswq_tags) "INCAR";
              GunzipFiles
                (Names ["INCAR"; "POSCAR"; "WAVECAR"; "POTCAR"; "KPOINTS"])
                (Some true) (Some true)]).
assert (Hhead : forall t : list (Event Kwargs),
           (((t ++ [CopyVaspOutputs ref_calc_dir ["WAVECAR"]])
             ++ [IncarFromFile "INCAR"])
            ++ [IncarWriteFile (incar_update incar wswq_tags) "INCAR"])
           ++ [GunzipFiles
                 (Names ["INCAR"; "POSCAR"; "WAVECAR"; "POTCAR"; "KPOINTS"])
                 (Some true) (Some true)]
           = t ++ head)
  by (intros t; rewrite <- !app_assoc; reflexivity).
rewrite Hhead.
destruct (loop_trace items (MkProcess e4 (trace p ++ head)))
  as (loop_done & Ht & Hp & Hok).
destruct (for_in items (make_step ext self) (MkProcess e4 (trace p ++ head)))
  as [[[]|x5] p5]; cbn [fst snd env trace] in *.
- specialize (Hok eq_refl). subst loop_done.
  destruct (Path_cwd ext (env p5)) as [[cur_dir|x6] e6];
    cbn [fst snd env trace].
  + exists cur_dir.
    destruct (from_directory ext cur_dir e6) as [[fd_doc|x7] e7] eqn:Hdoc;
      cbn [fst snd env trace].
    * destruct (gzip_files ext cur_dir true e7) as [[[]|x8] e8];
        cbn [fst snd env trace];
        exists (head ++ flat_map (step_script self) items
                ++ [PathCwd; FromDirectory cur_dir; GzipFiles cur_dir true]);
        rewrite Ht, <- !app_assoc;
        (split; [reflexivity|]); (split; [reflexivity|]);
        (split; [|intros _; exact Hread]).
      -- intros doc [= <-]. split; [reflexivity|]. eauto.
      -- discriminate.
    * exists (head ++ flat_map (step_script self) items
              ++ [PathCwd; FromDirectory cur_dir]).
      rewrite Ht, <- !app_assoc.
      split; [reflexivity|]. split; [|split; [discriminate|intros _; exact Hread]].
      apply prefix_app, prefix_app. eexists [_]. reflexivity.
  + exists "", (head ++ flat_map (step_script self) items ++ [PathCwd]).
    rewrite Ht, <- !app_assoc.
    split; [reflexivity|]. split; [|split; [discriminate|intros _; exact Hread]].
    apply prefix_app, prefix_app. eexists [_; _]. reflexivity.
- exists "", (head ++ loop_done). rewrite Ht, <- !app_assoc.
  split; [reflexivity|]. split; [|split; [discriminate|intros _; exact Hread]].
  apply prefix_app, prefix_app_r. exact Hp.
Qed.

(** *** The outcome of the calls

    A computation is [accounted] for when the calls it adds to the trace
    explain its outcome: made again in this order from the state it
    started in, they all return and lead to the state it ends in, when it
    returns; and all but the last return, the last raising what the
    computation raises, when it raises. *)
#[local] Abbreviation accounted m :=
  (forall p : process,
      exists done,
        trace (snd (m p)) = trace p ++ done /\
        match fst (m p) with
        | Ok _ => perform_all ext done (env p) = (Ok tt, env (snd (m p)))
        | Raise x =>
            exists before ev e1,
              done = before ++ [ev] /\
              perform_all ext before (env p) = (Ok tt, e1) /\
              perform ext ev e1 = (Raise x, env (snd (m p)))
        end).

Lemma perform_all_app (evs1 evs2 : list (Event Kwargs)) (e e1 : E) :
  perform_all ext evs1 e = (Ok tt, e1) ->
  perform_all ext (evs1 ++ evs2) e = perform_all ext evs2 e1.
Proof.
unfold perform_all. revert e.
induction evs1 as [|ev evs1 IH]; intros e H; simpl in *.
- unfold ret in H. congruence.
- unfold bind in *. destruct (perform ext ev e) as [[[]|x] e0].
  + apply IH. exact H.
  + discriminate.
Qed.

Lemma accounted_ret {A} (a : A) : accounted (ret a).
Proof. intros p. exists []. simpl. rewrite app_nil_r. split; reflexivity. Qed.

Lemma accounted_call {A} (ev : Event Kwargs) (op : M E A) :
  (forall e, perform ext ev e = forget op e) ->
  accounted (call ev op).
Proof.
intros Hev p. exists [ev]. unfold call.
pose proof (Hev (env p)) as H. unfold forget in H.
destruct (op (env p)) as [[a|x] e']; cbn [fst snd env trace].
- split; [reflexivity|]. unfold perform_all. simpl. unfold bind, ret.
  rewrite H. reflexivity.
- split; [reflexivity|]. exists [], ev, (env p).
  split; [reflexivity|]. split; [reflexivity|exact H].
Qed.

Lemma accounted_bind {A B} (m : M process A) (k : A -> M process B) :
  accounted m -> (forall a, accounted (k a)) -> accounted (bind m k).
Proof.
intros Hm Hk p. unfold bind.
destruct (Hm p) as (done1 & Ht1 & Ho1).
destruct (m p) as [[a|x] p1]; cbn [fst snd] in *.
- destruct (Hk a p1) as (done2 & Ht2 & Ho2).
  exists (done1 ++ done2). rewrite Ht2, Ht1, <- app_assoc.
  split; [reflexivity|].
  destruct (fst (k a p1)) as [b|x].
  + rewrite (perform_all_app _ _ _ _ Ho1). exact Ho2.
  + destruct Ho2 as (before & ev & e1 & -> & Hbefore & Hev).
    exists (done1 ++ before), ev, e1. rewrite <- app_assoc.
    split; [reflexivity|]. split; [|exact Hev].
    rewrite (perform_all_app _ _ _ _ Ho1). exact Hbefore.
- exists done1. split; [exact Ht1|exact Ho1].
Qed.

Lemma accounted_for_in {A} (l : list A) (body : A -> M process unit) :
  (forall x, accounted (body x)) -> accounted (for_in l body).
Proof.
intros Hbody. induction l as [|x l IH]; cbn [for_in].
- apply accounted_ret.
- apply accounted_bind; [apply Hbody|intros _; exact IH].
Qed.

Lemma forget_unit (op : M E unit) (e : E) : op e = forget op e.
Proof. unfold forget. destruct (op e) as [[[]|x] e']; reflexivity. Qed.

Lemma make_step_accounted (item : nat * string) :
  accounted (make_step ext self item).
Proof.
destruct item as [i dir_name]. unfold make_step.
repeat (apply accounted_bind; [|intros ?]);
  apply accounted_call; intros e; apply forget_unit.
Qed.

Lemma make_accounted (ref_calc_dir : string)
    (distorted_calc_dirs : list string) :
  accounted (make ext self ref_calc_dir distorted_calc_dirs).
Proof.
unfold make.
repeat (apply accounted_bind; [|intros ?]);
  try apply accounted_ret;
  try (apply accounted_for_in; intros item; apply make_step_accounted);
  apply accounted_call; intros e; try apply forget_unit; reflexivity.
Qed.
End Maker.

Lemma prefix_filter {A} (P : A -> bool) (l1 l2 : list A) :
  l1 `prefix_of` l2 -> List.filter P l1 `prefix_of` List.filter P l2.
Proof. intros [k ->]. rewrite List.filter_app. eexists. reflexivity. Qed.

Lemma prefix_omap {A B} (f : A -> option B) (l1 l2 : list A) :
  l1 `prefix_of` l2 -> omap f l1 `prefix_of` omap f l2.
Proof. intros [k ->]. rewrite omap_app. eexists. reflexivity. Qed.

Section Script.
Context {Kwargs FiniteDifferenceDocument E : Type}.
Variable ext : Externals Kwargs FiniteDifferenceDocument E.
Variable self : FiniteDifferenceMaker Kwargs.

Lemma runs_of_steps (items : list (nat * string)) :
  List.filter is_run_vasp (flat_map (step_script self) items)
  = map (fun _ => RunVasp (run_vasp_kwargs self)) items.
Proof.
induction items as [|item items IH]; [reflexivity|].
cbn [flat_map]. rewrite List.filter_app, IH. reflexivity.
Qed.

Lemma dests_of_steps (items : list (nat * string)) :
  copy_dests (flat_map (step_script self) items)
  = map (fun item => "WSWQ." +:+ Defect.str_of_nat (fst item)) items.
Proof.
unfold copy_dests.
induction items as [|item items IH]; [reflexivity|].
cbn [flat_map]. rewrite omap_app, IH. reflexivity.
Qed.

Lemma enumerate_fst {A} (l : list A) :
  map fst (enumerate l) = seq 0 (length l).
Proof.
unfold enumerate. apply fst_zip. rewrite length_seq. reflexivity.
Qed.

Lemma runs_of_script ref_calc_dir distorted_calc_dirs incar cur_dir :
  List.filter is_run_vasp
    (script ext self ref_calc_dir distorted_calc_dirs incar cur_dir)
  = replicate (length distorted_calc_dirs) (RunVasp (run_vasp_kwargs self)).
Proof.
unfold script. rewrite !List.filter_app, runs_of_steps. simpl.
rewrite app_nil_r.
rewrite <- (length_map (strip_hostname ext) distorted_calc_dirs).
generalize (map (strip_hostname ext) distorted_calc_dirs). intros l.
unfold enumerate.
assert (H : forall (n : nat) (l : list string),
           map (fun _ : nat * string => RunVasp (run_vasp_kwargs self))
               (zip (seq n (length l)) l)
           = replicate (length l) (RunVasp (run_vasp_kwargs self))).
{ intros n l'. revert n. induction l' as [|x l' IH]; intros n; simpl;
    [reflexivity|]. rewrite IH. reflexivity. }
apply H.
Qed.

Lemma dests_of_script ref_calc_dir distorted_calc_dirs incar cur_dir :
  copy_dests (script ext self ref_calc_dir distorted_calc_dirs incar cur_dir)
  = map (fun i => "WSWQ." +:+ Defect.str_of_nat i)
        (seq 0 (length distorted_calc_dirs)).
Proof.
pose proof (dests_of_steps
              (enumerate (map (strip_hostname ext) distorted_calc_dirs)))
  as Hsteps.
unfold script, copy_dests in *. rewrite !omap_app, Hsteps. simpl.
rewrite app_nil_r.
rewrite <- (length_map (strip_hostname ext) distorted_calc_dirs).
rewrite <- enumerate_fst, map_map. reflexivity.
Qed.
End Script.

(** X17. [FiniteDifferenceMaker.make] makes its calls in one fixed order:
    the WAVECAR of the reference is copied, the INCAR is read and written
    back with the tags of the maker, the inputs are unzipped, each
    distorted directory in turn is copied from, unzipped, renamed, run and
    its WSWQ stored, and last the document is built and the directory is
    zipped.  A call that raises ends the job: when the job raises [x],
    every call made before the last one returned, the last one raised [x],
    and nothing that follows it in the order was attempted.  When the job
    returns, every call was made and returned, and the result is the
    document built before the directory was zipped.  In both cases the
    state is left as the calls made left it. *)
Theorem X17_finite_difference_calls_in_order
    {Kwargs FiniteDifferenceDocument E : Type}
    (ext : Externals Kwargs FiniteDifferenceDocument E)
    (self : FiniteDifferenceMaker Kwargs)
    (ref_calc_dir : string) (distorted_calc_dirs : list string)
    (p : FiniteDifference.process Kwargs E) :
  exists incar cur_dir done,
    trace (snd (make ext self ref_calc_dir distorted_calc_dirs p))
    = trace p ++ done /\
    done `prefix_of`
      script ext self ref_calc_dir distorted_calc_dirs incar cur_dir /\
    match fst (make ext self ref_calc_dir distorted_calc_dirs p) with
    | Ok fd_doc =>
        done = script ext self ref_calc_dir distorted_calc_dirs incar cur_dir
        /\ last done = Some (GzipFiles cur_dir true)
        /\ perform_all ext done (env p)
           = (Ok tt,
              env (snd (make ext self ref_calc_dir distorted_calc_dirs p)))
        /\ exists e e', from_directory ext cur_dir e = (Ok fd_doc, e')
    | Raise x =>
        exists before ev e1,
          done = before ++ [ev] /\
          perform_all ext before (env p) = (Ok tt, e1) /\
          perform ext ev e1
          = (Raise x,
             env (snd (make ext self ref_calc_dir distorted_calc_dirs p)))
    end.
Proof.
destruct (make_trace ext self ref_calc_dir distorted_calc_dirs p)
  as (incar & cur_dir & done & Ht & Hp & Hok & _).
destruct (make_accounted ext self ref_calc_dir distorted_calc_dirs p)
  as (done' & Ht' & Hout).
assert (done' = done) as ->.
{ rewrite Ht in Ht'. apply app_inv_head in Ht'. congruence. }
exists incar, cur_dir, done. split; [exact Ht|]. split; [exact Hp|].
destruct (fst (make ext self ref_calc_dir distorted_calc_dirs p))
  as [fd_doc|x]; [|exact Hout].
destruct (Hok fd_doc eq_refl) as [-> Hparsed].
split; [reflexivity|]. split; [|split; [exact Hout|exact Hparsed]].
unfold script. rewrite !app_assoc.
change [PathCwd; FromDirectory cur_dir; GzipFiles cur_dir true]
  with ([PathCwd; FromDirectory cur_dir] ++ [GzipFiles (Kwargs:=Kwargs) cur_dir true]).
rewrite app_assoc. apply last_snoc.
Qed.

(** X18. VASP is run at most once per distorted directory, always with
    the keyword arguments of the maker, and exactly once per directory
    when the job returns.  The WSWQ of run [i] is stored as [WSWQ.i]: the
    destinations are [WSWQ.0], [WSWQ.1], ... in this order, so that no
    stored file is overwritten. *)
Theorem X18_finite_difference_runs
    {Kwargs FiniteDifferenceDocument E : Type}
    (ext : Externals Kwargs FiniteDifferenceDocument E)
    (self : FiniteDifferenceMaker Kwargs)
    (ref_calc_dir : string) (distorted_calc_dirs : list string)
    (p : FiniteDifference.process Kwargs E) :
  exists done,
    trace (snd (make ext self ref_calc_dir distorted_calc_dirs p))
    = trace p ++ done /\
    (exists runs,
        List.filter is_run_vasp done
        = replicate runs (RunVasp (run_vasp_kwargs self)) /\
        runs <= length distorted_calc_dirs /\
        (forall fd_doc,
            fst (make ext self ref_calc_dir distorted_calc_dirs p) = Ok fd_doc ->
            runs = length distorted_calc_dirs)) /\
    copy_dests done
      `prefix_of` map (fun i => "WSWQ." +:+ Defect.str_of_nat i)
                      (seq 0 (length distorted_calc_dirs)) /\
    NoDup (copy_dests done).
Proof.
destruct (make_trace ext self ref_calc_dir distorted_calc_dirs p)
  as (incar & cur_dir & done & Ht & Hp & Hok & _).
exists done. split; [exact Ht|].
pose proof (prefix_filter is_run_vasp _ _ Hp) as Hruns.
rewrite runs_of_script in Hruns.
pose proof (prefix_omap _ _ _ Hp : copy_dests done `prefix_of` copy_dests _)
  as Hdests.
rewrite dests_of_script in Hdests.
split; [|split; [exact Hdests|]].
- destruct Hruns as [k Hk].
  exists (length (List.filter is_run_vasp done)).
  assert (Hlen : length (List.filter is_run_vasp done)
                 + length k = length distorted_calc_dirs).
  { rewrite <- length_app, <- Hk, length_replicate. reflexivity. }
  split; [|split; [lia|]].
  + apply (f_equal (take (length (List.filter is_run_vasp done)))) in Hk.
    rewrite take_app_length, take_replicate, Nat.min_l in Hk by lia.
    symmetry. exact Hk.
  + intros fd_doc Hdoc. destruct (Hok fd_doc Hdoc) as [-> _].
    rewrite runs_of_script, length_replicate. reflexivity.
- assert (Hall : NoDup (map (fun i => "WSWQ." +:+ Defect.str_of_nat i)
                             (seq 0 (length distorted_calc_dirs)))).
  { apply NoDup_fmap_2_strong; [|apply NoDup_seq].
    intros i j _ _ Heq. apply DefectExtras.append_cancel in Heq.
    apply DefectExtras.str_of_nat_inj. exact Heq. }
  destruct Hdests as [k Hk]. rewrite Hk in Hall.
  apply NoDup_app in Hall. exact (proj1 Hall).
Qed.

Lemma head_before_first {A} (P : A -> bool) (head pre tail rest : list A) x :
  Forall (fun y => P y = false) head ->
  P x = true ->
  pre ++ x :: rest = head ++ tail ->
  exists pre', pre = head ++ pre'.
Proof.
revert pre. induction head as [|h head IH]; intros pre Hhead Hx Heq.
- exists pre. reflexivity.
- apply Forall_cons in Hhead as [Hh Hhead].
  destruct pre as [|a pre]; simpl in Heq.
  + injection Heq as -> _. congruence.
  + injection Heq as -> Heq.
    destruct (IH pre Hhead Hx Heq) as [pre' ->]. exists pre'. reflexivity.
Qed.

Lemma wswq_tags_lookup (incar : Incar) (tag : string) :
  incar_update incar wswq_tags !! tag
  = if String.eqb tag "ALGO" then Some (IStr "None")
    else if String.eqb tag "NSW" then Some (IInt 0)
    else if String.eqb tag "LWAVE" then Some (IBool false)
    else if String.eqb tag "LWSWQ" then Some (IBool true)
    else incar !! tag.
Proof.
unfold incar_update, wswq_tags.
destruct (String.eqb tag "ALGO") eqn:E1;
  [apply String.eqb_eq in E1; subst tag;
   apply lookup_union_Some_l, lookup_insert_eq|].
destruct (String.eqb tag "NSW") eqn:E2;
  [apply String.eqb_eq in E2; subst tag;
   apply lookup_union_Some_l; rewrite lookup_insert_ne by discriminate;
   apply lookup_insert_eq|].
destruct (String.eqb tag "LWAVE") eqn:E3;
  [apply String.eqb_eq in E3; subst tag;
   apply lookup_union_Some_l; rewrite !lookup_insert_ne by discriminate;
   apply lookup_insert_eq|].
destruct (String.eqb tag "LWSWQ") eqn:E4;
  [apply String.eqb_eq in E4; subst tag;
   apply lookup_union_Some_l; rewrite !lookup_insert_ne by discriminate;
   apply lookup_insert_eq|].
apply String.eqb_neq in E1, E2, E3, E4.
apply lookup_union_r.
rewrite !lookup_insert_ne by congruence. apply lookup_empty.
Qed.

(** X19. VASP never runs on the INCAR as it was found: before any run,
    the INCAR has been read and written back with [ALGO = None],
    [NSW = 0], [LWAVE = False] and [LWSWQ = True], whatever it held for
    these tags, and with every other tag as it was read; and every run
    is given the keyword arguments of the maker. *)
Theorem X19_incar_written_before_vasp
    {Kwargs FiniteDifferenceDocument E : Type}
    (ext : Externals Kwargs FiniteDifferenceDocument E)
    (self : FiniteDifferenceMaker Kwargs)
    (ref_calc_dir : string) (distorted_calc_dirs : list string)
    (p : FiniteDifference.process Kwargs E) :
  exists done,
    trace (snd (make ext self ref_calc_dir distorted_calc_dirs p))
    = trace p ++ done /\
    forall pre kwargs post,
      done = pre ++ RunVasp kwargs :: post ->
      kwargs = run_vasp_kwargs self /\
      exists incar written e e',
        Incar_from_file ext "INCAR" e = (Ok incar, e') /\
        IncarFromFile "INCAR" ∈ pre /\
        IncarWriteFile written "INCAR" ∈ pre /\
        (forall tag,
            written !! tag
            = if String.eqb tag "ALGO" then Some (IStr "None")
              else if String.eqb tag "NSW" then Some (IInt 0)
              else if String.eqb tag "LWAVE" then Some (IBool false)
              else if String.eqb tag "LWSWQ" then Some (IBool true)
              else incar !! tag).
Proof.
destruct (make_trace ext self ref_calc_dir distorted_calc_dirs p)
  as (incar & cur_dir & done & Ht & Hp & _ & Hread).
exists done. split; [exact Ht|].
intros pre kwargs post Hdone. split.
- pose proof (prefix_filter is_run_vasp _ _ Hp) as Hruns.
  rewrite runs_of_script in Hruns. destruct Hruns as [k Hk].
  assert (Hin : RunVasp kwargs ∈ List.filter is_run_vasp done ++ k).
  { apply elem_of_app. left. apply list_elem_of_In, filter_In.
    split; [|reflexivity]. apply list_elem_of_In. rewrite Hdone.
    apply elem_of_app. right. left. }
  rewrite <- Hk in Hin. apply elem_of_replicate in Hin as [Heq _].
  injection Heq as ->. reflexivity.
- destruct Hp as [k Hk]. unfold script in Hk. rewrite Hdone in Hk.
  rewrite <- app_assoc in Hk. simpl in Hk.
  destruct (head_before_first is_run_vasp
              [CopyVaspOutputs ref_calc_dir ["WAVECAR"];
               IncarFromFile "INCAR";
               IncarWriteFile (incar_update incar wswq_tags) "INCAR";
               GunzipFiles
                 (Names ["INCAR"; "POSCAR"; "WAVECAR"; "POTCAR"; "KPOINTS"])
                 (Some true) (Some true)]
              pre
              (flat_map (step_script self)
                 (enumerate (map (strip_hostname ext) distorted_calc_dirs))
               ++ [PathCwd; FromDirectory cur_dir; GzipFiles cur_dir true])
              (post ++ k) (RunVasp kwargs))
    as [pre' ->]; [repeat constructor|reflexivity|symmetry; exact Hk|].
  destruct Hread as (e & e' & Hread).
  { rewrite Hdone. simpl. lia. }
  exists incar, (incar_update incar wswq_tags), e, e'.
  split; [exact Hread|]. split; [|split].
  + simpl. right. left.
  + simpl. right. right. left.
  + apply wswq_tags_lookup.
Qed.

(** With VASP failing at its second run, for three distorted
    directories: the job raises, the second WSWQ is not stored and
    nothing is zipped. *)
Example finite_difference_with_flaky_vasp :
  let '(outcome, p) :=
    make Fixtures.flaky_vasp Fixtures.finite_diff "host:/w/ref"
      ["host:/w/d0"; "host:/w/d1"; "host:/w/d2"]
      (FiniteDifference.MkProcess 0%nat []) in
  outcome = Raise (RuntimeError "VASP failed") /\
  copy_dests (trace p) = ["WSWQ.0"] /\
  length (List.filter is_run_vasp (trace p)) = 2%nat /\
  last (trace p) = Some (RunVasp tt).
Proof. vm_compute. repeat split; reflexivity. Qed.

End FiniteDifferenceProperties.

(** ** Further properties of the QChem drone *)

Module DroneExtras.
Import Py QChemDrones DroneProperties.

Lemma existsb_eqb_elem (name : string) (l : list string) :
  existsb (String.eqb name) l = true <-> name ∈ l.
Proof.
rewrite existsb_exists. split.
- intros (x & Hin & Heq). apply String.eqb_eq in Heq. subst x.
  apply list_elem_of_In. exact Hin.
- intros Hin. exists name. split; [apply list_elem_of_In; exact Hin|].
  apply String.eqb_refl.
Qed.

(** X16. [get_valid_paths] returns in two cases only, and never looks at
    the files of the triple: it returns [[parent]] exactly when a
    subdirectory is named [mol.qout.*], literally, and it returns the
    empty list exactly when there is no such subdirectory and [parent]
    itself ends in [/mol.qout.*].  It never returns a directory other
    than [parent]. *)
Theorem X16_get_valid_paths_returns
    (parent : string) (subdirs files : list string) (paths : list string) :
  get_valid_paths (parent, subdirs, files) = Ok paths <->
  ("mol.qout.*" ∈ subdirs /\ paths = [parent]) \/
  (("mol.qout.*" ∉ subdirs) /\ endswith parent "/mol.qout.*" = true /\
   paths = []).
Proof.
rewrite get_valid_paths_outcomes.
destruct (existsb (String.eqb "mol.qout.*") subdirs) eqn:Hsub.
- apply existsb_eqb_elem in Hsub. split.
  + intros [= <-]. left. split; [exact Hsub|reflexivity].
  + intros [[_ ->]|[Hno _]]; [reflexivity|destruct (Hno Hsub)].
- assert (Hno : "mol.qout.*" ∉ subdirs).
  { intros Hin. apply existsb_eqb_elem in Hin. congruence. }
  destruct (endswith parent "/mol.qout.*") eqn:Hend; split.
  + intros [= <-]. right. repeat split; assumption.
  + intros [[Hin _]|(_ & _ & ->)]; [destruct (Hno Hin)|reflexivity].
  + discriminate.
  + intros [[Hin _]|(_ & Hfalse & _)]; [destruct (Hno Hin)|discriminate].
Qed.

End DroneExtras.
